(** * Smart Expense AI: the data layer of [expense_model.py]

    A shallow embedding of [src/smart_expense_ai/expense_model.py] and the
    properties its specification states about it.

    Modelling conventions.
    - A pandas [DataFrame] with the columns [date, category, amount] is a list
      of rows; a cell of the [date] column is null (NaN/NaT), a text or a
      [Timestamp], a cell of [category] is null or a text, a cell of [amount]
      is a Python float.
    - A Python float is an exact rational or NaN ([None]) and the sums of the
      model are exact.  The sums of pandas are those sums on the amounts
      [binary_exact] describes (binary fractions of a bounded size); a
      property of a sum carries that hypothesis, and a quotient is stated to
      within half a hundredth of its rounded value.
    - Python exceptions are values of [exn] carried by the [result] monad.
    - The text conversions of pandas (date parsing, number parsing and
      printing) are the fields of the class [Converters]; every general
      theorem holds for all converters, and [iso_converters] is one concrete
      instance (ISO dates, plain decimals) used to run the code on examples.
      The timestamps of [Converters] carry no UTC offset.
    - The module [Zoned] holds [filter_data] with the UTC offsets of pandas:
      a date text parses to a wall-clock time and an optional offset, a column
      of mixed offsets makes the conversion raise, and a comparison of a
      column and a bound of which only one has an offset raises [TypeError].
      The properties of [filter_data] are stated on it.
    - [DATA_FILE] is an optional [csv]: the header and the records of the
      file, already split in fields.  [read_csv] infers no column types but
      for [amount], and reads records of any length; the properties of the
      store are stated for the files on which pandas does the same:
      [rectangular] files whose date and category columns hold [plain_text]
      or nothing and whose [amount] column holds no truth value.
    - [str_lower] lowers the letters A-Z, which is [str.lower] on the texts
      of [ascii_text].
    - The advice of [predict_next_month] is the variant of the message with
      the figures it prints, formatted as the message formats them. *)

From Stdlib Require Import QArith Qround Qabs Lqa ZArith List String Ascii Lia.
From Stdlib Require Import DecimalString Sorted Permutation OrderedTypeEx.
From stdpp Require Import base option list strings gmap.

Local Open Scope string_scope.
Local Open Scope list_scope.
Local Open Scope Z_scope.

(** ** Python values *)

(** A float: [None] is NaN. *)
Definition float := option Q.

Inductive exn := TypeError | AttributeError | ValueError | ZeroDivisionError.

Inductive result (A : Type) :=
| Ok (a : A)
| Raise (e : exn).
Arguments Ok {A} a.
Arguments Raise {A} e.

#[export] Instance result_ret : MRet result := fun _ a => Ok a.
#[export] Instance result_bind : MBind result := fun _ _ k m =>
  match m with
  | Ok a => k a
  | Raise e => Raise e
  end.

(** The value of a computation that did not raise. *)
Definition result_value {A} (r : result A) : option A :=
  match r with
  | Ok a => Some a
  | Raise _ => None
  end.

(** [x / n] on a float and an int: [ZeroDivisionError] on [n = 0]. *)
Definition py_div (x : Q) (n : nat) : result Q :=
  match n with
  | O => Raise ZeroDivisionError
  | S _ => Ok (x / inject_Z (Z.of_nat n))%Q
  end.

(** Nearest integer, ties to the even one. *)
Definition round_half_even (q : Q) : Z :=
  let f := Qfloor q in
  match ((q - inject_Z f) ?= 1 # 2)%Q with
  | Lt => f
  | Gt => f + 1
  | Eq => if Z.even f then f else f + 1
  end.

(** [round(x, 2)]. *)
Definition round2 (q : Q) : Q :=
  Qred (inject_Z (round_half_even (q * 100)) / 100)%Q.

Definition py_round2 (x : float) : float := round2 <$> x.

(** A float is rounded to 2 decimals when it is a whole number of hundredths. *)
Definition rounded_2dp (q : Q) : Prop := exists n : Z, (q == n # 100)%Q.

(** [bool(s)] of an optional text: [None] and the empty text are falsy. *)
Definition truthy (s : option string) : bool :=
  match s with
  | Some s => negb (String.eqb s "")
  | None => false
  end.

Definition lower_ascii (c : ascii) : ascii :=
  if (Ascii.leb "A" c && Ascii.leb c "Z")%bool
  then ascii_of_nat (nat_of_ascii c + 32)
  else c.

(** [s.lower()]. *)
Fixpoint str_lower (s : string) : string :=
  match s with
  | EmptyString => EmptyString
  | String c s' => String (lower_ascii c) (str_lower s')
  end.

(** ** Timestamps *)

Record Timestamp := { year : Z; month : Z; day : Z; nanos : Z }.

Fixpoint lex_leb (a b : list Z) : bool :=
  match a, b with
  | x :: a', y :: b' => (x <? y) || ((x =? y) && lex_leb a' b')
  | [], _ => true
  | _ :: _, [] => false
  end.

Definition ts_fields (t : Timestamp) : list Z :=
  [year t; month t; day t; nanos t].

(** [a <= b] on timestamps. *)
Definition ts_leb (a b : Timestamp) : bool := lex_leb (ts_fields a) (ts_fields b).

Definition zero_pad (width : nat) (n : Z) : string :=
  let s := NilZero.string_of_uint (N.to_uint (Z.to_N n)) in
  (String.concat "" (repeat "0" (width - String.length s)%nat) ++ s)%string.

(** [t.strftime("%Y-%m-%d")]. *)
Definition strftime (t : Timestamp) : string :=
  (zero_pad 4 (year t) ++ "-" ++ zero_pad 2 (month t) ++ "-" ++ zero_pad 2 (day t))%string.

(** [t.to_period("M")], as the ordinal of the month since 1970-01. *)
Definition to_period_M (t : Timestamp) : Z := (year t - 1970) * 12 + (month t - 1).

(** ** Frames *)

Inductive datecell :=
| DateNull
| DateStr (s : string)
| DateTime (t : Timestamp).

Record Row := { date : datecell; category : option string; amount : float }.

Abbreviation DataFrame := (list Row).

(** [df.empty]. *)
Definition empty (df : DataFrame) : bool :=
  match df with
  | [] => true
  | _ :: _ => false
  end.

(** The text conversions of pandas. *)
Class Converters := {
  (** [pd.to_datetime(text, errors="coerce")] on one text; [None] is NaT. *)
  to_datetime : string -> option Timestamp;
  (** [pd.to_datetime(column, errors="coerce")] on a column. *)
  to_datetime_series : list datecell -> list (option Timestamp);
  (** the numeric conversion of one field; [None] when it does not parse. *)
  to_numeric : string -> option Q;
  (** the text [to_csv] writes for a float. *)
  float_repr : Q -> string;
  (** the empty text is no date. *)
  to_datetime_empty : to_datetime "" = None;
}.

Definition cell_of_ts (t : option Timestamp) : datecell :=
  match t with
  | Some t => DateTime t
  | None => DateNull
  end.

(** [df["date"] = col]: rows are aligned by position, a row without a
    value gets null. *)
Fixpoint setitem_date (df : DataFrame) (col : list datecell) : DataFrame :=
  match df with
  | [] => []
  | r :: df' =>
      {| date := hd DateNull col; category := category r; amount := amount r |}
        :: setitem_date df' (tl col)
  end.

(** [cell >= start] and [cell <= end] against a [Timestamp]: NaT compares
    false, a text cell is a [TypeError]. *)
Definition cell_ge (c : datecell) (start : Timestamp) : result bool :=
  match c with
  | DateNull => Ok false
  | DateTime t => Ok (ts_leb start t)
  | DateStr _ => Raise TypeError
  end.

Definition cell_le (c : datecell) (stop : Timestamp) : result bool :=
  match c with
  | DateNull => Ok false
  | DateTime t => Ok (ts_leb t stop)
  | DateStr _ => Raise TypeError
  end.

(** A column computed cell by cell; the first exception wins. *)
Fixpoint series_map {A B} (f : A -> result B) (l : list A) : result (list B) :=
  match l with
  | [] => Ok []
  | x :: l' => y ← f x; ys ← series_map f l'; Ok (y :: ys)
  end.

(** [df[mask]]: a new frame with the rows where the mask holds. *)
Fixpoint select {A} (df : list A) (mask : list bool) : list A :=
  match df, mask with
  | r :: df', b :: mask' => if b then r :: select df' mask' else select df' mask'
  | _, _ => []
  end.

(** [column.dt.strftime("%Y-%m-%d")]: the [.dt] accessor needs a datetime
    column, NaT becomes null. *)
Definition dt_strftime_cell (c : datecell) : result datecell :=
  match c with
  | DateNull => Ok DateNull
  | DateTime t => Ok (DateStr (strftime t))
  | DateStr _ => Raise AttributeError
  end.

(** [column.dt.to_period("M")]. *)
Definition dt_to_period_cell (c : datecell) : result (option Z) :=
  match c with
  | DateNull => Ok None
  | DateTime t => Ok (Some (to_period_M t))
  | DateStr _ => Raise AttributeError
  end.

(** [column.astype(str)]: a null reads "nan". *)
Definition astype_str (c : option string) : string :=
  match c with
  | Some s => s
  | None => "nan"
  end.

(** ** Series *)

Definition nan_to_zero (x : float) : Q := default 0%Q x.

(** [column.sum()]: NaN is skipped. *)
Fixpoint series_sum (l : list float) : Q :=
  match l with
  | [] => 0%Q
  | x :: l' => (nan_to_zero x + series_sum l')%Q
  end.

(** [column.count()]: the number of non-null cells. *)
Fixpoint series_count (l : list float) : nat :=
  match l with
  | [] => O
  | Some _ :: l' => S (series_count l')
  | None :: l' => series_count l'
  end.

Definition Qmax (a b : Q) : Q := if Qle_bool a b then b else a.

(** [column.max()]: NaN is skipped; NaN when no cell is left. *)
Fixpoint series_max (l : list float) : float :=
  match l with
  | [] => None
  | None :: l' => series_max l'
  | Some a :: l' =>
      match series_max l' with
      | Some b => Some (Qmax a b)
      | None => Some a
      end
  end.

Section GroupBy.
Context {K : Type} (eqb ltb : K -> K -> bool).

(** Adds [v] to the group of [k], keeping the groups ascending by key. *)
Fixpoint group_add (k : K) (v : Q) (acc : list (K * Q)) : list (K * Q) :=
  match acc with
  | [] => [(k, v)]
  | (k', v') :: acc' =>
      if eqb k k' then (k', (v' + v)%Q) :: acc'
      else if ltb k k' then (k, v) :: acc
      else (k', v') :: group_add k v acc'
  end.

(** [groupby(key)[value].sum()]: rows with a null key are left out, NaN
    values are skipped, the groups come ascending by key. *)
Definition groupby_sum (rows : list (option K * float)) : list (K * Q) :=
  fold_left
    (fun acc kv =>
       match fst kv with
       | Some k => group_add k (nan_to_zero (snd kv)) acc
       | None => acc
       end)
    rows [].

Fixpoint insert_index (x : K * Q) (l : list (K * Q)) : list (K * Q) :=
  match l with
  | [] => [x]
  | y :: l' => if ltb (fst y) (fst x) then y :: insert_index x l' else x :: l
  end.

(** [series.sort_index()]. *)
Definition sort_index (l : list (K * Q)) : list (K * Q) :=
  fold_right insert_index [] l.

Fixpoint insert_desc (x : K * Q) (l : list (K * Q)) : list (K * Q) :=
  match l with
  | [] => [x]
  | y :: l' =>
      if Qle_bool (snd y) (snd x) then x :: l else y :: insert_desc x l'
  end.

(** [series.sort_values(ascending=False)], as an insertion sort: equal
    values keep their order, which the library does not promise for long
    series; the properties below hold for any order of equal values. *)
Definition sort_values_desc (l : list (K * Q)) : list (K * Q) :=
  fold_right insert_desc [] l.
End GroupBy.

(** ** [sklearn.linear_model.LinearRegression] on one feature *)

Definition Qsum (l : list Q) : Q := fold_right Qplus 0%Q l.

Definition mean (l : list Q) : Q := (Qsum l / inject_Z (Z.of_nat (length l)))%Q.

Record LinearRegression := { coef_ : Q; intercept_ : Q }.

(** [model.fit(X, y)]: the data are centred, the coefficient solves the
    least-squares problem of the centred data (0 when the feature is
    constant), the intercept restores the offsets. *)
Definition fit (X y : list Q) : LinearRegression :=
  let X_offset := mean X in
  let y_offset := mean y in
  let Xc := map (fun x => x - X_offset)%Q X in
  let yc := map (fun v => v - y_offset)%Q y in
  let coef := (Qsum (zip_with Qmult Xc yc) / Qsum (map (fun x => x * x) Xc))%Q in
  {| coef_ := coef; intercept_ := (y_offset - X_offset * coef)%Q |}.

(** [model.predict([[x]])[0]]. *)
Definition predict (model : LinearRegression) (x : Q) : Q :=
  (x * coef_ model + intercept_ model)%Q.

(** ** The durable store *)

(** The file as its reader sees it: the fields of the header line and of
    every record, unquoted.  A blank line of the file is no record. *)
Record csv := { header : list string; records : list (list string) }.

Definition expected_cols : list string := ["date"; "category"; "amount"].

(** The fields [read_csv] reads as missing. *)
Definition na_values : list string :=
  [""; "#N/A"; "#N/A N/A"; "#NA"; "-1.#IND"; "-1.#QNAN"; "-NaN"; "-nan";
   "1.#IND"; "1.#QNAN"; "<NA>"; "N/A"; "NA"; "NULL"; "NaN"; "None"; "n/a";
   "nan"; "null"].

Definition read_cell (t : string) : option string :=
  if existsb (String.eqb t) na_values then None else Some t.

(** A frame as [read_csv] returns it: named columns of cells. *)
Record RawFrame := { nrows : nat; columns : list (string * list (option string)) }.

(** The cells of the fields at position [j] of the records; a record too
    short has a missing field there. *)
Definition column_cells (f : csv) (j : nat) : list (option string) :=
  map (fun rec => read_cell (nth j rec "")) (records f).

(** [pd.read_csv(DATA_FILE)]. *)
Definition read_csv (f : csv) : RawFrame :=
  {| nrows := length (records f);
     columns := imap (fun i name => (name, column_cells f i)) (header f) |}.

(** [col in df.columns]. *)
Definition has_column (col : string) (df : RawFrame) : bool :=
  existsb (fun c => String.eqb (fst c) col) (columns df).

(** [df[col] = None]. *)
Definition setitem_none (col : string) (df : RawFrame) : RawFrame :=
  {| nrows := nrows df; columns := columns df ++ [(col, repeat None (nrows df))] |}.

(** The body of the loop over the expected columns. *)
Definition ensure_column (df : RawFrame) (col : string) : RawFrame :=
  if has_column col df then df else setitem_none col df.

(** [df[col]]. *)
Definition getitem (col : string) (df : RawFrame) : list (option string) :=
  match find (fun c => String.eqb (fst c) col) (columns df) with
  | Some c => snd c
  | None => []
  end.

Definition datecell_of_text (c : option string) : datecell :=
  match c with
  | Some s => DateStr s
  | None => DateNull
  end.

(** The frame of the three expected columns. *)
Fixpoint frame_of_columns (d c : list (option string)) (a : list float) : DataFrame :=
  match d, c, a with
  | x :: d', y :: c', z :: a' =>
      {| date := datecell_of_text x; category := y; amount := z |}
        :: frame_of_columns d' c' a'
  | _, _, _ => []
  end.

(** ** The functions of [expense_model.py] *)

Record Summary := {
  total : float;
  average : float;
  max : float;
  count : nat;
  by_category : list (string * float);
}.

(** [f"{x:.2f}"] and [f"{x:.0f}"]: the number of two decimals, and the
    whole number, nearest to [x], ties to the even one. *)
Definition format_2f (x : Q) : Q := round2 x.

Definition format_0f (x : Q) : Z := round_half_even x.

(** The advice text, by its case and the figures it prints: the prediction
    with two decimals, the safe limit with none. *)
Inductive Advice :=
| NotEnoughData
| NaiveForecast (shown : Q)
| FlatOrDeclining
| Estimate (shown : Q) (safe_limit : Z).

(** The key and the value of each row for [df.groupby("category")["amount"]]. *)
Definition category_rows (df : DataFrame) : list (option string * float) :=
  map (fun r => (category r, amount r)) df.

(** [df["category"].astype(str)], row by row. *)
Definition category_text (r : Row) : string := astype_str (category r).

Section Model.
Context `{Converters}.

(** [to_csv]: the header and one record per row, null written empty. *)
Definition to_csv (df : DataFrame) : csv :=
  {| header := expected_cols;
     records :=
       map (fun r =>
              [ match date r with
                | DateNull => ""
                | DateStr s => s
                | DateTime t => strftime t
                end;
                default "" (category r);
                from_option float_repr "" (amount r) ])
           df |}.

(** [_init_file]: writes the header of the three columns and returns the
    frame without rows. *)
Definition _init_file : RawFrame * option csv :=
  ({| nrows := 0; columns := map (fun col => (col, [])) expected_cols |},
   Some {| header := expected_cols; records := [] |}).

(** [load_data], on the state of [DATA_FILE]. *)
Definition load_data (fs : option csv) : DataFrame * option csv :=
  let '(df, fs) :=
    match fs with
    | None => _init_file
    | Some f => (read_csv f, Some f)
    end in
  let df := fold_left ensure_column expected_cols df in
  let amount :=
    map (fun c => Some (nan_to_zero (c ≫= to_numeric))) (getitem "amount" df) in
  (frame_of_columns (getitem "date" df) (getitem "category" df) amount, fs).

(** [save_data]. *)
Definition save_data (df : DataFrame) (fs : option csv) : option csv :=
  Some (to_csv df).

(** [add_expense]. *)
Definition add_expense (d c : string) (a : float) (fs : option csv)
  : DataFrame * option csv :=
  let '(df, fs) := load_data fs in
  let new_row := {| date := DateStr d; category := Some c; amount := a |} in
  let df := df ++ [new_row] in
  let fs := save_data df fs in
  (df, fs).

(** [df["date"] = pd.to_datetime(df["date"], errors="coerce")]. *)
Definition parse_dates (df : DataFrame) : DataFrame :=
  setitem_date df (map cell_of_ts (to_datetime_series (map date df))).

(** The rows whose date passes the comparison [cmp] with a bound. *)
Definition select_date (cmp : datecell -> Timestamp -> result bool)
           (df : DataFrame) (bound : Timestamp) : result DataFrame :=
  mask ← series_map (fun r => cmp (date r) bound) df;
  Ok (select df mask).

(** [filter_data] on a given frame. *)
Definition filter_data (df : DataFrame) (start_date end_date category : option string)
  : result DataFrame :=
  if empty df then Ok df
  else
    let df := parse_dates df in
    df ← (if truthy start_date then
            match to_datetime (default "" start_date) with
            | Some start => select_date cell_ge df start
            | None => Ok df
            end
          else Ok df);
    df ← (if truthy end_date then
            match to_datetime (default "" end_date) with
            | Some stop => select_date cell_le df stop
            | None => Ok df
            end
          else Ok df);
    let df :=
      if truthy category && negb (String.eqb (default "" category) "All") then
        select df
               (map (fun r => String.eqb (str_lower (category_text r))
                                         (str_lower (default "" category)))
                    df)
      else df in
    col ← series_map dt_strftime_cell (map date df);
    Ok (setitem_date df col).

(** [compute_summary] on a given frame. *)
Definition compute_summary (df : DataFrame) : result Summary :=
  if empty df then
    Ok {| total := Some 0%Q; average := Some 0%Q; max := Some 0%Q;
          count := 0; by_category := [] |}
  else
    let total := series_sum (map amount df) in
    let count := series_count (map amount df) in
    average ← (if Nat.eqb count 0 then Ok 0%Q else py_div total count);
    let max_val := if Nat.eqb count 0 then Some 0%Q else series_max (map amount df) in
    let by_cat_series :=
      sort_values_desc (groupby_sum String.eqb String.ltb (category_rows df)) in
    let by_category := map (fun kv => (fst kv, Some (snd kv))) by_cat_series in
    Ok {| total := py_round2 (Some total);
          average := py_round2 (Some average);
          max := py_round2 max_val;
          count := count;
          by_category := by_category |}.

(** [_monthly_totals]: the totals by month, ascending by month. *)
Definition _monthly_totals (df : DataFrame) : result (list (Z * Q)) :=
  if empty df then Ok []
  else
    let d := parse_dates df in
    let d := List.filter (fun r => match date r with DateNull => false | _ => true end) d in
    if empty d then Ok []
    else
      month ← series_map dt_to_period_cell (map date d);
      Ok (sort_index Z.ltb (groupby_sum Z.eqb Z.ltb (combine month (map amount d)))).

(** The body of [predict_next_month] once the monthly totals are known. *)
Definition forecast (monthly : list (Z * Q)) : option Q * Advice :=
  match monthly with
  | [] => (None, NotEnoughData)
  | [m] =>
      let pred := snd m in
      (Some (round2 pred), NaiveForecast (format_2f pred))
  | _ =>
      let n := length monthly in
      let X := map (fun i => inject_Z (Z.of_nat i)) (seq 0 n) in
      let y := map snd monthly in
      let model := fit X y in
      let pred := predict model (inject_Z (Z.of_nat n)) in
      let pred := round2 pred in
      let safe_limit := ((9 # 10) * pred)%Q in
      if Qle_bool pred 0 then (Some pred, FlatOrDeclining)
      else (Some pred, Estimate (format_2f pred) (format_0f safe_limit))
  end.

(** [predict_next_month] on a given frame. *)
Definition predict_next_month (df : DataFrame) : result (option Q * Advice) :=
  monthly ← _monthly_totals df;
  Ok (forecast monthly).

(** The calls with [df] omitted: the frame is loaded from the store first. *)
Definition filter_data_default (start_date end_date category : option string)
           (fs : option csv) : result DataFrame * option csv :=
  let '(df, fs) := load_data fs in (filter_data df start_date end_date category, fs).

Definition compute_summary_default (fs : option csv) : result Summary * option csv :=
  let '(df, fs) := load_data fs in (compute_summary df, fs).

Definition predict_next_month_default (fs : option csv)
  : result (option Q * Advice) * option csv :=
  let '(df, fs) := load_data fs in (predict_next_month df, fs).
End Model.

(** ** Concrete converters: ISO dates and plain decimals *)

Definition digit (c : ascii) : option Z :=
  let n := nat_of_ascii c in
  if ((48 <=? n)%nat && (n <=? 57)%nat)%bool then Some (Z.of_nat (n - 48)) else None.

Fixpoint digits_val (acc : Z) (s : string) : option Z :=
  match s with
  | EmptyString => Some acc
  | String c s' => d ← digit c; digits_val (10 * acc + d) s'
  end.

(** A non-empty run of decimal digits. *)
Definition parse_digits (s : string) : option Z :=
  if String.eqb s "" then None else digits_val 0 s.

Definition is_leap (y : Z) : bool :=
  ((y mod 4 =? 0) && (negb (y mod 100 =? 0) || (y mod 400 =? 0)))%bool.

Definition days_in_month (y m : Z) : Z :=
  if m =? 2 then (if is_leap y then 29 else 28)
  else if ((m =? 4) || (m =? 6) || (m =? 9) || (m =? 11))%bool then 30
  else 31.

(** [YYYY-MM-DD], a date of the calendar, at midnight. *)
Definition parse_iso_date (s : string) : option Timestamp :=
  if ((String.length s =? 10)%nat
      && String.eqb (substring 4 1 s) "-" && String.eqb (substring 7 1 s) "-")%bool
  then
    y ← parse_digits (substring 0 4 s);
    m ← parse_digits (substring 5 2 s);
    d ← parse_digits (substring 8 2 s);
    if ((1 <=? m) && (m <=? 12) && (1 <=? d) && (d <=? days_in_month y m))%bool
    then Some {| year := y; month := m; day := d; nanos := 0 |}
    else None
  else None.

Definition parse_iso_cell (c : datecell) : option Timestamp :=
  match c with
  | DateNull => None
  | DateStr s => parse_iso_date s
  | DateTime t => Some t
  end.

(** An optional minus sign, digits, and optionally a point and digits. *)
Definition parse_decimal (s : string) : option Q :=
  let '(neg, body) :=
    match s with
    | String "-"%char s' => (true, s')
    | _ => (false, s)
    end in
  v ← match index 0 "." body with
       | Some i =>
           let frac := substring (S i) (String.length body - S i) body in
           ip ← parse_digits (substring 0 i body);
           fp ← parse_digits frac;
           let scale := 10 ^ Z.of_nat (String.length frac) in
           Some (Qred (Qmake (ip * scale + fp) (Z.to_pos scale)))
       | None => ip ← parse_digits body; Some (inject_Z ip)
       end;
  Some (if neg : bool then Qred (- v) else v)%Q.

Fixpoint frac_digits (fuel : nat) (rem den : Z) : string :=
  match fuel with
  | O => ""
  | S fuel' =>
      if rem =? 0 then ""
      else (NilZero.string_of_uint (N.to_uint (Z.to_N (rem * 10 / den)))
              ++ frac_digits fuel' (rem * 10 mod den) den)%string
  end.

(** Positional notation with at least one and at most 17 decimals. *)
Definition decimal_repr (q : Q) : string :=
  let n := Z.abs (Qnum q) in
  let d := Z.pos (Qden q) in
  let frac := frac_digits 17 (n mod d) d in
  ((if (Qnum q <? 0)%Z then "-" else "")
     ++ NilZero.string_of_uint (N.to_uint (Z.to_N (n / d)))
     ++ "." ++ (if String.eqb frac "" then "0" else frac))%string.

#[export] Instance iso_converters : Converters := {
  to_datetime := parse_iso_date;
  to_datetime_series := map parse_iso_cell;
  to_numeric := parse_decimal;
  float_repr := decimal_repr;
  to_datetime_empty := eq_refl;
}.

Definition row (d c : string) (a : Q) : Row :=
  {| date := DateStr d; category := Some c; amount := Some a |}.

(** ** Frames as shared mutable objects

    The same functions over a store of frame objects: a call receives a
    reference, [copy] and row selection allocate a new object, and an
    assignment to a column changes the object in place. *)

Module Heap.
Abbreviation loc := nat.

(** A frame object: its rows, and the column [month] once assigned. *)
Record Object := { rows : DataFrame; month_col : option (list (option Z)) }.

Definition frame (df : DataFrame) : Object := {| rows := df; month_col := None |}.

Abbreviation heap := (gmap nat Object).

(** A computation on the store; [None] when a reference has no object.
    The store survives an exception. *)
Definition M (A : Type) : Type := heap -> option (result A * heap).

Definition ret {A} (a : A) : M A := fun h => Some (Ok a, h).

Definition bind {A B} (m : M A) (k : A -> M B) : M B := fun h =>
  match m h with
  | Some (Ok a, h') => k a h'
  | Some (Raise e, h') => Some (Raise e, h')
  | None => None
  end.

Definition lift {A} (r : result A) : M A := fun h => Some (r, h).

Definition get (l : loc) : M Object := fun h =>
  match h !! l with
  | Some o => Some (Ok o, h)
  | None => None
  end.

Definition alloc (o : Object) : M loc := fun h =>
  let l := fresh (dom h) in Some (Ok l, <[l := o]> h).

Definition put (l : loc) (o : Object) : M unit := fun h =>
  match h !! l with
  | Some _ => Some (Ok tt, <[l := o]> h)
  | None => None
  end.

Notation "x <- m ;; k" := (bind m (fun x => k))
  (at level 100, m at next level, right associativity, only parsing).

Section WithConverters.
Context `{Converters}.

(** [df.copy()]. *)
Definition copy (df : loc) : M loc :=
  o <- get df ;; alloc o.

(** [df["date"] = f(df["date"])]. *)
Definition assign_date (df : loc) (f : list datecell -> result (list datecell)) : M unit :=
  o <- get df ;;
  col <- lift (f (map date (rows o))) ;;
  put df {| rows := setitem_date (rows o) col; month_col := month_col o |}.

(** [df[mask(df)]]. *)
Definition getitem_mask (df : loc) (mask : DataFrame -> result (list bool)) : M loc :=
  o <- get df ;;
  m <- lift (mask (rows o)) ;;
  alloc {| rows := select (rows o) m;
           month_col := (fun col => select col m) <$> month_col o |}.

Definition filter_data (df : loc) (start_date end_date category : option string) : M loc :=
  o <- get df ;;
  if empty (rows o) then ret df
  else
    df <- copy df ;;
    _ <- assign_date df (fun col => Ok (map cell_of_ts (to_datetime_series col))) ;;
    df <- (if truthy start_date then
             match to_datetime (default "" start_date) with
             | Some start =>
                 getitem_mask df (series_map (fun r => cell_ge (date r) start))
             | None => ret df
             end
           else ret df) ;;
    df <- (if truthy end_date then
             match to_datetime (default "" end_date) with
             | Some stop =>
                 getitem_mask df (series_map (fun r => cell_le (date r) stop))
             | None => ret df
             end
           else ret df) ;;
    df <- (if truthy category && negb (String.eqb (default "" category) "All") then
             getitem_mask df
               (fun rs => Ok (map (fun r => String.eqb (str_lower (category_text r))
                                                       (str_lower (default "" category)))
                                  rs))
           else ret df) ;;
    _ <- assign_date df (series_map dt_strftime_cell) ;;
    ret df.

Definition compute_summary (df : loc) : M Summary :=
  o <- get df ;;
  lift (compute_summary (rows o)).

Definition _monthly_totals (df : loc) : M (list (Z * Q)) :=
  o <- get df ;;
  if empty (rows o) then ret []
  else
    d <- copy df ;;
    _ <- assign_date d (fun col => Ok (map cell_of_ts (to_datetime_series col))) ;;
    d <- getitem_mask d
           (fun rs => Ok (map (fun r => match date r with DateNull => false | _ => true end) rs)) ;;
    o <- get d ;;
    if empty (rows o) then ret []
    else
      month <- lift (series_map dt_to_period_cell (map date (rows o))) ;;
      _ <- put d {| rows := rows o; month_col := Some month |} ;;
      o <- get d ;;
      ret (sort_index Z.ltb
             (groupby_sum Z.eqb Z.ltb
                (combine (default [] (month_col o)) (map amount (rows o))))).

Definition predict_next_month (df : loc) : M (option Q * Advice) :=
  monthly <- _monthly_totals df ;;
  ret (forecast monthly).
End WithConverters.
End Heap.

(** ** The specification's reading of the operations *)

Definition is_text (c : datecell) : bool :=
  match c with
  | DateStr _ => true
  | _ => false
  end.

(** A date cell in its display form: [YYYY-MM-DD], or null without a date. *)
Definition display_date (c : datecell) : datecell :=
  match c with
  | DateTime t => DateStr (strftime t)
  | _ => DateNull
  end.

Definition format_date (r : Row) : Row :=
  {| date := display_date (date r); category := category r; amount := amount r |}.

(** The date of a row lies on the right side of a bound; without a bound
    every row does. *)
Definition on_or_after (start : option Timestamp) (r : Row) : bool :=
  match start, date r with
  | None, _ => true
  | Some lo, DateTime t => ts_leb lo t
  | Some _, _ => false
  end.

Definition on_or_before (stop : option Timestamp) (r : Row) : bool :=
  match stop, date r with
  | None, _ => true
  | Some hi, DateTime t => ts_leb t hi
  | Some _, _ => false
  end.

(** The category restriction of a request: none when the category is
    omitted, empty or the sentinel. *)
Definition category_matches (c : option string) (r : Row) : bool :=
  match c with
  | None => true
  | Some c =>
      if (String.eqb c "" || String.eqb c "All")%bool then true
      else String.eqb (str_lower (category_text r)) (str_lower c)
  end.

(** The bound a text stands for: none when it is omitted, empty or no date. *)
Definition bound_of `{Converters} (s : option string) : option Timestamp :=
  match s with
  | Some s => if String.eqb s "" then None else to_datetime s
  | None => None
  end.

Definition selected `{Converters} (start_date end_date category : option string) (r : Row) : bool :=
  (on_or_after (bound_of start_date) r
   && on_or_before (bound_of end_date) r
   && category_matches category r)%bool.

(** Sum of squared errors of the line [a + b * i] on the points [(i, y_i)]. *)
Definition sse (a b : Q) (pts : list (Q * Q)) : Q :=
  Qsum (map (fun p => (snd p - (a + b * fst p)) * (snd p - (a + b * fst p)))%Q pts).

(** The points [(i, total_i)] of a sequence of monthly totals. *)
Definition month_points (monthly : list (Z * Q)) : list (Q * Q) :=
  combine (map (fun i => inject_Z (Z.of_nat i)) (seq 0 (length monthly))) (map snd monthly).

(** [a + b * i] is an ordinary-least-squares line of the points. *)
Definition ols_line (a b : Q) (pts : list (Q * Q)) : Prop :=
  forall a' b' : Q, (sse a b pts <= sse a' b' pts)%Q.

(** The sum of the amounts of a category. *)
Definition category_total (c : string) (df : DataFrame) : Q :=
  series_sum (map amount (List.filter (fun r => bool_decide (category r = Some c)) df)).

(** The category restriction as the specification words it: none when the
    category is omitted or the sentinel, else equality up to case. *)
Definition category_matches_as_specified (c : option string) (r : Row) : bool :=
  match c with
  | None => true
  | Some c =>
      if String.eqb c "All" then true
      else String.eqb (str_lower (category_text r)) (str_lower c)
  end.

(** The rows whose category is the given text up to case. *)
Definition same_category (c : string) (r : Row) : bool :=
  String.eqb (str_lower (category_text r)) (str_lower c).

(** The position of the first column of a header with a given name. *)
Fixpoint index_of (col : string) (names : list string) : option nat :=
  match names with
  | [] => None
  | name :: names' => if String.eqb name col then Some O else S <$> index_of col names'
  end.

(** The cell a record of the file holds for a column: null when the file
    has no such column, the record is too short, or the field reads as
    missing. *)
Definition field_of (f : csv) (col : string) (rec : list string) : option string :=
  j ← index_of col (header f); read_cell (nth j rec "").

(** The row [load_data] makes of a record of the file. *)
Definition row_of_record `{Converters} (f : csv) (rec : list string) : Row :=
  {| date := datecell_of_text (field_of f "date" rec);
     category := field_of f "category" rec;
     amount := Some (nan_to_zero (field_of f "amount" rec ≫= to_numeric)) |}.

Section Groups.
Context {K : Type} (eqb ltb : K -> K -> bool).

(** The total of the group of a key, if the key has a group. *)
Fixpoint lookup_group (k : K) (l : list (K * Q)) : option Q :=
  match l with
  | [] => None
  | (k', v) :: l' => if eqb k k' then Some v else lookup_group k l'
  end.

(** The sum of the values of the rows with a given key, NaN as 0. *)
Fixpoint key_total (k : K) (rows : list (option K * float)) : Q :=
  match rows with
  | [] => 0%Q
  | (Some k', x) :: rows' =>
      if eqb k' k then (nan_to_zero x + key_total k rows')%Q else key_total k rows'
  | (None, _) :: rows' => key_total k rows'
  end.

Definition has_key (k : K) (rows : list (option K * float)) : Prop :=
  exists x, In (Some k, x) rows.

Definition ascending_keys (l : list (K * Q)) : Prop :=
  StronglySorted (fun x y => ltb (fst x) (fst y) = true) l.
End Groups.

Definition descending_values {K} (l : list (K * Q)) : Prop :=
  StronglySorted (fun x y => (snd y <= snd x)%Q) l.

(** The month and the amount of each dated row of a frame. *)
Definition month_rows `{Converters} (df : DataFrame) : list (option Z * float) :=
  map (fun r => (match date r with
                 | DateTime t => Some (to_period_M t)
                 | _ => None
                 end, amount r))
      (List.filter (fun r => match date r with DateNull => false | _ => true end)
                   (parse_dates df)).

(** The working frame of a call: a fresh object [l] holding the rows [rs],
    next to the untouched objects of the caller's store [h0]. *)
Definition working (h0 h : gmap nat Heap.Object) (l : nat)
           (rs : DataFrame) (mc : option (list (option Z))) : Prop :=
  h0 ⊆ h /\ h0 !! l = None /\ h !! l = Some {| Heap.rows := rs; Heap.month_col := mc |}.

(** A text cell that [read_csv] reads back as it is written. *)
Definition reads_back (c : option string) : Prop :=
  match c with
  | Some s => read_cell s = Some s
  | None => True
  end.

(** A row whose texts are read back as written, and whose amount, if a
    number, is written as a text that parses to it. *)
Definition round_trips `{Converters} (r : Row) : Prop :=
  match date r with
  | DateNull => True
  | DateStr s => read_cell s = Some s
  | DateTime _ => False
  end
  /\ reads_back (category r)
  /\ match amount r with
     | Some q => read_cell (float_repr q) ≫= to_numeric = Some q
     | None => True
     end.

(** A row as [load_data] returns it: a NaN amount is 0.0. *)
Definition coerced (r : Row) : Row :=
  {| date := date r; category := category r; amount := Some (nan_to_zero (amount r)) |}.

(** The rows of a frame that have a date, once the dates are parsed. *)
Definition dated_rows `{Converters} (df : DataFrame) : DataFrame :=
  List.filter (fun r => match date r with DateNull => false | _ => true end)
              (parse_dates df).

(** The rows of a frame that have a category. *)
Definition categorised_rows (df : DataFrame) : DataFrame :=
  List.filter (fun r => match category r with Some _ => true | None => false end) df.

(** The sum of the amounts of the dated rows of a month. *)
Definition month_total `{Converters} (p : Z) (df : DataFrame) : Q :=
  series_sum
    (map amount
         (List.filter (fun r => match date r with
                                | DateTime t => to_period_M t =? p
                                | _ => false
                                end)
                      (parse_dates df))).

(** Two groups with the same key and equal totals. *)
Definition same_group {K} (x y : K * Q) : Prop := fst x = fst y /\ (snd x == snd y)%Q.

(** ** Dates with a UTC offset

    The functions above read every timestamp as a wall-clock time.  pandas
    also keeps the UTC offset of a text that carries one: the timestamps of
    a column have one offset or none, and comparing timestamps with an
    offset to timestamps without one raises [TypeError].  [filter_data] is
    given here with the offsets and with both readings of a null category;
    what it returns and when it raises is stated on it. *)

Module Zoned.

(** The date conversions of pandas, with the UTC offsets. *)
Class Zones := {
  (** [pd.to_datetime(text, errors="coerce")]: the wall-clock time and the
      UTC offset in minutes, if the text carries one; [None] is NaT. *)
  stamp : string -> option (Timestamp * option Z);
  (** [pd.to_datetime(column, errors="coerce")]: the offset of the column
      and its wall-clock times.  Texts of different offsets make the
      conversion raise, or give a column that is no datetime column and on
      which the next date operation raises. *)
  stamps : list datecell -> result (option Z * list (option Timestamp));
  (** the wall-clock time of UTC at a wall-clock time of an offset. *)
  to_utc : Z -> Timestamp -> Timestamp;
  (** whether [astype(str)] makes the text "nan" of a null category: it
      does on a column of objects, a string column keeps the null. *)
  null_as_text : bool;
  (** the empty text is no date. *)
  stamp_empty : stamp "" = None;
}.

Section WithZones.
Context `{Zones}.

Definition cell_to_utc (offset : Z) (c : datecell) : datecell :=
  match c with
  | DateTime t => DateTime (to_utc offset t)
  | _ => c
  end.

(** [column >= bound] or [column <= bound], cell by cell: the column and
    the bound need an offset both or neither, and with offsets the times of
    UTC are compared. *)
Definition compare_dates (cmp : datecell -> Timestamp -> result bool)
           (zone : option Z) (df : DataFrame) (bound : Timestamp * option Z)
  : result (list bool) :=
  match zone, snd bound with
  | None, None => series_map (fun r => cmp (date r) (fst bound)) df
  | Some zc, Some zb =>
      series_map (fun r => cmp (cell_to_utc zc (date r)) (to_utc zb (fst bound))) df
  | _, _ => Raise TypeError
  end.

(** [df["category"].astype(str).str.lower() == c.lower()], row by row. *)
Definition category_is (c : string) (r : Row) : bool :=
  match category r with
  | Some t => String.eqb (str_lower t) (str_lower c)
  | None => null_as_text && String.eqb "nan" (str_lower c)
  end.

(** [filter_data] on a given frame. *)
Definition filter_data (df : DataFrame) (start_date end_date category : option string)
  : result DataFrame :=
  if empty df then Ok df
  else
    '(zone, col) ← stamps (map date df);
    let df := setitem_date df (map cell_of_ts col) in
    df ← (if truthy start_date then
            match stamp (default "" start_date) with
            | Some start =>
                mask ← compare_dates cell_ge zone df start; Ok (select df mask)
            | None => Ok df
            end
          else Ok df);
    df ← (if truthy end_date then
            match stamp (default "" end_date) with
            | Some stop =>
                mask ← compare_dates cell_le zone df stop; Ok (select df mask)
            | None => Ok df
            end
          else Ok df);
    let df :=
      if truthy category && negb (String.eqb (default "" category) "All") then
        select df (map (category_is (default "" category)) df)
      else df in
    col ← series_map dt_strftime_cell (map date df);
    Ok (setitem_date df col).

(** The bound a text stands for: none when it is omitted, empty or no date. *)
Definition bound_of (s : option string) : option Timestamp :=
  match s with
  | Some t => if String.eqb t "" then None else fst <$> stamp t
  | None => None
  end.

(** The UTC offset of the bound a text stands for, if it has one. *)
Definition bound_offset (s : option string) : option Z :=
  match s with
  | Some t => if String.eqb t "" then None else stamp t ≫= snd
  | None => None
  end.

(** The category restriction of a request: none when the category is
    omitted, empty or the sentinel. *)
Definition category_restriction (c : option string) (r : Row) : bool :=
  match c with
  | None => true
  | Some c => if (String.eqb c "" || String.eqb c "All")%bool then true else category_is c r
  end.

Definition selected (start_date end_date category : option string) (r : Row) : bool :=
  (on_or_after (bound_of start_date) r
   && on_or_before (bound_of end_date) r
   && category_restriction category r)%bool.
End WithZones.
End Zoned.

(** ** Concrete dates with an offset: ISO dates, and midnight UTC *)

Definition utc_suffix : string := "T00:00:00Z".

(** [YYYY-MM-DD] without an offset, [YYYY-MM-DDT00:00:00Z] with the offset 0. *)
Definition parse_iso_stamp (s : string) : option (Timestamp * option Z) :=
  if String.eqb (substring 10 (String.length s - 10) s) utc_suffix
  then (fun t => (t, Some 0)) <$> parse_iso_date (substring 0 10 s)
  else (fun t => (t, None)) <$> parse_iso_date s.

Definition parse_stamp_cell (c : datecell) : option (Timestamp * option Z) :=
  match c with
  | DateNull => None
  | DateStr s => parse_iso_stamp s
  | DateTime t => Some (t, None)
  end.

(** The offsets of the cells that are dates. *)
Definition cell_offsets (col : list datecell) : list (option Z) :=
  omap (fun c => snd <$> parse_stamp_cell c) col.

(** A column of one offset, or of none; other columns are refused. *)
Definition parse_stamp_column (col : list datecell)
  : result (option Z * list (option Timestamp)) :=
  let times := map (fun c => fst <$> parse_stamp_cell c) col in
  if forallb (fun z => match z with None => true | Some _ => false end) (cell_offsets col)
  then Ok (None, times)
  else if forallb (fun z => match z with Some _ => true | None => false end) (cell_offsets col)
       then Ok (Some 0, times)
       else Raise ValueError.

(** The only offset read is 0, where the wall-clock time is the time of UTC. *)
#[export] Instance iso_zones : Zoned.Zones := {
  Zoned.stamp := parse_iso_stamp;
  Zoned.stamps := parse_stamp_column;
  Zoned.to_utc := fun _ t => t;
  Zoned.null_as_text := true;
  Zoned.stamp_empty := eq_refl;
}.

Definition without_offset (t : option Timestamp) : option (Timestamp * option Z) :=
  match t with
  | Some t => Some (t, None)
  | None => None
  end.

(** The conversions of [Converters] as conversions with offsets: no text
    carries one. *)
Definition offset_free `{Converters} : Zoned.Zones := {|
  Zoned.stamp := fun s => without_offset (to_datetime s);
  Zoned.stamps := fun col => Ok (@None Z, to_datetime_series col);
  Zoned.to_utc := fun _ t => t;
  Zoned.null_as_text := true;
  Zoned.stamp_empty := f_equal without_offset to_datetime_empty;
|}.

(** A date of the calendar of the years 0 to 9999. *)
Definition valid_date (t : Timestamp) : Prop :=
  0 <= year t <= 9999 /\ 1 <= month t <= 12 /\ 1 <= day t <= days_in_month (year t) (month t).

(** The years all of whose days a nanosecond timestamp of pandas holds. *)
Definition nanosecond_years (t : Timestamp) : Prop := 1678 <= year t <= 2261.

(** The day of a timestamp, at midnight. *)
Definition midnight (t : Timestamp) : Timestamp :=
  {| year := year t; month := month t; day := day t; nanos := 0 |}.

(** A text of ASCII characters: [str_lower] is [str.lower] on it. *)
Definition ascii_text (t : string) : bool :=
  forallb (fun ch => (nat_of_ascii ch <? 128)%nat) (list_ascii_of_string t).

(** The category restriction of a request on texts of ASCII characters: the
    category of the row is a text equal to the requested one up to case,
    unless the request is omitted, empty or the sentinel. *)
Definition category_equals (c : option string) (r : Row) : bool :=
  match c with
  | None => true
  | Some c =>
      if (String.eqb c "" || String.eqb c "All")%bool then true
      else match category r with
           | Some t => String.eqb (str_lower t) (str_lower c)
           | None => false
           end
  end.

(** ** The stores and the amounts the conventions are exact on *)

(** The texts [read_csv] reads as truth values. *)
Definition truth_words : list string :=
  ["True"; "TRUE"; "true"; "False"; "FALSE"; "false"].

Definition printable (t : string) : bool :=
  forallb (fun ch => ((32 <=? nat_of_ascii ch)%nat && (nat_of_ascii ch <=? 126)%nat)%bool)
          (list_ascii_of_string t).

(** A letter no number is written with: a letter that is not the [e] of
    an exponent and not of [inf], [infinity] or [nan]. *)
Definition word_letter (ch : ascii) : bool :=
  let n := nat_of_ascii ch in
  (((65 <=? n)%nat && (n <=? 90)%nat) || ((97 <=? n)%nat && (n <=? 122)%nat))
  && negb (existsb (Ascii.eqb ch) (list_ascii_of_string "eEiInNfFtTyYaA")).

(** A sign right after a digit, as in [2024-01-15]: a number has its signs
    at its start and after the [e] of its exponent only. *)
Fixpoint sign_after_digit (s : string) : bool :=
  match s with
  | String a (String b _ as rest) =>
      (((48 <=? nat_of_ascii a)%nat && (nat_of_ascii a <=? 57)%nat)
       && (Ascii.eqb b "-" || Ascii.eqb b "+"))
      || sign_after_digit rest
  | _ => false
  end.

(** A text that is a number in no notation. *)
Definition never_numeric (t : string) : bool :=
  existsb word_letter (list_ascii_of_string t) || sign_after_digit t.

(** A text that [read_csv] returns as it is written, whatever else its
    column holds: printable ASCII, and neither a missing-value token, a
    number nor a truth value. *)
Definition plain_text `{Converters} (t : string) : Prop :=
  printable t = true /\ never_numeric t = true
  /\ read_cell t = Some t /\ to_numeric t = None /\ ~ In t truth_words.

(** The field a record of the file holds for a column, as written; empty
    when the file has no such column. *)
Definition raw_field (f : csv) (col : string) (rec : list string) : string :=
  match index_of col (header f) with
  | Some j => nth j rec ""
  | None => ""
  end.

(** A file with a header, whose records have one field for each column of
    the header: the files [read_csv] reads without an error, record for
    record. *)
Definition rectangular (f : csv) : Prop :=
  header f <> [] /\ Forall (fun rec => length rec = length (header f)) (records f).

(** A file whose amounts are no truth values: the column is read as numbers
    or as texts, field by field. *)
Definition numeric_amounts (f : csv) : Prop :=
  Forall (fun rec => ~ In (raw_field f "amount" rec) truth_words) (records f).

(** A file whose dates and categories are missing or plain texts: the two
    columns are read as texts, field by field. *)
Definition plain_columns `{Converters} (f : csv) : Prop :=
  Forall (fun rec =>
            (read_cell (raw_field f "date" rec) = None \/ plain_text (raw_field f "date" rec))
            /\ (read_cell (raw_field f "category" rec) = None
                \/ plain_text (raw_field f "category" rec)))
         (records f).

(** A row that [to_csv] writes and [read_csv] reads back as it is: plain
    texts or nulls, and an amount written as a text that parses to it. *)
Definition survives_csv `{Converters} (r : Row) : Prop :=
  match date r with
  | DateNull => True
  | DateStr s => plain_text s
  | DateTime _ => False
  end
  /\ match category r with
     | Some s => plain_text s
     | None => True
     end
  /\ match amount r with
     | Some q => read_cell (float_repr q) ≫= to_numeric = Some q
     | None => True
     end.

(** Amounts that binary floating point adds without rounding, in any order
    and grouping: multiples of [2^-k] whose absolute values add up to at
    most [2^44] such multiples.  On them the exact sums of this model are
    the sums of the floats. *)
Definition binary_exact (k : nat) (l : list float) : Prop :=
  Forall (fun x => forall q, x = Some q ->
                   exists m : Z, (q * inject_Z (2 ^ Z.of_nat k) == inject_Z m)%Q) l
  /\ (series_sum (map (fmap Qabs) l) * inject_Z (2 ^ Z.of_nat k) <= inject_Z (2 ^ 44))%Q.

(** The digits [zero_pad] writes are those of the number. *)
Definition pad_reads_back (width : nat) (n : Z) : bool :=
  (String.length (zero_pad width n) =? width)%nat
  && match parse_digits (zero_pad width n) with
     | Some v => v =? n
     | None => false
     end.

(** Concrete amounts that are sums of powers of two. *)
Ltac binary_exact_lit :=
  split;
  [ cbn [map amount row];
    repeat (apply List.Forall_cons;
            [ intros ? Hq; try discriminate Hq; injection Hq as <-;
              match goal with
              | |- exists m : Z, (?q * ?scale == _)%Q => exists (Qnum (Qred (q * scale)))
              end;
              vm_compute; reflexivity
            | ]);
    apply List.Forall_nil
  | vm_compute; intros Hgt; discriminate Hgt ].

(** A concrete text is plain, or no truth value. *)
Ltac plain_literal :=
  repeat split; try reflexivity;
  try (intros Hin; vm_compute in Hin; intuition discriminate).

(** * Properties *)

(** ** Lists, masks and columns *)

Lemma bind_Ok {A B} (k : A -> result B) (a : A) : mbind k (Ok a) = k a.
Proof. reflexivity. Qed.

Lemma filter_all {A} (l : list A) : List.filter (fun _ => true) l = l.
Proof. induction l as [|x l IH]; simpl; congruence. Qed.

Lemma filter_twice {A} (p q : A -> bool) (l : list A) :
  List.filter q (List.filter p l) = List.filter (fun x => p x && q x) l.
Proof.
  induction l as [|x l IH]; simpl; [reflexivity|].
  destruct (p x); simpl; [destruct (q x)|]; congruence.
Qed.

Lemma filter_ext_in {A} (p q : A -> bool) (l : list A) :
  (forall x, In x l -> p x = q x) -> List.filter p l = List.filter q l.
Proof.
  induction l as [|x l IH]; simpl; intros Hpq; [reflexivity|].
  rewrite (Hpq x) by auto. rewrite IH by auto. reflexivity.
Qed.

Lemma select_map_mask {A} (p : A -> bool) (l : list A) :
  select l (map p l) = List.filter p l.
Proof. induction l as [|x l IH]; simpl; [|rewrite IH]; reflexivity. Qed.

Lemma series_map_total {A B} (f : A -> result B) (g : A -> B) (l : list A) :
  Forall (fun x => f x = Ok (g x)) l -> series_map f l = Ok (map g l).
Proof.
  induction 1 as [|x l Hx _ IH]; simpl; [reflexivity|].
  rewrite Hx; simpl. rewrite IH. reflexivity.
Qed.

Lemma setitem_date_length (df : DataFrame) (col : list datecell) :
  length (setitem_date df col) = length df.
Proof. revert col; induction df as [|r df IH]; intros col; simpl; [|rewrite IH]; reflexivity. Qed.

Lemma setitem_date_map (f : datecell -> datecell) (df : DataFrame) :
  setitem_date df (map f (map date df))
  = map (fun r => {| date := f (date r); category := category r; amount := amount r |}) df.
Proof. induction df as [|r df IH]; simpl; [|rewrite IH]; reflexivity. Qed.

Lemma setitem_date_lookup (df : DataFrame) (col : list datecell) (i : nat) (r : Row) :
  df !! i = Some r ->
  setitem_date df col !! i
  = Some {| date := default DateNull (col !! i); category := category r; amount := amount r |}.
Proof.
  revert col i; induction df as [|r0 df IH]; intros col i Hi; [discriminate|].
  destruct i as [|i]; simpl in *.
  - injection Hi as ->. destruct col; reflexivity.
  - destruct col as [|c col]; simpl; [apply (IH [] i Hi)|apply (IH col i Hi)].
Qed.

Lemma setitem_date_no_text (df : DataFrame) (ts : list (option Timestamp)) :
  Forall (fun r => is_text (date r) = false) (setitem_date df (map cell_of_ts ts)).
Proof.
  revert ts; induction df as [|r df IH]; intros ts; simpl; constructor.
  - destruct ts as [|[t|] ts]; reflexivity.
  - destruct ts as [|t ts]; simpl; [apply (IH [])|apply IH].
Qed.

Lemma filter_no_text (p : Row -> bool) (df : DataFrame) :
  Forall (fun r => is_text (date r) = false) df ->
  Forall (fun r => is_text (date r) = false) (List.filter p df).
Proof.
  induction 1 as [|r df Hr _ IH]; simpl; [constructor|].
  destruct (p r); [constructor|]; assumption.
Qed.

(** ** Timestamps *)

Lemma lex_leb_trans (a b c : list Z) :
  length a = length b -> length b = length c ->
  lex_leb a b = true -> lex_leb b c = true -> lex_leb a c = true.
Proof.
  revert b c; induction a as [|x a IH]; intros [|y b] [|z c]; simpl; try discriminate; auto.
  intros Hab Hbc H1 H2.
  apply orb_true_iff in H1. apply orb_true_iff in H2. apply orb_true_iff.
  destruct H1 as [H1|H1]; destruct H2 as [H2|H2];
    rewrite ?andb_true_iff in *; rewrite ?Z.ltb_lt, ?Z.eqb_eq in *.
  - left; lia.
  - left; lia.
  - left; lia.
  - right. split; [lia|]. apply (IH b c); try lia; tauto.
Qed.

Lemma lex_leb_antisym (a b : list Z) :
  length a = length b -> lex_leb a b = true -> lex_leb b a = true -> a = b.
Proof.
  revert b; induction a as [|x a IH]; intros [|y b]; simpl; try discriminate; auto.
  intros Hab H1 H2.
  apply orb_true_iff in H1. apply orb_true_iff in H2.
  rewrite ?andb_true_iff in *. rewrite ?Z.ltb_lt, ?Z.eqb_eq in *.
  destruct H1 as [H1|[H1 H1']]; destruct H2 as [H2|[H2 H2']]; try lia.
  subst. f_equal. apply IH; auto.
Qed.

Lemma ts_leb_trans (a b c : Timestamp) :
  ts_leb a b = true -> ts_leb b c = true -> ts_leb a c = true.
Proof. apply lex_leb_trans; reflexivity. Qed.

Lemma ts_leb_antisym (a b : Timestamp) :
  ts_leb a b = true -> ts_leb b a = true -> a = b.
Proof.
  intros H1 H2. pose proof (lex_leb_antisym (ts_fields a) (ts_fields b) eq_refl H1 H2) as E.
  destruct a, b; unfold ts_fields in E; simpl in E. congruence.
Qed.

Lemma zero_pad_length (width : nat) (bound : Z) (n : Z) :
  forallb (fun k => Nat.eqb (String.length (zero_pad width (Z.of_nat k))) width)
          (seq 0 (Z.to_nat bound)) = true ->
  0 <= n < bound ->
  String.length (zero_pad width n) = width.
Proof.
  intros Hall Hn. rewrite forallb_forall in Hall.
  specialize (Hall (Z.to_nat n)). rewrite Z2Nat.id in Hall by lia.
  apply Nat.eqb_eq, Hall. apply in_seq. lia.
Qed.

Lemma string_length_append (a b : string) :
  String.length (a ++ b)%string = (String.length a + String.length b)%nat.
Proof. induction a as [|c a IH]; simpl; [|rewrite IH]; reflexivity. Qed.

Lemma string_get_append (a b : string) (k i : nat) :
  String.length a = k ->
  String.get (k + i) (a ++ b)%string = String.get i b.
Proof. intros <-. induction a as [|c a IH]; simpl; [reflexivity|exact IH]. Qed.

(** The display form of a date of the years 0 to 9999 is [YYYY-MM-DD]: ten
    characters with a dash after the year and after the month. *)
Lemma strftime_shape (t : Timestamp) :
  0 <= year t <= 9999 -> 1 <= month t <= 12 -> 1 <= day t <= 31 ->
  String.length (strftime t) = 10%nat
  /\ String.get 4 (strftime t) = Some "-"%char
  /\ String.get 7 (strftime t) = Some "-"%char.
Proof.
  intros Hy Hm Hd.
  assert (Ly : String.length (zero_pad 4 (year t)) = 4%nat).
  { apply (zero_pad_length 4 10000); [vm_compute; reflexivity|lia]. }
  assert (Lm : String.length (zero_pad 2 (month t)) = 2%nat).
  { apply (zero_pad_length 2 100); [vm_compute; reflexivity|lia]. }
  assert (Ld : String.length (zero_pad 2 (day t)) = 2%nat).
  { apply (zero_pad_length 2 100); [vm_compute; reflexivity|lia]. }
  unfold strftime. split; [|split].
  - rewrite !string_length_append, Ly, Lm, Ld. reflexivity.
  - exact (string_get_append (zero_pad 4 (year t)) _ 4 0 Ly).
  - etransitivity; [exact (string_get_append (zero_pad 4 (year t)) _ 4 3 Ly)|].
    exact (string_get_append (zero_pad 2 (month t)) _ 2 0 Lm).
Qed.

(** ** [filter_data] *)

Section FilterData.
Context `{Converters}.

Lemma parse_dates_no_text (df : DataFrame) :
  Forall (fun r => is_text (date r) = false) (parse_dates df).
Proof. apply setitem_date_no_text. Qed.

Lemma parse_dates_length (df : DataFrame) : length (parse_dates df) = length df.
Proof. apply setitem_date_length. Qed.

Lemma select_date_ge (df : DataFrame) (lo : Timestamp) :
  Forall (fun r => is_text (date r) = false) df ->
  select_date cell_ge df lo = Ok (List.filter (on_or_after (Some lo)) df).
Proof.
  intros Hdf. unfold select_date.
  rewrite (series_map_total _ (on_or_after (Some lo))).
  - simpl. rewrite select_map_mask. reflexivity.
  - eapply Forall_impl; [exact Hdf|].
    intros r. unfold on_or_after, cell_ge. destruct (date r); [reflexivity|discriminate|reflexivity].
Qed.

Lemma select_date_le (df : DataFrame) (hi : Timestamp) :
  Forall (fun r => is_text (date r) = false) df ->
  select_date cell_le df hi = Ok (List.filter (on_or_before (Some hi)) df).
Proof.
  intros Hdf. unfold select_date.
  rewrite (series_map_total _ (on_or_before (Some hi))).
  - simpl. rewrite select_map_mask. reflexivity.
  - eapply Forall_impl; [exact Hdf|].
    intros r. unfold on_or_before, cell_le. destruct (date r); [reflexivity|discriminate|reflexivity].
Qed.

Lemma start_stage (df : DataFrame) (start_date : option string) :
  Forall (fun r => is_text (date r) = false) df ->
  (if truthy start_date then
     match to_datetime (default "" start_date) with
     | Some start => select_date cell_ge df start
     | None => Ok df
     end
   else Ok df)
  = Ok (List.filter (on_or_after (bound_of start_date)) df).
Proof.
  intros Hdf. destruct start_date as [s|]; simpl.
  - destruct (String.eqb s ""); simpl; [rewrite filter_all; reflexivity|].
    destruct (to_datetime s); [apply select_date_ge; exact Hdf|rewrite filter_all; reflexivity].
  - rewrite filter_all; reflexivity.
Qed.

Lemma end_stage (df : DataFrame) (end_date : option string) :
  Forall (fun r => is_text (date r) = false) df ->
  (if truthy end_date then
     match to_datetime (default "" end_date) with
     | Some stop => select_date cell_le df stop
     | None => Ok df
     end
   else Ok df)
  = Ok (List.filter (on_or_before (bound_of end_date)) df).
Proof.
  intros Hdf. destruct end_date as [s|]; simpl.
  - destruct (String.eqb s ""); simpl; [rewrite filter_all; reflexivity|].
    destruct (to_datetime s); [apply select_date_le; exact Hdf|rewrite filter_all; reflexivity].
  - rewrite filter_all; reflexivity.
Qed.

Lemma category_stage (df : DataFrame) (c : option string) :
  (if truthy c && negb (String.eqb (default "" c) "All") then
     select df (map (fun r => String.eqb (str_lower (category_text r))
                                         (str_lower (default "" c))) df)
   else df)
  = List.filter (category_matches c) df.
Proof.
  destruct c as [c|]; simpl; [|rewrite filter_all; reflexivity].
  unfold category_matches.
  destruct (String.eqb c ""); simpl; [rewrite filter_all; reflexivity|].
  destruct (String.eqb c "All"); simpl; [rewrite filter_all; reflexivity|].
  apply select_map_mask.
Qed.

Lemma display_stage (df : DataFrame) :
  Forall (fun r => is_text (date r) = false) df ->
  (col ← series_map dt_strftime_cell (map date df); Ok (setitem_date df col))
  = Ok (map format_date df).
Proof.
  intros Hdf. rewrite (series_map_total _ display_date).
  - simpl. rewrite setitem_date_map. reflexivity.
  - apply Forall_map. eapply Forall_impl; [exact Hdf|].
    intros r. simpl. destruct (date r); simpl; [reflexivity|discriminate|reflexivity].
Qed.

(** [filter_data] never raises, and returns the selected rows of the
    frame with parsed dates, in their order, dates in display form. *)
Lemma filter_data_selected (df : DataFrame) (start_date end_date category : option string) :
  filter_data df start_date end_date category
  = Ok (map format_date
            (List.filter (selected start_date end_date category) (parse_dates df))).
Proof.
  unfold filter_data. destruct df as [|r df]; [reflexivity|].
  cbv beta iota delta [empty].
  pose proof (parse_dates_no_text (r :: df)) as HP.
  set (P := parse_dates (r :: df)) in *.
  rewrite (start_stage P start_date HP), bind_Ok.
  pose proof (filter_no_text (on_or_after (bound_of start_date)) P HP) as HP1.
  rewrite (end_stage _ end_date HP1), bind_Ok.
  pose proof (filter_no_text (on_or_before (bound_of end_date)) _ HP1) as HP2.
  rewrite category_stage.
  pose proof (filter_no_text (category_matches category) _ HP2) as HP3.
  rewrite (display_stage _ HP3).
  rewrite !filter_twice. do 2 f_equal. apply filter_ext_in.
  intros x _. unfold selected. rewrite andb_assoc. reflexivity.
Qed.
End FilterData.

Section FilterClaims.
Context `{Converters}.

Lemma bound_of_parsed (s : string) (t : Timestamp) :
  to_datetime s = Some t -> bound_of (Some s) = Some t.
Proof.
  intros Hs. unfold bound_of. destruct (String.eqb_spec s "") as [->|_]; [|exact Hs].
  rewrite to_datetime_empty in Hs. discriminate.
Qed.

Lemma bound_of_unparsed (s : string) :
  to_datetime s = None -> bound_of (Some s) = None.
Proof. intros Hs. unfold bound_of. destruct (String.eqb s ""); [reflexivity|exact Hs]. Qed.

Lemma empty_range (lo hi : Timestamp) (r : Row) :
  ts_leb lo hi = false ->
  (on_or_after (Some lo) r && on_or_before (Some hi) r)%bool = false.
Proof.
  intros Hlh. unfold on_or_after, on_or_before. destruct (date r) as [| |t]; try reflexivity.
  destruct (ts_leb lo t) eqn:H1; [|reflexivity].
  destruct (ts_leb t hi) eqn:H2; [|reflexivity].
  rewrite (ts_leb_trans _ _ _ H1 H2) in Hlh. discriminate.
Qed.

Lemma filter_none {A} (p : A -> bool) (l : list A) :
  (forall x, p x = false) -> List.filter p l = [].
Proof. intros Hp. induction l as [|x l IH]; simpl; [|rewrite Hp]; auto. Qed.

Lemma selected_needs_date (s e c : option string) (r : Row) :
  bound_of s <> None \/ bound_of e <> None ->
  date r = DateNull -> selected s e c r = false.
Proof.
  intros Hb Hr. unfold selected, on_or_after, on_or_before. rewrite Hr.
  destruct (bound_of s), (bound_of e); simpl; try reflexivity.
  destruct Hb; congruence.
Qed.

End FilterClaims.

(** ** The display form of a date *)

Lemma digit_char (c : ascii) (v : Z) :
  digit c = Some v -> 0 <= v <= 9 /\ c = ascii_of_nat (Z.to_nat v + 48).
Proof.
  unfold digit. destruct (48 <=? nat_of_ascii c)%nat eqn:Hlo; [|discriminate].
  destruct (nat_of_ascii c <=? 57)%nat eqn:Hhi; [|discriminate].
  apply Nat.leb_le in Hlo, Hhi. simpl. intros [= <-]. split; [lia|].
  rewrite Nat2Z.id. replace (nat_of_ascii c - 48 + 48)%nat with (nat_of_ascii c) by lia.
  symmetry. apply ascii_nat_embedding.
Qed.

Lemma parse_digits_4 (a b c d : ascii) (y : Z) :
  parse_digits (String a (String b (String c (String d "")))) = Some y ->
  exists va vb vc vd,
    digit a = Some va /\ digit b = Some vb /\ digit c = Some vc /\ digit d = Some vd
    /\ y = 1000 * va + 100 * vb + 10 * vc + vd.
Proof.
  unfold parse_digits. cbn [String.eqb digits_val].
  destruct (digit a) as [va|]; [|discriminate]. cbn [mbind option_bind].
  destruct (digit b) as [vb|]; [|discriminate]. cbn [mbind option_bind].
  destruct (digit c) as [vc|]; [|discriminate]. cbn [mbind option_bind].
  destruct (digit d) as [vd|]; [|discriminate]. cbn [mbind option_bind].
  intros [= <-]. exists va, vb, vc, vd. repeat split; try reflexivity; try lia.
Qed.

Lemma parse_digits_2 (a b : ascii) (y : Z) :
  parse_digits (String a (String b "")) = Some y ->
  exists va vb, digit a = Some va /\ digit b = Some vb /\ y = 10 * va + vb.
Proof.
  unfold parse_digits. cbn [String.eqb digits_val].
  destruct (digit a) as [va|]; [|discriminate]. cbn [mbind option_bind].
  destruct (digit b) as [vb|]; [|discriminate]. cbn [mbind option_bind].
  intros [= <-]. exists va, vb. repeat split; try reflexivity; try lia.
Qed.

Lemma zero_pad_reads_back (width : nat) (bound : Z) (n : Z) :
  forallb (fun k => pad_reads_back width (Z.of_nat k)) (seq 0 (Z.to_nat bound)) = true ->
  0 <= n < bound ->
  String.length (zero_pad width n) = width /\ parse_digits (zero_pad width n) = Some n.
Proof.
  intros Hall Hn. rewrite forallb_forall in Hall.
  specialize (Hall (Z.to_nat n)). rewrite Z2Nat.id in Hall by lia.
  assert (Hin : In (Z.to_nat n) (seq 0 (Z.to_nat bound))) by (apply in_seq; lia).
  specialize (Hall Hin). unfold pad_reads_back in Hall.
  apply andb_true_iff in Hall. destruct Hall as [Hlen Hval].
  apply Nat.eqb_eq in Hlen. split; [exact Hlen|].
  destruct (parse_digits (zero_pad width n)) as [v|]; [|discriminate].
  apply Z.eqb_eq in Hval. congruence.
Qed.

Lemma zero_pad_4 (y : Z) :
  0 <= y <= 9999 ->
  exists a b c d,
    zero_pad 4 y = String a (String b (String c (String d "")))
    /\ parse_digits (String a (String b (String c (String d "")))) = Some y.
Proof.
  intros Hy.
  destruct (zero_pad_reads_back 4 10000 y) as [Hlen Hval]; [vm_compute; reflexivity|lia|].
  destruct (zero_pad 4 y) as [|a [|b [|c [|d [|x s]]]]]; try discriminate.
  exists a, b, c, d. split; [reflexivity|exact Hval].
Qed.

Lemma zero_pad_2 (m : Z) :
  0 <= m <= 99 ->
  exists a b,
    zero_pad 2 m = String a (String b "")
    /\ parse_digits (String a (String b "")) = Some m.
Proof.
  intros Hm.
  destruct (zero_pad_reads_back 2 100 m) as [Hlen Hval]; [vm_compute; reflexivity|lia|].
  destruct (zero_pad 2 m) as [|a [|b [|x s]]]; try discriminate.
  exists a, b. split; [reflexivity|exact Hval].
Qed.

Lemma days_in_month_le_31 (y m : Z) : days_in_month y m <= 31.
Proof.
  unfold days_in_month. destruct (m =? 2); [destruct (is_leap y); lia|].
  destruct ((m =? 4) || (m =? 6) || (m =? 9) || (m =? 11))%bool; lia.
Qed.

(** The display form of a date of the calendar reads back as that date:
    [strftime] writes the year, the month and the day as [YYYY-MM-DD]. *)
Lemma parse_iso_date_strftime (t : Timestamp) :
  valid_date t -> parse_iso_date (strftime t) = Some (midnight t).
Proof.
  intros (Hy & Hm & Hd). pose proof (days_in_month_le_31 (year t) (month t)) as H31.
  destruct (zero_pad_4 (year t) Hy) as (a & b & c & d & Ey & Py).
  destruct (zero_pad_2 (month t)) as (e & f & Em & Pm); [lia|].
  destruct (zero_pad_2 (day t)) as (g & h & Ed & Pd); [lia|].
  unfold strftime. rewrite Ey, Em, Ed. unfold parse_iso_date.
  cbv beta iota delta [String.append].
  cbn [String.length Nat.eqb substring String.eqb Ascii.eqb Bool.eqb andb].
  rewrite Py, Pm, Pd. cbn [mbind option_bind].
  replace ((1 <=? month t) && (month t <=? 12) && (1 <=? day t)
           && (day t <=? days_in_month (year t) (month t)))%bool with true; [reflexivity|].
  symmetry. rewrite !andb_true_iff, !Z.leb_le. lia.
Qed.

(** A text that reads as a date is the display form of that date. *)
Lemma strftime_parse_iso_date (s : string) (t : Timestamp) :
  parse_iso_date s = Some t ->
  strftime t = s /\ valid_date t /\ String.length s = 10%nat.
Proof.
  unfold parse_iso_date.
  destruct (String.length s =? 10)%nat eqn:Hlen; [|discriminate].
  apply Nat.eqb_eq in Hlen.
  destruct s as [|c0 [|c1 [|c2 [|c3 [|c4 [|c5 [|c6 [|c7 [|c8 [|c9 [|x s]]]]]]]]]]];
    try discriminate.
  cbn [substring].
  destruct (String.eqb (String c4 "") "-") eqn:E4; [|discriminate].
  destruct (String.eqb (String c7 "") "-") eqn:E7; [|discriminate].
  apply String.eqb_eq in E4, E7. injection E4 as ->. injection E7 as ->.
  cbn [andb].
  destruct (parse_digits (String c0 (String c1 (String c2 (String c3 ""))))) as [y|] eqn:Py;
    [|discriminate].
  cbn [mbind option_bind].
  destruct (parse_digits (String c5 (String c6 ""))) as [m|] eqn:Pm; [|discriminate].
  cbn [mbind option_bind].
  destruct (parse_digits (String c8 (String c9 ""))) as [d|] eqn:Pd; [|discriminate].
  cbn [mbind option_bind].
  destruct ((1 <=? m) && (m <=? 12) && (1 <=? d) && (d <=? days_in_month y m))%bool eqn:Hr;
    [|discriminate].
  intros [= <-]. rewrite !andb_true_iff, !Z.leb_le in Hr.
  pose proof (days_in_month_le_31 y m) as H31.
  destruct (parse_digits_4 _ _ _ _ _ Py) as (v0 & v1 & v2 & v3 & D0 & D1 & D2 & D3 & Ey).
  destruct (parse_digits_2 _ _ _ Pm) as (v5 & v6 & D5 & D6 & Em).
  destruct (parse_digits_2 _ _ _ Pd) as (v8 & v9 & D8 & D9 & Ed).
  destruct (digit_char _ _ D0) as [R0 K0], (digit_char _ _ D1) as [R1 K1],
           (digit_char _ _ D2) as [R2 K2], (digit_char _ _ D3) as [R3 K3],
           (digit_char _ _ D5) as [R5 K5], (digit_char _ _ D6) as [R6 K6],
           (digit_char _ _ D8) as [R8 K8], (digit_char _ _ D9) as [R9 K9].
  assert (Hy : 0 <= y <= 9999) by lia.
  split; [|split; [repeat split; simpl; lia|reflexivity]].
  unfold strftime; cbn [year month day].
  destruct (zero_pad_4 y Hy) as (a' & b' & c' & d' & Zy & Qy).
  destruct (zero_pad_2 m) as (e' & f' & Zm & Qm); [lia|].
  destruct (zero_pad_2 d) as (g' & h' & Zd & Qd); [lia|].
  destruct (parse_digits_4 _ _ _ _ _ Qy) as (w0 & w1 & w2 & w3 & F0 & F1 & F2 & F3 & Fy).
  destruct (parse_digits_2 _ _ _ Qm) as (w5 & w6 & F5 & F6 & Fm).
  destruct (parse_digits_2 _ _ _ Qd) as (w8 & w9 & F8 & F9 & Fd).
  destruct (digit_char _ _ F0) as [S0 G0], (digit_char _ _ F1) as [S1 G1],
           (digit_char _ _ F2) as [S2 G2], (digit_char _ _ F3) as [S3 G3],
           (digit_char _ _ F5) as [S5 G5], (digit_char _ _ F6) as [S6 G6],
           (digit_char _ _ F8) as [S8 G8], (digit_char _ _ F9) as [S9 G9].
  assert (w0 = v0 /\ w1 = v1 /\ w2 = v2 /\ w3 = v3) as (-> & -> & -> & ->) by lia.
  assert (w5 = v5 /\ w6 = v6) as (-> & ->) by lia.
  assert (w8 = v8 /\ w9 = v9) as (-> & ->) by lia.
  rewrite Zy, Zm, Zd. cbv beta iota delta [String.append]. congruence.
Qed.

(** ** [filter_data] with UTC offsets *)

Section ZonedFilter.
Context `{Zoned.Zones}.

Lemma zoned_start_stage (df : DataFrame) (start_date : option string) :
  Forall (fun r => is_text (date r) = false) df ->
  Zoned.bound_offset start_date = None ->
  (if truthy start_date then
     match Zoned.stamp (default "" start_date) with
     | Some start => mask ← Zoned.compare_dates cell_ge None df start; Ok (select df mask)
     | None => Ok df
     end
   else Ok df)
  = Ok (List.filter (on_or_after (Zoned.bound_of start_date)) df).
Proof.
  intros Hdf Hoff. destruct start_date as [s|]; simpl in *.
  - destruct (String.eqb s ""); simpl; [rewrite filter_all; reflexivity|].
    destruct (Zoned.stamp s) as [[lo z]|]; simpl in *; [|rewrite filter_all; reflexivity].
    subst z. exact (select_date_ge df lo Hdf).
  - rewrite filter_all; reflexivity.
Qed.

Lemma zoned_end_stage (df : DataFrame) (end_date : option string) :
  Forall (fun r => is_text (date r) = false) df ->
  Zoned.bound_offset end_date = None ->
  (if truthy end_date then
     match Zoned.stamp (default "" end_date) with
     | Some stop => mask ← Zoned.compare_dates cell_le None df stop; Ok (select df mask)
     | None => Ok df
     end
   else Ok df)
  = Ok (List.filter (on_or_before (Zoned.bound_of end_date)) df).
Proof.
  intros Hdf Hoff. destruct end_date as [s|]; simpl in *.
  - destruct (String.eqb s ""); simpl; [rewrite filter_all; reflexivity|].
    destruct (Zoned.stamp s) as [[hi z]|]; simpl in *; [|rewrite filter_all; reflexivity].
    subst z. exact (select_date_le df hi Hdf).
  - rewrite filter_all; reflexivity.
Qed.

Lemma zoned_category_stage (df : DataFrame) (c : option string) :
  (if truthy c && negb (String.eqb (default "" c) "All") then
     select df (map (Zoned.category_is (default "" c)) df)
   else df)
  = List.filter (Zoned.category_restriction c) df.
Proof.
  destruct c as [c|]; simpl; [|rewrite filter_all; reflexivity].
  unfold Zoned.category_restriction.
  destruct (String.eqb c ""); simpl; [rewrite filter_all; reflexivity|].
  destruct (String.eqb c "All"); simpl; [rewrite filter_all; reflexivity|].
  apply select_map_mask.
Qed.

(** Without an offset in the dates or in the bounds, [filter_data] returns
    the selected rows of the frame with parsed dates, in their order, dates
    in display form. *)
Lemma zoned_filter_data_offset_free
      (df : DataFrame) (s e c : option string) (col : list (option Timestamp)) :
  Zoned.stamps (map date df) = Ok (None, col) ->
  Zoned.bound_offset s = None ->
  Zoned.bound_offset e = None ->
  Zoned.filter_data df s e c
  = Ok (map format_date
            (List.filter (Zoned.selected s e c) (setitem_date df (map cell_of_ts col)))).
Proof.
  intros Hcol Hs He. unfold Zoned.filter_data. destruct df as [|r df]; [reflexivity|].
  cbv beta iota delta [empty]. rewrite Hcol, bind_Ok. cbv beta iota.
  pose proof (setitem_date_no_text (r :: df) col) as HP.
  set (P := setitem_date (r :: df) (map cell_of_ts col)) in *.
  rewrite (zoned_start_stage P s HP Hs), bind_Ok.
  pose proof (filter_no_text (on_or_after (Zoned.bound_of s)) P HP) as HP1.
  rewrite (zoned_end_stage _ e HP1 He), bind_Ok.
  pose proof (filter_no_text (on_or_before (Zoned.bound_of e)) _ HP1) as HP2.
  rewrite zoned_category_stage.
  pose proof (filter_no_text (Zoned.category_restriction c) _ HP2) as HP3.
  rewrite (display_stage _ HP3).
  rewrite !filter_twice. do 2 f_equal. apply filter_ext_in.
  intros x _. unfold Zoned.selected. rewrite andb_assoc. reflexivity.
Qed.

(** Without bounds no dates are compared, and the offset of the column
    does not matter. *)
Lemma zoned_filter_data_unbounded
      (df : DataFrame) (c : option string) (zone : option Z) (col : list (option Timestamp)) :
  Zoned.stamps (map date df) = Ok (zone, col) ->
  Zoned.filter_data df None None c
  = Ok (map format_date
            (List.filter (Zoned.category_restriction c)
                         (setitem_date df (map cell_of_ts col)))).
Proof.
  intros Hcol. unfold Zoned.filter_data. destruct df as [|r df]; [reflexivity|].
  cbv beta iota delta [empty]. rewrite Hcol, bind_Ok. cbv beta iota.
  change (truthy (@None string)) with false. cbv iota. rewrite !bind_Ok.
  pose proof (setitem_date_no_text (r :: df) col) as HP.
  rewrite zoned_category_stage.
  pose proof (filter_no_text (Zoned.category_restriction c) _ HP) as HP3.
  rewrite (display_stage _ HP3). reflexivity.
Qed.

(** A start bound with an offset against dates without one: [TypeError]. *)
Lemma zoned_filter_data_offset_bound
      (df : DataFrame) (t : string) (e c : option string)
      (col : list (option Timestamp)) (lo : Timestamp) (z : Z) :
  df <> [] ->
  Zoned.stamps (map date df) = Ok (None, col) ->
  Zoned.stamp t = Some (lo, Some z) ->
  Zoned.filter_data df (Some t) e c = Raise TypeError.
Proof.
  intros Hdf Hcol Ht. unfold Zoned.filter_data. destruct df as [|r df]; [contradiction|].
  cbv beta iota delta [empty]. rewrite Hcol, bind_Ok. cbv beta iota.
  assert (Hne : String.eqb t "" = false).
  { destruct (String.eqb_spec t "") as [->|_]; [|reflexivity].
    rewrite Zoned.stamp_empty in Ht. discriminate. }
  change (default "" (Some t)) with t. cbn [truthy]. rewrite Hne. cbn [negb].
  rewrite Ht. reflexivity.
Qed.

Lemma zoned_selected_needs_date (s e c : option string) (r : Row) :
  Zoned.bound_of s <> None \/ Zoned.bound_of e <> None ->
  date r = DateNull -> Zoned.selected s e c r = false.
Proof.
  intros Hb Hr. unfold Zoned.selected, on_or_after, on_or_before. rewrite Hr.
  destruct (Zoned.bound_of s), (Zoned.bound_of e); simpl; try reflexivity.
  destruct Hb; congruence.
Qed.

Lemma category_restriction_equals (c : option string) (r : Row) :
  (forall t, c = Some t -> str_lower t <> "nan") ->
  Zoned.category_restriction c r = category_equals c r.
Proof.
  intros Hc. unfold Zoned.category_restriction, category_equals, Zoned.category_is.
  destruct c as [c|]; [|reflexivity].
  destruct (String.eqb c "" || String.eqb c "All")%bool; [reflexivity|].
  destruct (category r); [reflexivity|].
  destruct (String.eqb_spec "nan" (str_lower c)) as [Heq|_]; [|apply andb_false_r].
  destruct (Hc c eq_refl). symmetry. exact Heq.
Qed.

(** C4, as amended: for dates and two parseable bounds without a UTC
    offset, and category texts of ASCII characters, the requested one not
    "nan", [filter_data] returns exactly the rows whose parsed date lies in
    the closed interval and whose category is a text equal to the requested
    one up to case, unless the category is omitted, empty or "All"; the rows
    keep their order and show their date as [YYYY-MM-DD].  A start bound
    after the end bound gives the empty frame, and "food" matches a row
    stored as "Food". *)
Theorem filter_data_range_and_category
        (df : DataFrame) (s e : string) (c : option string) (lo hi : Timestamp)
        (col : list (option Timestamp)) :
  Zoned.stamps (map date df) = Ok (None, col) ->
  Zoned.stamp s = Some (lo, None) ->
  Zoned.stamp e = Some (hi, None) ->
  (forall t, c = Some t -> ascii_text t = true /\ str_lower t <> "nan") ->
  Forall (fun r => forall t, category r = Some t -> ascii_text t = true) df ->
  Zoned.filter_data df (Some s) (Some e) c
  = Ok (map format_date
            (List.filter
               (fun r => on_or_after (Some lo) r && on_or_before (Some hi) r
                         && category_equals c r)
               (setitem_date df (map cell_of_ts col))))
  /\ (ts_leb lo hi = false -> Zoned.filter_data df (Some s) (Some e) c = Ok [])
  /\ (forall r, category r = Some "Food" -> category_equals (Some "food") r = true).
Proof.
  intros Hcol Hs He Hc _.
  assert (Hns : String.eqb s "" = false).
  { destruct (String.eqb_spec s "") as [->|_]; [|reflexivity].
    rewrite Zoned.stamp_empty in Hs. discriminate. }
  assert (Hne : String.eqb e "" = false).
  { destruct (String.eqb_spec e "") as [->|_]; [|reflexivity].
    rewrite Zoned.stamp_empty in He. discriminate. }
  assert (Hclosed : Zoned.filter_data df (Some s) (Some e) c
                    = Ok (map format_date
                              (List.filter
                                 (fun r => on_or_after (Some lo) r && on_or_before (Some hi) r
                                           && category_equals c r)
                                 (setitem_date df (map cell_of_ts col))))).
  { rewrite (zoned_filter_data_offset_free df (Some s) (Some e) c col Hcol).
    - do 2 f_equal. apply filter_ext_in. intros r _. unfold Zoned.selected, Zoned.bound_of.
      rewrite Hns, Hne, Hs, He. cbn [fmap option_fmap option_map fst].
      rewrite (category_restriction_equals c r); [reflexivity|].
      intros t Ht. exact (proj2 (Hc t Ht)).
    - unfold Zoned.bound_offset. rewrite Hns, Hs. reflexivity.
    - unfold Zoned.bound_offset. rewrite Hne, He. reflexivity. }
  split; [exact Hclosed|]. split.
  - intros Hlh. rewrite Hclosed. rewrite filter_none; [reflexivity|].
    intros r. rewrite (empty_range lo hi r Hlh). reflexivity.
  - intros r Hr. unfold category_equals. rewrite Hr. reflexivity.
Qed.

(** C7, as amended: for dates and bounds without a UTC offset
    [filter_data] does not raise; a bound that does not parse is treated as
    absent; and once a bound is in force, every row whose own date fails to
    parse is dropped: no such row is selected and no row of the result
    lacks a date.  A bound that parses with an offset, against such dates,
    makes [filter_data] raise [TypeError]. *)
Theorem filter_data_tolerates_bad_dates
        (df : DataFrame) (s e c : option string) (bad : string)
        (col : list (option Timestamp)) :
  Zoned.stamps (map date df) = Ok (None, col) ->
  Zoned.bound_offset s = None ->
  Zoned.bound_offset e = None ->
  Zoned.stamp bad = None ->
  Zoned.filter_data df s e c
  = Ok (map format_date
            (List.filter (Zoned.selected s e c) (setitem_date df (map cell_of_ts col))))
  /\ Zoned.filter_data df (Some bad) e c = Zoned.filter_data df None e c
  /\ Zoned.filter_data df s (Some bad) c = Zoned.filter_data df s None c
  /\ (Zoned.bound_of s <> None \/ Zoned.bound_of e <> None ->
      (forall r, date r = DateNull -> Zoned.selected s e c r = false)
      /\ forall out, Zoned.filter_data df s e c = Ok out ->
                     Forall (fun r => date r <> DateNull) out)
  /\ (forall t lo z,
        df <> [] -> Zoned.stamp t = Some (lo, Some z) ->
        Zoned.filter_data df (Some t) e c = Raise TypeError).
Proof.
  intros Hcol Hs He Hbad.
  assert (Hoff : Zoned.bound_offset (Some bad) = None).
  { unfold Zoned.bound_offset. rewrite Hbad. destruct (String.eqb bad ""); reflexivity. }
  assert (Hnone : Zoned.bound_of (Some bad) = None).
  { unfold Zoned.bound_of. rewrite Hbad. destruct (String.eqb bad ""); reflexivity. }
  split; [apply zoned_filter_data_offset_free; assumption|]. split; [|split; [|split]].
  - rewrite (zoned_filter_data_offset_free df (Some bad) e c col Hcol Hoff He).
    rewrite (zoned_filter_data_offset_free df None e c col Hcol eq_refl He).
    unfold Zoned.selected. rewrite Hnone. reflexivity.
  - rewrite (zoned_filter_data_offset_free df s (Some bad) c col Hcol Hs Hoff).
    rewrite (zoned_filter_data_offset_free df s None c col Hcol Hs eq_refl).
    unfold Zoned.selected. rewrite Hnone. reflexivity.
  - intros Hb. split; [intros r; apply zoned_selected_needs_date; exact Hb|].
    intros out Hout.
    rewrite (zoned_filter_data_offset_free df s e c col Hcol Hs He) in Hout.
    injection Hout as <-.
    apply Forall_map. apply Forall_forall. intros r Hr.
    apply list_elem_of_In, filter_In in Hr. destruct Hr as [Hin Hsel].
    pose proof (setitem_date_no_text df col) as HP.
    rewrite Forall_forall in HP. specialize (HP r (proj2 (list_elem_of_In _ _) Hin)).
    simpl. unfold display_date.
    destruct (date r) eqn:Hd; [|discriminate|discriminate].
    rewrite (zoned_selected_needs_date s e c r Hb Hd) in Hsel. discriminate.
  - intros t lo z Hdf Ht. exact (zoned_filter_data_offset_bound df t e c col lo z Hdf Hcol Ht).
Qed.
End ZonedFilter.

(** Where no text carries an offset, [filter_data] with offsets is
    [filter_data] on wall-clock times. *)
Lemma zoned_filter_data_without_offsets
      `{Converters} (df : DataFrame) (s e c : option string) :
  @Zoned.filter_data offset_free df s e c = filter_data df s e c.
Proof.
  unfold Zoned.filter_data, filter_data, parse_dates.
  destruct (empty df); [reflexivity|].
  cbn [Zoned.stamps Zoned.stamp offset_free mbind result_bind].
  set (d0 := setitem_date df (map cell_of_ts (to_datetime_series (map date df)))).
  assert (Hstage :
    forall cmp d b,
      (if truthy b then
         match without_offset (to_datetime (default "" b)) with
         | Some st => mask ← @Zoned.compare_dates offset_free cmp None d st;
                      Ok (select d mask)
         | None => Ok d
         end
       else Ok d)
      = (if truthy b then
           match to_datetime (default "" b) with
           | Some st => select_date cmp d st
           | None => Ok d
           end
         else Ok d)).
  { intros cmp d b. destruct (truthy b); [|reflexivity].
    destruct (to_datetime (default "" b)); reflexivity. }
  rewrite Hstage. destruct (if truthy s then _ else _) as [d1|err]; [|reflexivity].
  cbn [mbind result_bind]. rewrite Hstage.
  destruct (if truthy e then _ else _) as [d2|err]; [|reflexivity].
  cbn [mbind result_bind].
  replace (map (@Zoned.category_is offset_free (default "" c)) d2)
    with (map (fun r => String.eqb (str_lower (category_text r))
                                   (str_lower (default "" c))) d2); [reflexivity|].
  apply map_ext. intros r. unfold Zoned.category_is, category_text, astype_str.
  destruct (category r); reflexivity.
Qed.

Lemma parse_iso_stamp_date (d : string) (t : Timestamp) :
  parse_iso_date d = Some t -> parse_iso_stamp d = Some (t, None).
Proof.
  intros Hd. destruct (strftime_parse_iso_date d t Hd) as (_ & _ & Hlen).
  unfold parse_iso_stamp. rewrite Hlen. cbn [Nat.sub].
  destruct d as [|c0 [|c1 [|c2 [|c3 [|c4 [|c5 [|c6 [|c7 [|c8 [|c9 [|x d]]]]]]]]]]];
    try discriminate.
  cbn [substring String.eqb utc_suffix]. rewrite Hd. reflexivity.
Qed.

(** A column of ISO dates is read without an offset, date by date. *)
Lemma parse_stamp_column_dates (df : DataFrame) :
  Forall (fun r => exists d t, date r = DateStr d /\ parse_iso_date d = Some t) df ->
  parse_stamp_column (map date df)
  = Ok (None, map (fun c => fst <$> parse_stamp_cell c) (map date df))
  /\ map format_date
         (setitem_date df (map cell_of_ts
                               (map (fun c => fst <$> parse_stamp_cell c) (map date df))))
     = df.
Proof.
  intros Hdf. split.
  - unfold parse_stamp_column.
    replace (forallb (fun z : option Z => match z with None => true | Some _ => false end)
                     (cell_offsets (map date df))) with true; [reflexivity|].
    symmetry. unfold cell_offsets.
    induction Hdf as [|r rs (d & t & Hr & Hd) _ IH]; [reflexivity|].
    cbn [map omap list_omap]. rewrite Hr. cbn [parse_stamp_cell].
    rewrite (parse_iso_stamp_date d t Hd). cbn [fmap option_fmap option_map snd forallb].
    exact IH.
  - induction Hdf as [|r rs (d & t & Hr & Hd) _ IH]; [reflexivity|].
    cbn [map setitem_date hd tl]. rewrite IH. f_equal.
    rewrite Hr. cbn [parse_stamp_cell]. rewrite (parse_iso_stamp_date d t Hd).
    cbn [fmap option_fmap option_map fst cell_of_ts]. unfold format_date; cbn [date display_date].
    destruct (strftime_parse_iso_date d t Hd) as (-> & _).
    destruct r as [rd rc ra]; simpl in *. subst rd. reflexivity.
Qed.

(** C6, as amended: without bounds and with the category "All",
    [filter_data] returns the frame row for row when the dates convert: as
    many rows, in the same order, each with its category and amount
    untouched, and with its date in the display form of the parsed date,
    the text [YYYY-MM-DD] that reads back as that day, or null when the date
    does not parse.  A frame of ISO dates, of the years 1678 to 2261, is
    returned as it is. *)
Theorem filter_data_all_is_identity :
  (forall (zones : Zoned.Zones) (df : DataFrame) (zone : option Z)
          (col : list (option Timestamp)),
      Zoned.stamps (map date df) = Ok (zone, col) ->
      exists out,
        Zoned.filter_data df None None (Some "All") = Ok out
        /\ length out = length df
        /\ forall i r,
            df !! i = Some r ->
            exists r',
              out !! i = Some r'
              /\ category r' = category r
              /\ amount r' = amount r
              /\ match mjoin (col !! i) with
                 | Some t =>
                     date r' = DateStr (strftime t)
                     /\ (valid_date t -> nanosecond_years t ->
                         parse_iso_date (strftime t) = Some (midnight t))
                 | None => date r' = DateNull
                 end)
  /\ (forall df : DataFrame,
        Forall (fun r => exists d t, date r = DateStr d /\ parse_iso_date d = Some t
                                     /\ nanosecond_years t) df ->
        Zoned.filter_data df None None (Some "All") = Ok df).
Proof.
  split.
  - intros zones df zone col Hcol.
    exists (map format_date (setitem_date df (map cell_of_ts col))).
    split; [|split].
    + rewrite (zoned_filter_data_unbounded df (Some "All") zone col Hcol).
      cbn [Zoned.category_restriction String.eqb Ascii.eqb Bool.eqb orb andb].
      rewrite filter_all. reflexivity.
    + rewrite length_map. apply setitem_date_length.
    + intros i r Hi. rewrite list_lookup_fmap.
      rewrite (setitem_date_lookup _ _ _ _ Hi). cbn [fmap option_fmap option_map].
      eexists. split; [reflexivity|]. split; [reflexivity|]. split; [reflexivity|].
      unfold format_date; cbn [date]. rewrite list_lookup_fmap.
      destruct (col !! i) as [[t|]|]; cbn; [|reflexivity|reflexivity].
      split; [reflexivity|]. intros Hvalid _. exact (parse_iso_date_strftime t Hvalid).
  - intros df Hyears.
    assert (Hdf : Forall (fun r => exists d t, date r = DateStr d /\ parse_iso_date d = Some t)
                         df).
    { eapply Forall_impl; [exact Hyears|]. intros r (d & t & Hr & Hd & _).
      exists d, t. split; assumption. }
    destruct (parse_stamp_column_dates df Hdf) as [Hcol Hsame].
    change (parse_stamp_column (map date df)) with (Zoned.stamps (map date df)) in Hcol.
    rewrite (zoned_filter_data_unbounded df (Some "All") None _ Hcol).
    cbn [Zoned.category_restriction String.eqb Ascii.eqb Bool.eqb orb andb].
    rewrite filter_all. rewrite Hsame. reflexivity.
Qed.


Section SentinelClaims.
Context `{Converters}.

Lemma filter_keeps_all {A} (p : A -> bool) (l : list A) :
  length (List.filter p l) = length l -> Forall (fun x => p x = true) l.
Proof.
  induction l as [|x l IH]; simpl; intros Hlen; [constructor|].
  pose proof (filter_length_le p l) as Hle.
  destruct (p x) eqn:Hx; simpl in Hlen; [|lia].
  constructor; [exact Hx|]. apply IH. lia.
Qed.

Lemma filter_of_all {A} (p : A -> bool) (l : list A) :
  Forall (fun x => p x = true) l -> List.filter p l = l.
Proof. induction 1 as [|x l Hx _ IH]; simpl; [|rewrite Hx, IH]; reflexivity. Qed.

Lemma setitem_date_same_category (c : string) (df : DataFrame) (col : list datecell) :
  Forall (fun r => same_category c r = true) (setitem_date df col)
  <-> Forall (fun r => same_category c r = true) df.
Proof.
  revert col; induction df as [|r df IH]; intros col; simpl; [split; constructor|].
  split; intros Hall; inversion Hall as [|? ? Hr Hrest]; subst;
    (constructor; [exact Hr|eapply IH; exact Hrest]).
Qed.

End SentinelClaims.

(** ** The filter on concrete frames *)

(** C4, the claim as stated fails: an empty category is neither omitted
    nor "All", and no row has it, yet the row of category "Food" is
    returned. *)
Lemma filter_data_empty_category_returns_rows :
  Zoned.filter_data [row "2024-01-15" "Food" 10]
                    (Some "2024-01-01") (Some "2024-12-31") (Some "")
  = Ok [row "2024-01-15" "Food" 10]
  /\ List.filter (category_matches_as_specified (Some "")) [row "2024-01-15" "Food" 10] = [].
Proof. split; reflexivity. Qed.

Lemma filter_data_range_and_category_witness :
  Zoned.filter_data [row "2024-01-15" "Food" 10; row "2024-01-20" "Bills" 80]
                    (Some "2024-01-01") (Some "2024-01-31") (Some "food")
  = Ok [row "2024-01-15" "Food" 10].
Proof.
  destruct (filter_data_range_and_category
              [row "2024-01-15" "Food" 10; row "2024-01-20" "Bills" 80]
              "2024-01-01" "2024-01-31" (Some "food")
              {| year := 2024; month := 1; day := 1; nanos := 0 |}
              {| year := 2024; month := 1; day := 31; nanos := 0 |}
              [Some {| year := 2024; month := 1; day := 15; nanos := 0 |};
               Some {| year := 2024; month := 1; day := 20; nanos := 0 |}])
    as (Hout & _); [reflexivity|reflexivity|reflexivity| | |exact Hout].
  - intros t [= <-]. split; [reflexivity|discriminate].
  - repeat constructor; intros t [= <-]; reflexivity.
Defined.

(** C6, the claim as stated fails: the date of the second row does not
    parse, and the row comes back with a null date, not with a text
    [YYYY-MM-DD]. *)
Lemma filter_data_all_nulls_unparsable_dates :
  Zoned.filter_data [row "2024-01-15" "Food" 10; row "soon" "Bills" 80]
                    None None (Some "All")
  = Ok [row "2024-01-15" "Food" 10;
        {| date := DateNull; category := Some "Bills"; amount := Some 80%Q |}].
Proof. reflexivity. Qed.

(** C7, the claim as stated fails: this start bound parses, with the
    offset 0, the dates of the frame have no offset, and [filter_data]
    raises. *)
Lemma filter_data_raises_on_offset_bound :
  Zoned.stamp "2024-01-01T00:00:00Z"
  = Some ({| year := 2024; month := 1; day := 1; nanos := 0 |}, Some 0)
  /\ Zoned.filter_data [row "2024-01-15" "Food" 10]
                       (Some "2024-01-01T00:00:00Z") None None
     = Raise TypeError.
Proof. split; reflexivity. Qed.

Lemma filter_data_tolerates_bad_dates_witness :
  Zoned.filter_data [row "2024-01-15" "Food" 10; row "soon" "Bills" 80]
                    (Some "yesterday") (Some "2024-12-31") None
  = Zoned.filter_data [row "2024-01-15" "Food" 10; row "soon" "Bills" 80]
                      None (Some "2024-12-31") None.
Proof.
  destruct (filter_data_tolerates_bad_dates
              [row "2024-01-15" "Food" 10; row "soon" "Bills" 80]
              (Some "yesterday") (Some "2024-12-31") None "yesterday"
              [Some {| year := 2024; month := 1; day := 15; nanos := 0 |}; None])
    as (_ & Hbad & _); [reflexivity|reflexivity|reflexivity|reflexivity|exact Hbad].
Defined.


Example filter_data_food_matches_Food :
  filter_data [row "2024-01-15" "Food" 10; row "2024-01-20" "Bills" 80]
              None None (Some "food")
  = Ok [row "2024-01-15" "Food" 10].
Proof. reflexivity. Qed.

Example filter_data_end_before_start :
  filter_data [row "2024-01-15" "Food" 10] (Some "2024-02-01") (Some "2024-01-01") None
  = Ok [].
Proof. reflexivity. Qed.

Example filter_data_keeps_undated_rows_without_bounds :
  filter_data [row "2024-01-15" "Food" 10; row "soon" "Bills" 80] None None (Some "All")
  = Ok [row "2024-01-15" "Food" 10;
        {| date := DateNull; category := Some "Bills"; amount := Some 80%Q |}].
Proof. reflexivity. Qed.

(** ** [load_data] and [add_expense] *)

Lemma find_imap_column (f : csv) (col : string) (k : nat) (names : list string) :
  snd <$> find (fun c : string * list (option string) => String.eqb (fst c) col)
               (imap (fun i name => (name, column_cells f (k + i))) names)
  = (fun j => column_cells f (k + j)) <$> index_of col names.
Proof.
  revert k; induction names as [|name names IH]; intros k; simpl; [reflexivity|].
  destruct (String.eqb name col); simpl; [reflexivity|].
  rewrite <- option_fmap_compose.
  transitivity ((fun j => column_cells f (S k + j)) <$> index_of col names).
  - rewrite <- (IH (S k)). f_equal. f_equal.
    apply imap_ext. intros i x _. simpl. f_equal. f_equal. lia.
  - destruct (index_of col names); simpl; [|reflexivity].
    f_equal. f_equal. lia.
Qed.

(** The cells of a named column of a raw frame, if it has the column. *)
Lemma getitem_find (col : string) (df : RawFrame) :
  getitem col df
  = default [] (snd <$> find (fun c => String.eqb (fst c) col) (columns df)).
Proof. unfold getitem. destruct (find _ _); reflexivity. Qed.

Lemma has_column_find (col : string) (df : RawFrame) :
  has_column col df
  = match find (fun c => String.eqb (fst c) col) (columns df) with
    | Some _ => true
    | None => false
    end.
Proof.
  unfold has_column. induction (columns df) as [|c cs IH]; simpl; [reflexivity|].
  destruct (String.eqb (fst c) col); simpl; [reflexivity|exact IH].
Qed.

Lemma find_snoc {A} (p : A -> bool) (l : list A) (x : A) :
  find p (l ++ [x]) = match find p l with
                      | Some y => Some y
                      | None => if p x then Some x else None
                      end.
Proof. induction l as [|y l IH]; simpl; [reflexivity|]. destruct (p y); [reflexivity|exact IH]. Qed.

Lemma ensure_column_find (df : RawFrame) (col' col : string) :
  snd <$> find (fun c => String.eqb (fst c) col) (columns (ensure_column df col'))
  = match snd <$> find (fun c => String.eqb (fst c) col) (columns df) with
    | Some v => Some v
    | None => if String.eqb col' col then Some (repeat None (nrows df)) else None
    end.
Proof.
  unfold ensure_column. rewrite has_column_find.
  destruct (String.eqb_spec col' col) as [->|Hne].
  - destruct (find _ (columns df)) eqn:Hf; simpl.
    + rewrite Hf. reflexivity.
    + rewrite find_snoc, Hf. simpl. rewrite String.eqb_refl. reflexivity.
  - destruct (find (fun c => String.eqb (fst c) col') (columns df));
      [destruct (find _ (columns df)); reflexivity|].
    simpl. rewrite find_snoc. simpl.
    destruct (find _ (columns df)); simpl; [reflexivity|].
    destruct (String.eqb_spec col' col); [contradiction|reflexivity].
Qed.

Lemma ensure_column_nrows (df : RawFrame) (col : string) :
  nrows (ensure_column df col) = nrows df.
Proof. unfold ensure_column. destruct (has_column col df); reflexivity. Qed.

(** After the loop, an expected column holds the cells read from the file,
    or nulls when the file lacks it. *)
Lemma getitem_normalized (df : RawFrame) (col : string) :
  In col expected_cols ->
  getitem col (fold_left ensure_column expected_cols df)
  = match snd <$> find (fun c => String.eqb (fst c) col) (columns df) with
    | Some v => v
    | None => repeat None (nrows df)
    end.
Proof.
  intros Hcol. rewrite getitem_find. simpl.
  rewrite !ensure_column_find, !ensure_column_nrows.
  destruct (snd <$> find _ (columns df)); [reflexivity|].
  simpl in Hcol. destruct Hcol as [<-|[<-|[<-|[]]]]; reflexivity.
Qed.

Lemma getitem_loaded (f : csv) (col : string) :
  In col expected_cols ->
  getitem col (fold_left ensure_column expected_cols (read_csv f))
  = map (field_of f col) (records f).
Proof.
  intros Hcol. rewrite (getitem_normalized _ _ Hcol).
  pose proof (find_imap_column f col 0 (header f)) as Hfind.
  cbn [Nat.add] in Hfind.
  unfold read_csv at 1; cbn [columns nrows].
  rewrite Hfind. unfold field_of.
  destruct (index_of col (header f)) as [j|]; simpl; [reflexivity|].
  induction (records f) as [|rec recs IH]; simpl; [|rewrite IH]; reflexivity.
Qed.

Lemma frame_of_columns_map {A} (fd fc : A -> option string) (fa : A -> float) (l : list A) :
  frame_of_columns (map fd l) (map fc l) (map fa l)
  = map (fun x => {| date := datecell_of_text (fd x); category := fc x; amount := fa x |}) l.
Proof. induction l as [|x l IH]; simpl; [|rewrite IH]; reflexivity. Qed.

Section Store.
Context `{Converters}.

(** [load_data] on an existing file: one row per record, the file as it was. *)
Lemma load_data_existing (f : csv) :
  load_data (Some f) = (map (row_of_record f) (records f), Some f).
Proof.
  unfold load_data.
  rewrite !getitem_loaded by (simpl; auto).
  rewrite map_map, frame_of_columns_map. reflexivity.
Qed.

(** C5: without a store, [load_data] returns the frame without rows
    and leaves a store holding the header [date, category, amount] and no
    record; with a store whose records have one field for each column of
    its header, and whose amounts are no truth values, it leaves the store
    as it is and returns one row per record, none rejected: the amount of a
    row is the number its field parses to, and 0.0 when the field is
    missing or does not parse. *)
Theorem load_data_creates_store_and_coerces_amounts :
  load_data None
  = ([], Some {| header := ["date"; "category"; "amount"]; records := [] |})
  /\ forall f : csv,
      rectangular f ->
      numeric_amounts f ->
      snd (load_data (Some f)) = Some f
      /\ length (fst (load_data (Some f))) = length (records f)
      /\ forall i rec,
          records f !! i = Some rec ->
          exists r,
            fst (load_data (Some f)) !! i = Some r
            /\ amount r = Some (nan_to_zero (field_of f "amount" rec ≫= to_numeric))
            /\ (field_of f "amount" rec ≫= to_numeric = None -> amount r = Some 0%Q).
Proof.
  split; [reflexivity|]. intros f _ _. rewrite load_data_existing. cbn [fst snd].
  split; [reflexivity|]. split; [apply length_map|].
  intros i rec Hi. rewrite list_lookup_fmap, Hi. cbn [fmap option_fmap option_map].
  eexists. split; [reflexivity|]. cbn [amount row_of_record].
  split; [reflexivity|]. intros Hbad. rewrite Hbad. reflexivity.
Qed.
End Store.

(** ** Grouping and sorting *)

Section GroupFacts.
Context {K : Type} (eqb ltb : K -> K -> bool).
Hypothesis eqb_eq : forall a b, eqb a b = true <-> a = b.
Hypothesis ltb_irrefl : forall a, ltb a a = false.
Hypothesis ltb_trans : forall a b c, ltb a b = true -> ltb b c = true -> ltb a c = true.
Hypothesis ltb_total : forall a b, ltb a b = false -> eqb a b = false -> ltb b a = true.

Lemma eqb_refl_key (a : K) : eqb a a = true.
Proof. apply eqb_eq. reflexivity. Qed.

Lemma eqb_sym_key (a b : K) : eqb a b = eqb b a.
Proof.
  destruct (eqb a b) eqn:E1, (eqb b a) eqn:E2; try reflexivity.
  - apply eqb_eq in E1; subst. rewrite eqb_refl_key in E2. discriminate.
  - apply eqb_eq in E2; subst. rewrite eqb_refl_key in E1. discriminate.
Qed.

Lemma ltb_not_eqb (a b : K) : ltb a b = true -> eqb a b = false.
Proof.
  intros Hlt. destruct (eqb a b) eqn:E; [|reflexivity].
  apply eqb_eq in E; subst. rewrite ltb_irrefl in Hlt. discriminate.
Qed.

Lemma lookup_group_below (k : K) (l : list (K * Q)) :
  Forall (fun y => ltb k (fst y) = true) l -> lookup_group eqb k l = None.
Proof.
  induction 1 as [|[k' v'] l Hk _ IH]; simpl; [reflexivity|].
  simpl in Hk. rewrite (ltb_not_eqb _ _ Hk). exact IH.
Qed.

Lemma group_add_keys (k : K) (v : Q) (acc : list (K * Q)) (P : K -> Prop) :
  P k -> Forall (fun y => P (fst y)) acc -> Forall (fun y => P (fst y)) (group_add eqb ltb k v acc).
Proof.
  intros Hk. induction 1 as [|[k' v'] acc Hk' Hacc IH]; simpl.
  - constructor; [exact Hk|constructor].
  - destruct (eqb k k'); [constructor; assumption|].
    destruct (ltb k k'); constructor; auto.
Qed.

Lemma group_add_ascending (k : K) (v : Q) (acc : list (K * Q)) :
  ascending_keys ltb acc -> ascending_keys ltb (group_add eqb ltb k v acc).
Proof.
  unfold ascending_keys.
  induction 1 as [|[k' v'] acc Hacc IH Hk']; simpl.
  - constructor; constructor.
  - destruct (eqb k k') eqn:E; [constructor; assumption|].
    destruct (ltb k k') eqn:L.
    + constructor; [constructor; assumption|].
      constructor; [exact L|].
      eapply Forall_impl; [exact Hk'|]. intros y Hy. simpl in *. eapply ltb_trans; eauto.
    + constructor; [exact IH|].
      apply (group_add_keys k v acc (fun key => ltb k' key = true)).
      * apply ltb_total; [exact L|exact E].
      * exact Hk'.
Qed.

Lemma lookup_group_add_same (k : K) (v : Q) (acc : list (K * Q)) :
  ascending_keys ltb acc ->
  lookup_group eqb k (group_add eqb ltb k v acc)
  = Some (match lookup_group eqb k acc with
          | Some x => (x + v)%Q
          | None => v
          end).
Proof.
  unfold ascending_keys.
  induction 1 as [|[k' v'] acc Hacc IH Hk']; simpl.
  - rewrite eqb_refl_key. reflexivity.
  - destruct (eqb k k') eqn:E; simpl.
    + rewrite E. reflexivity.
    + destruct (ltb k k') eqn:L; simpl.
      * rewrite eqb_refl_key. rewrite lookup_group_below; [reflexivity|].
        eapply Forall_impl; [exact Hk'|]. intros y Hy. simpl in *. eapply ltb_trans; eauto.
      * rewrite E. exact IH.
Qed.

Lemma lookup_group_add_other (k k' : K) (v : Q) (acc : list (K * Q)) :
  eqb k k' = false ->
  lookup_group eqb k (group_add eqb ltb k' v acc) = lookup_group eqb k acc.
Proof.
  intros Hne. induction acc as [|[k0 v0] acc IH]; simpl.
  - rewrite Hne. reflexivity.
  - destruct (eqb k' k0) eqn:E; simpl.
    + apply eqb_eq in E; subst k0. rewrite Hne. reflexivity.
    + destruct (ltb k' k0); simpl; [rewrite Hne; reflexivity|].
      rewrite IH. reflexivity.
Qed.

Lemma lookup_group_in (k : K) (v : Q) (l : list (K * Q)) :
  ascending_keys ltb l -> (In (k, v) l <-> lookup_group eqb k l = Some v).
Proof.
  unfold ascending_keys.
  induction 1 as [|[k' v'] l Hl IH Hk']; simpl; [split; [tauto|discriminate]|].
  destruct (eqb k k') eqn:E.
  - apply eqb_eq in E; subst k'. split.
    + intros [Heq|Hin]; [congruence|].
      rewrite Forall_forall in Hk'. specialize (Hk' _ (proj2 (list_elem_of_In _ _) Hin)).
      simpl in Hk'. rewrite ltb_irrefl in Hk'. discriminate.
    + intros [= ->]. left; reflexivity.
  - rewrite <- IH. split; [|tauto].
    intros [Heq|Hin]; [|exact Hin].
    injection Heq as -> ->. rewrite eqb_refl_key in E. discriminate.
Qed.

Lemma ascending_keys_NoDup (l : list (K * Q)) :
  ascending_keys ltb l -> List.NoDup (map fst l).
Proof.
  unfold ascending_keys.
  induction 1 as [|[k v] l Hl IH Hk]; simpl; constructor; [|exact IH].
  intros Hin. apply in_map_iff in Hin. destruct Hin as [[k' v'] [Hk' Hin]].
  simpl in Hk'; subst k'.
  rewrite Forall_forall in Hk. specialize (Hk _ (proj2 (list_elem_of_In _ _) Hin)).
  simpl in Hk. rewrite ltb_irrefl in Hk. discriminate.
Qed.
Lemma has_key_cons (k : K) (kx : option K * float) (rows : list (option K * float)) :
  has_key k (kx :: rows) <-> fst kx = Some k \/ has_key k rows.
Proof.
  unfold has_key. split.
  - intros [x [Heq|Hin]]; [left; subst kx; reflexivity|right; exists x; exact Hin].
  - intros [Heq|[x Hin]].
    + exists (snd kx). left. destruct kx; simpl in *; congruence.
    + exists x. right. exact Hin.
Qed.

Lemma has_key_dec (k : K) (rows : list (option K * float)) :
  has_key k rows \/ ~ has_key k rows.
Proof.
  induction rows as [|[[k'|] x] rows IH]; [right; intros [y []]| |];
    rewrite has_key_cons; simpl.
  - destruct (eqb k' k) eqn:E.
    + apply eqb_eq in E; subst. left; left; reflexivity.
    + destruct IH as [IH|IH]; [left; right; exact IH|right].
      intros [[= ->]|Hk]; [rewrite eqb_refl_key in E; discriminate|tauto].
  - destruct IH as [IH|IH]; [left; right; exact IH|right].
    intros [Heq|Hk]; [discriminate|tauto].
Qed.

(** The groups after a fold over more rows, from ascending groups. *)
Lemma groupby_fold (rows : list (option K * float)) (acc : list (K * Q)) :
  ascending_keys ltb acc ->
  ascending_keys ltb
    (fold_left (fun acc kv => match fst kv with
                              | Some k => group_add eqb ltb k (nan_to_zero (snd kv)) acc
                              | None => acc
                              end) rows acc)
  /\ forall k,
      (lookup_group eqb k
         (fold_left (fun acc kv => match fst kv with
                                   | Some k => group_add eqb ltb k (nan_to_zero (snd kv)) acc
                                   | None => acc
                                   end) rows acc) = None
       <-> lookup_group eqb k acc = None /\ ~ has_key k rows)
      /\ forall v,
          lookup_group eqb k
            (fold_left (fun acc kv => match fst kv with
                                      | Some k => group_add eqb ltb k (nan_to_zero (snd kv)) acc
                                      | None => acc
                                      end) rows acc) = Some v ->
          (v == default 0 (lookup_group eqb k acc) + key_total eqb k rows)%Q.
Proof.
  revert acc; induction rows as [|[[k'|] x] rows IH]; intros acc Hacc; simpl.
  - split; [exact Hacc|]. intros k. split.
    + split; [intros Hk; split; [exact Hk|intros [y []]]|tauto].
    + intros v Hv. rewrite Hv. simpl. ring.
  - destruct (IH _ (group_add_ascending k' (nan_to_zero x) acc Hacc)) as [Hasc Hlook].
    split; [exact Hasc|]. intros k. destruct (Hlook k) as [Hnone Hsome]. clear Hlook.
    rewrite has_key_cons. simpl.
    destruct (eqb k' k) eqn:E.
    + apply eqb_eq in E; subst k'.
      rewrite (lookup_group_add_same k (nan_to_zero x) acc Hacc) in Hnone, Hsome.
      split.
      * split; [intros Hk; apply Hnone in Hk; destruct Hk; discriminate|].
        intros [_ Hno]. exfalso. apply Hno. left; reflexivity.
      * intros v Hv. rewrite (Hsome v Hv).
        destruct (lookup_group eqb k acc); simpl; ring.
    + assert (E' : eqb k k' = false) by (rewrite eqb_sym_key; exact E).
      rewrite (lookup_group_add_other k k' (nan_to_zero x) acc E') in Hnone, Hsome.
      split; [|exact Hsome].
      rewrite Hnone. split; [intros [Ha Hb]; split; [exact Ha|]|tauto].
      intros [Heq|Hk]; [|tauto]. injection Heq as ->.
      rewrite eqb_refl_key in E. discriminate.
  - destruct (IH _ Hacc) as [Hasc Hlook].
    split; [exact Hasc|]. intros k. destruct (Hlook k) as [Hnone Hsome].
    rewrite has_key_cons. simpl. split; [|exact Hsome].
    rewrite Hnone. split; [intros [Ha Hb]; split; [exact Ha|]|tauto].
    intros [Heq|Hk]; [discriminate|tauto].
Qed.

(** [groupby_sum]: one group per key that occurs, holding the sum of the
    values of its rows, keys ascending without repeats. *)
Lemma groupby_sum_groups (rows : list (option K * float)) :
  ascending_keys ltb (groupby_sum eqb ltb rows)
  /\ forall k,
      (has_key k rows <-> exists v, In (k, v) (groupby_sum eqb ltb rows))
      /\ forall v, In (k, v) (groupby_sum eqb ltb rows) -> (v == key_total eqb k rows)%Q.
Proof.
  unfold groupby_sum.
  destruct (groupby_fold rows [] (SSorted_nil _)) as [Hasc Hlook].
  split; [exact Hasc|]. intros k. destruct (Hlook k) as [Hnone Hsome]. split.
  - split.
    + intros Hk.
      destruct (lookup_group eqb k (fold_left _ rows [])) as [v|] eqn:Hv.
      * exists v. apply (lookup_group_in k v _ Hasc). exact Hv.
      * destruct (proj1 Hnone eq_refl) as [_ Hno]. contradiction.
    + intros [v Hin]. apply (lookup_group_in k v _ Hasc) in Hin.
      destruct (has_key_dec k rows) as [Hk|Hk]; [exact Hk|].
      rewrite (proj2 Hnone (conj eq_refl Hk)) in Hin. discriminate.
  - intros v Hin. apply (lookup_group_in k v _ Hasc) in Hin.
    rewrite (Hsome v Hin). simpl. ring.
Qed.

(** [sort_index] leaves groups that are ascending by key as they are. *)
Lemma sort_index_ascending (l : list (K * Q)) :
  ascending_keys ltb l -> sort_index ltb l = l.
Proof.
  unfold ascending_keys, sort_index.
  induction 1 as [|x l Hl IH Hx]; simpl; [reflexivity|]. rewrite IH.
  destruct l as [|y l']; simpl; [reflexivity|].
  inversion Hx as [|? ? Hxy _]; subst.
  destruct (ltb (fst y) (fst x)) eqn:E; [|reflexivity].
  pose proof (ltb_trans _ _ _ Hxy E) as Hxx. rewrite ltb_irrefl in Hxx.
  discriminate.
Qed.
End GroupFacts.

Lemma insert_desc_perm {K} (x : K * Q) (l : list (K * Q)) :
  Permutation (insert_desc x l) (x :: l).
Proof.
  induction l as [|y l IH]; simpl; [reflexivity|].
  destruct (Qle_bool (snd y) (snd x)); [reflexivity|].
  rewrite IH. apply perm_swap.
Qed.

Lemma sort_values_desc_perm {K} (l : list (K * Q)) :
  Permutation (sort_values_desc l) l.
Proof.
  induction l as [|x l IH]; simpl; [reflexivity|].
  unfold sort_values_desc in *. simpl. rewrite insert_desc_perm, IH. reflexivity.
Qed.

Lemma insert_desc_descending {K} (x : K * Q) (l : list (K * Q)) :
  descending_values l -> descending_values (insert_desc x l).
Proof.
  unfold descending_values.
  induction 1 as [|y l Hl IH Hy]; simpl; [constructor; constructor|].
  destruct (Qle_bool (snd y) (snd x)) eqn:E.
  - apply Qle_bool_iff in E. constructor; [constructor; assumption|].
    constructor; [exact E|].
    eapply Forall_impl; [exact Hy|]. intros z Hz. simpl in *. lra.
  - constructor; [exact IH|].
    assert (Hx : (snd x <= snd y)%Q).
    { destruct (Qlt_le_dec (snd x) (snd y)) as [Hlt|Hle]; [lra|].
      apply Qle_bool_iff in Hle. congruence. }
    apply Forall_forall. intros z Hz.
    apply list_elem_of_In in Hz.
    apply (Permutation_in _ (insert_desc_perm x l)) in Hz.
    destruct Hz as [<-|Hz]; [exact Hx|].
    rewrite Forall_forall in Hy. apply Hy. apply list_elem_of_In. exact Hz.
Qed.

Lemma sort_values_desc_descending {K} (l : list (K * Q)) :
  descending_values (sort_values_desc l).
Proof.
  induction l as [|x l IH]; [constructor|].
  apply (insert_desc_descending x _ IH).
Qed.

(** ** Rounding, sums and maxima *)

Lemma round2_rounded (q : Q) : rounded_2dp (round2 q).
Proof.
  exists (round_half_even (q * 100)). unfold round2. rewrite Qred_correct.
  unfold Qeq, Qdiv, Qmult, Qinv, inject_Z; simpl. lia.
Qed.

Lemma round2_zero : round2 0 = 0%Q.
Proof. reflexivity. Qed.

Lemma round_half_even_close (q : Q) :
  (q - (1 # 2) <= inject_Z (round_half_even q) <= q + (1 # 2))%Q.
Proof.
  unfold round_half_even.
  pose proof (Qfloor_le q) as Hlo. pose proof (Qlt_floor q) as Hhi.
  rewrite inject_Z_plus in Hhi. change (inject_Z 1) with 1%Q in Hhi.
  set (f := Qfloor q) in *. clearbody f.
  destruct (Qcompare_spec (q - inject_Z f) (1 # 2)) as [E|L|G].
  - destruct (Z.even f);
      [|rewrite inject_Z_plus; change (inject_Z 1) with 1%Q]; split; lra.
  - split; lra.
  - rewrite inject_Z_plus. change (inject_Z 1) with 1%Q. split; lra.
Qed.

(** [round2] moves a number by at most half a hundredth. *)
Lemma round2_close (q : Q) : (q - (1 # 200) <= round2 q <= q + (1 # 200))%Q.
Proof.
  unfold round2. rewrite Qred_correct.
  pose proof (round_half_even_close (q * 100)) as Hn.
  revert Hn. generalize (round_half_even (q * 100)). intros n Hn.
  assert (E : (inject_Z n / 100 == inject_Z n * (1 # 100))%Q) by (field).
  rewrite E. destruct Hn as [Hlo Hhi]. split; lra.
Qed.

Lemma series_sum_nulls (l : list float) :
  Forall (fun x => x = None) l -> series_sum l = 0%Q.
Proof. induction 1 as [|x l Hx _ IH]; simpl; [|rewrite Hx, IH]; reflexivity. Qed.

Lemma series_count_nulls (l : list float) :
  Forall (fun x => x = None) l -> series_count l = O.
Proof. induction 1 as [|x l Hx _ IH]; simpl; [|rewrite Hx, IH]; reflexivity. Qed.

Lemma Qmax_cases (a b : Q) :
  (Qmax a b = a \/ Qmax a b = b) /\ (a <= Qmax a b)%Q /\ (b <= Qmax a b)%Q.
Proof.
  unfold Qmax. destruct (Qle_bool a b) eqn:E.
  - apply Qle_bool_iff in E. repeat split; [right; reflexivity|exact E|lra].
  - assert (b <= a)%Q.
    { destruct (Qlt_le_dec b a) as [Hlt|Hle]; [lra|]. apply Qle_bool_iff in Hle. congruence. }
    repeat split; [left; reflexivity|lra|assumption].
Qed.

Lemma series_max_spec (l : list float) :
  match series_max l with
  | Some m => In (Some m) l /\ forall a, In (Some a) l -> (a <= m)%Q
  | None => forall a, ~ In (Some a) l
  end.
Proof.
  induction l as [|[a|] l IH]; simpl; [tauto| |].
  - destruct (series_max l) as [b|].
    + destruct IH as [Hin Hle]. destruct (Qmax_cases a b) as [Hor [Ha Hb]]. split.
      * destruct Hor as [->| ->]; [left; reflexivity|right; exact Hin].
      * intros c [[= <-]|Hc]; [exact Ha|]. specialize (Hle c Hc). lra.
    + split; [left; reflexivity|].
      intros c [[= <-]|Hc]; [lra|]. destruct (IH c Hc).
  - destruct (series_max l) as [b|].
    + destruct IH as [Hin Hle]. split; [right; exact Hin|].
      intros c [Hc|Hc]; [discriminate|apply Hle; exact Hc].
    + intros c [Hc|Hc]; [discriminate|apply (IH c Hc)].
Qed.

Lemma series_count_some (l : list float) :
  series_count l <> O -> exists a, In (Some a) l.
Proof.
  induction l as [|[a|] l IH]; simpl; intros Hcount; [contradiction| |].
  - exists a. left; reflexivity.
  - destruct (IH Hcount) as [a Ha]. exists a. right; exact Ha.
Qed.

(** [series_max] is the greatest of the non-null cells. *)
Lemma series_max_greatest (l : list float) :
  series_count l <> O ->
  exists m, series_max l = Some m
            /\ In (Some m) l
            /\ forall a, In (Some a) l -> (a <= m)%Q.
Proof.
  intros Hcount. pose proof (series_max_spec l) as Hspec.
  destruct (series_max l) as [m|].
  - exists m. split; [reflexivity|exact Hspec].
  - destruct (series_count_some l Hcount) as [a Ha]. destruct (Hspec a Ha).
Qed.

(** ** [compute_summary] *)

Lemma string_ltb_irrefl (s : string) : String.ltb s s = false.
Proof.
  unfold String.ltb. destruct (String.compare s s) eqn:E; try reflexivity.
  apply String_as_OT.cmp_lt in E. destruct (String_as_OT.lt_not_eq _ _ E). reflexivity.
Qed.

Lemma string_ltb_trans (a b c : string) :
  String.ltb a b = true -> String.ltb b c = true -> String.ltb a c = true.
Proof.
  unfold String.ltb. intros Hab Hbc.
  destruct (String.compare a b) eqn:E1; try discriminate.
  destruct (String.compare b c) eqn:E2; try discriminate.
  apply String_as_OT.cmp_lt in E1, E2.
  pose proof (String_as_OT.lt_trans _ _ _ E1 E2) as E3.
  apply String_as_OT.cmp_lt in E3. unfold String_as_OT.cmp in E3. rewrite E3. reflexivity.
Qed.

Lemma string_ltb_total (a b : string) :
  String.ltb a b = false -> String.eqb a b = false -> String.ltb b a = true.
Proof.
  unfold String.ltb. rewrite (String.compare_antisym b a). intros Hlt Hne.
  destruct (String.compare a b) eqn:E; try discriminate; [|reflexivity].
  apply String.compare_eq_iff in E. subst. rewrite String.eqb_refl in Hne. discriminate.
Qed.

Lemma has_key_category (c : string) (df : DataFrame) :
  has_key c (category_rows df) <-> exists r, In r df /\ category r = Some c.
Proof.
  unfold has_key, category_rows. split.
  - intros [x Hin]. apply in_map_iff in Hin. destruct Hin as [r [Heq Hin]].
    exists r. split; [exact Hin|congruence].
  - intros [r [Hin Hc]]. exists (amount r). apply in_map_iff.
    exists r. split; [rewrite Hc; reflexivity|exact Hin].
Qed.

Lemma key_total_category (c : string) (df : DataFrame) :
  key_total String.eqb c (category_rows df) = category_total c df.
Proof.
  unfold category_total, category_rows.
  induction df as [|r df IH]; [reflexivity|].
  cbn [map key_total List.filter].
  destruct (category r) as [k|] eqn:Hk; cbn [fst snd].
  - case_bool_decide as Hd.
    + injection Hd as ->. rewrite String.eqb_refl. cbn [map series_sum].
      rewrite IH. reflexivity.
    + destruct (String.eqb_spec k c); [congruence|]. exact IH.
  - case_bool_decide; [discriminate|exact IH].
Qed.

(** The groups of [by_category]: one per category that occurs, holding the
    sum of its amounts, without repeats, descending by sum. *)
Lemma category_groups (df : DataFrame) :
  let groups := sort_values_desc (groupby_sum String.eqb String.ltb (category_rows df)) in
  descending_values groups
  /\ List.NoDup (map fst groups)
  /\ forall c,
      ((exists r, In r df /\ category r = Some c) <-> exists v, In (c, v) groups)
      /\ forall v, In (c, v) groups -> (v == category_total c df)%Q.
Proof.
  intros groups.
  destruct (groupby_sum_groups String.eqb String.ltb String.eqb_eq string_ltb_irrefl
              string_ltb_trans string_ltb_total (category_rows df)) as [Hasc Hkeys].
  pose proof (sort_values_desc_perm
                (groupby_sum String.eqb String.ltb (category_rows df))) as Hperm.
  fold groups in Hperm.
  split; [apply sort_values_desc_descending|]. split.
  - apply (Permutation_NoDup (Permutation_map fst (Permutation_sym Hperm))).
    apply (ascending_keys_NoDup String.ltb string_ltb_irrefl _ Hasc).
  - intros c. destruct (Hkeys c) as [Hhas Hval]. split.
    + rewrite <- has_key_category, Hhas.
      split; intros [v Hin]; exists v.
      * apply (Permutation_in _ (Permutation_sym Hperm)). exact Hin.
      * apply (Permutation_in _ Hperm). exact Hin.
    + intros v Hin. rewrite <- key_total_category. apply Hval.
      apply (Permutation_in _ Hperm). exact Hin.
Qed.

Section Summary.
Context `{Converters}.

(** C10: [compute_summary] never raises; on a frame whose amounts are
    all null, empty or not, the count is 0, the division is skipped, and
    the total, the average and the maximum are 0.0. *)
Theorem compute_summary_guards_the_division (df : DataFrame) :
  (exists s, compute_summary df = Ok s)
  /\ (Forall (fun r => amount r = None) df ->
      exists s, compute_summary df = Ok s
                /\ count s = O
                /\ total s = Some 0%Q
                /\ average s = Some 0%Q
                /\ max s = Some 0%Q).
Proof.
  split.
  - unfold compute_summary. destruct df as [|r df]; [eexists; reflexivity|].
    cbv beta iota delta [empty].
    destruct (series_count (map amount (r :: df))); simpl; eexists; reflexivity.
  - intros Hnull. unfold compute_summary. destruct df as [|r df]; [eexists; repeat split|].
    cbv beta iota delta [empty].
    assert (Hnulls : Forall (fun x : float => x = None) (map amount (r :: df))).
    { apply Forall_map. exact Hnull. }
    rewrite (series_count_nulls _ Hnulls), (series_sum_nulls _ Hnulls).
    simpl. eexists. repeat split.
Qed.

(** C3, as amended: the summary of the frame without rows is all zeros
    with no category; of any other frame, the count is the number of
    non-null amounts, the maximum the greatest amount rounded to 2 decimals,
    and the total and the average are numbers of 2 decimals; [by_category]
    holds one entry per category, in descending order of its sums, so
    Bills: 80 before Food: 50.  On amounts that binary floating point adds
    without rounding, the total is the sum of the amounts rounded to 2
    decimals, the average is the total over the count rounded to a nearest
    number of 2 decimals, and the entry of a category is the sum of its
    amounts as it is, not rounded. *)
Theorem compute_summary_statistics (df : DataFrame) :
  df <> [] ->
  compute_summary []
  = Ok {| total := Some 0%Q; average := Some 0%Q; max := Some 0%Q;
          count := 0; by_category := [] |}
  /\ exists s groups,
      compute_summary df = Ok s
      /\ count s = series_count (map amount df)
      /\ (count s <> O ->
          exists m, max s = Some (round2 m)
                    /\ In (Some m) (map amount df)
                    /\ forall a, In (Some a) (map amount df) -> (a <= m)%Q)
      /\ (exists t a m, total s = Some t /\ average s = Some a /\ max s = Some m
                        /\ rounded_2dp t /\ rounded_2dp a /\ rounded_2dp m)
      /\ by_category s = map (fun kv => (fst kv, Some (snd kv))) groups
      /\ descending_values groups
      /\ List.NoDup (map fst groups)
      /\ (forall c, (exists r, In r df /\ category r = Some c) <-> exists v, In (c, v) groups)
      /\ (forall k : nat,
            binary_exact k (map amount df) ->
            total s = Some (round2 (series_sum (map amount df)))
            /\ (count s <> O ->
                exists a,
                  average s = Some a
                  /\ (series_sum (map amount df) / inject_Z (Z.of_nat (count s)) - (1 # 200)
                      <= a
                      <= series_sum (map amount df) / inject_Z (Z.of_nat (count s))
                         + (1 # 200))%Q)
            /\ forall c v, In (c, v) groups -> (v == category_total c df)%Q)
      /\ by_category <$> result_value
            (compute_summary [{| date := DateNull; category := Some "Food";
                                 amount := Some 50%Q |};
                              {| date := DateNull; category := Some "Bills";
                                 amount := Some 80%Q |}])
         = Some [("Bills", Some 80%Q); ("Food", Some 50%Q)].
Proof.
  intros Hdf. split; [reflexivity|].
  destruct (category_groups df) as (Hdesc & Hnodup & Hgroups).
  unfold compute_summary. destruct df as [|r0 df0]; [contradiction|].
  cbv beta iota delta [empty]. set (df := r0 :: df0) in *.
  destruct (series_count (map amount df)) as [|n] eqn:Hcount.
  - simpl. eexists _, _. split; [reflexivity|]. simpl.
    split; [reflexivity|]. split; [intros Hn; contradiction|].
    split; [eexists _, _, _; repeat split; try reflexivity; try apply round2_rounded|].
    split; [reflexivity|]. split; [exact Hdesc|]. split; [exact Hnodup|].
    split; [intros c; apply Hgroups|]. split; [|reflexivity].
    intros k _. split; [reflexivity|]. split; [intros Hn; contradiction|].
    intros c v Hin. apply Hgroups. exact Hin.
  - destruct (series_max_greatest (map amount df)) as [m [Hm [Hin Hle]]];
      [rewrite Hcount; discriminate|].
    cbn [Nat.eqb py_div]. rewrite bind_Ok, Hm.
    eexists _, _. split; [reflexivity|]. simpl.
    split; [reflexivity|]. split; [intros _; exists m; repeat split; assumption|].
    split; [eexists _, _, _; repeat split; try reflexivity; try apply round2_rounded|].
    split; [reflexivity|]. split; [exact Hdesc|]. split; [exact Hnodup|].
    split; [intros c; apply Hgroups|]. split; [|reflexivity].
    intros k _. split; [reflexivity|]. split.
    + intros _. eexists. split; [reflexivity|]. apply round2_close.
    + intros c v Hc. apply Hgroups. exact Hc.
Qed.
End Summary.

(** C3, the claim as stated fails: the entry of [by_category] is the sum
    0.125 itself, which is not a number of 2 decimals. *)
Lemma compute_summary_by_category_not_rounded :
  exists s,
    compute_summary [row "2024-01-15" "Food" 0.125] = Ok s
    /\ by_category s = [("Food", Some 0.125%Q)]
    /\ ~ rounded_2dp 0.125.
Proof.
  eexists. split; [reflexivity|]. split; [reflexivity|].
  intros [n Hn]. unfold Qeq in Hn. simpl in Hn. lia.
Qed.

Lemma compute_summary_statistics_witness :
  exists s,
    compute_summary [row "2024-01-15" "Food" 10; row "2024-01-20" "Bills" 30] = Ok s
    /\ total s = Some 40%Q /\ count s = 2%nat.
Proof.
  destruct (compute_summary_statistics
              [row "2024-01-15" "Food" 10; row "2024-01-20" "Bills" 30])
    as (_ & s & groups & Hs & Hc & _ & _ & _ & _ & _ & _ & Hexact & _); [discriminate|].
  destruct (Hexact 0%nat) as (Ht & _); [binary_exact_lit|].
  exists s. split; [exact Hs|]. split; [exact Ht|exact Hc].
Defined.

Example compute_summary_two_amounts :
  compute_summary [row "2024-01-15" "Food" 10; row "2024-01-20" "Bills" 30]
  = Ok {| total := Some 40%Q; average := Some 20%Q; max := Some 30%Q; count := 2;
          by_category := [("Bills", Some 30%Q); ("Food", Some 10%Q)] |}.
Proof. reflexivity. Qed.

Example compute_summary_lists_Bills_before_Food :
  by_category <$> result_value
    (compute_summary [row "2024-01-15" "Food" 50; row "2024-01-20" "Bills" 80])
  = Some [("Bills", Some 80%Q); ("Food", Some 50%Q)].
Proof. reflexivity. Qed.

Example compute_summary_null_amounts :
  compute_summary [{| date := DateStr "2024-01-15"; category := Some "Food"; amount := None |}]
  = Ok {| total := Some 0%Q; average := Some 0%Q; max := Some 0%Q; count := 0;
          by_category := [("Food", Some 0%Q)] |}.
Proof. reflexivity. Qed.

(** ** Least squares *)

Lemma Qsum_app (l1 l2 : list Q) : (Qsum (l1 ++ l2) == Qsum l1 + Qsum l2)%Q.
Proof. induction l1 as [|x l1 IH]; simpl; [ring|rewrite IH; ring]. Qed.

Lemma Qsum_nonneg (l : list Q) : Forall (fun x => 0 <= x)%Q l -> (0 <= Qsum l)%Q.
Proof. induction 1 as [|x l Hx _ IH]; simpl; lra. Qed.

Lemma Qsquare_nonneg (z : Q) : (0 <= z * z)%Q.
Proof. nra. Qed.

Section LeastSquares.
Variable pts : list (Q * Q).

Let n : Q := inject_Z (Z.of_nat (length pts)).
Let Sx : Q := Qsum (map fst pts).
Let Sy : Q := Qsum (map snd pts).
Let Sxx : Q := Qsum (map (fun p => fst p * fst p)%Q pts).
Let Sxy : Q := Qsum (map (fun p => fst p * snd p)%Q pts).
Let Syy : Q := Qsum (map (fun p => snd p * snd p)%Q pts).

Lemma sse_expand (a b : Q) :
  (sse a b pts
   == Syy - 2 * a * Sy - 2 * b * Sxy + a * a * n + 2 * a * b * Sx + b * b * Sxx)%Q.
Proof.
  unfold sse, n, Sx, Sy, Sxx, Sxy, Syy. clear.
  induction pts as [|[x y] l IH]; [simpl; ring|].
  cbn [map Qsum fold_right length fst snd]. unfold Qsum in IH. rewrite IH.
  rewrite Nat2Z.inj_succ, <- Z.add_1_r, inject_Z_plus. simpl (inject_Z 1). ring.
Qed.

Lemma centred_products (xm ym : Q) :
  (Qsum (map (fun p => (fst p - xm) * (snd p - ym)) pts)
   == Sxy - xm * Sy - ym * Sx + n * xm * ym)%Q.
Proof.
  unfold n, Sx, Sy, Sxy. clear.
  induction pts as [|[x y] l IH]; [simpl; ring|].
  cbn [map Qsum fold_right length fst snd]. unfold Qsum in IH. rewrite IH.
  rewrite Nat2Z.inj_succ, <- Z.add_1_r, inject_Z_plus. simpl (inject_Z 1). ring.
Qed.

Lemma centred_squares (xm : Q) :
  (Qsum (map (fun p => (fst p - xm) * (fst p - xm)) pts)
   == Sxx - 2 * xm * Sx + n * xm * xm)%Q.
Proof.
  unfold n, Sx, Sxx. clear.
  induction pts as [|[x y] l IH]; [simpl; ring|].
  cbn [map Qsum fold_right length fst snd]. unfold Qsum in IH. rewrite IH.
  rewrite Nat2Z.inj_succ, <- Z.add_1_r, inject_Z_plus. simpl (inject_Z 1). ring.
Qed.

Lemma centred_squares_nonneg (xm : Q) :
  (0 <= Qsum (map (fun p => (fst p - xm) * (fst p - xm)) pts))%Q.
Proof.
  apply Qsum_nonneg. apply Forall_map. apply Forall_forall. intros p _.
  apply Qsquare_nonneg.
Qed.

(** The centred fit minimises the sum of squared errors. *)
Lemma centred_fit_is_least_squares (a b : Q) :
  (0 < n)%Q ->
  (0 < Qsum (map (fun p => (fst p - Sx / n) * (fst p - Sx / n)) pts))%Q ->
  (b == Qsum (map (fun p => (fst p - Sx / n) * (snd p - Sy / n)) pts)
        / Qsum (map (fun p => (fst p - Sx / n) * (fst p - Sx / n)) pts))%Q ->
  (a == Sy / n - Sx / n * b)%Q ->
  ols_line a b pts.
Proof.
  intros Hn Hpos Hb Ha a' b'.
  rewrite !sse_expand.
  rewrite centred_products in Hb. rewrite centred_squares in Hb, Hpos.
  set (xm := (Sx / n)%Q) in *. set (ym := (Sy / n)%Q) in *.
  assert (Hxm : (xm * n == Sx)%Q) by (unfold xm; field; lra).
  assert (Hym : (ym * n == Sy)%Q) by (unfold ym; field; lra).
  set (D := (Sxx - 2 * xm * Sx + n * xm * xm)%Q) in *.
  assert (HbD : (b * D == Sxy - xm * Sy - ym * Sx + n * xm * ym)%Q).
  { rewrite Hb. field. lra. }
  (* normal equations *)
  assert (N1 : (n * a + Sx * b == Sy)%Q).
  { rewrite Ha, <- Hxm, <- Hym. ring. }
  assert (N2 : (Sx * a + Sxx * b == Sxy)%Q).
  { assert (E : (Sx * a + Sxx * b == Sx * ym + b * D)%Q).
    { unfold D. rewrite Ha. rewrite <- Hxm. ring. }
    rewrite E, HbD. rewrite <- Hxm, <- Hym. ring. }
  assert (Hdiff :
    ((Syy - 2 * a' * Sy - 2 * b' * Sxy + a' * a' * n + 2 * a' * b' * Sx + b' * b' * Sxx)
     - (Syy - 2 * a * Sy - 2 * b * Sxy + a * a * n + 2 * a * b * Sx + b * b * Sxx)
     == n * ((a' - a) + xm * (b' - b)) * ((a' - a) + xm * (b' - b))
        + D * (b' - b) * (b' - b))%Q).
  { rewrite <- N1, <- N2. unfold D. rewrite <- Hxm. ring. }
  pose proof (Qsquare_nonneg ((a' - a) + xm * (b' - b))) as Hs1.
  pose proof (Qsquare_nonneg (b' - b)) as Hs2.
  assert (H1 : (0 <= n * (((a' - a) + xm * (b' - b)) * ((a' - a) + xm * (b' - b))))%Q)
    by (apply Qmult_le_0_compat; lra).
  assert (H2 : (0 <= D * ((b' - b) * (b' - b)))%Q)
    by (apply Qmult_le_0_compat; lra).
  lra.
Qed.
End LeastSquares.

Lemma combine_fst_eq {A B} (l : list A) (k : list B) :
  length l = length k -> map fst (combine l k) = l.
Proof.
  revert k; induction l as [|x l IH]; intros [|y k] Hlen; simpl in *; try discriminate;
    [reflexivity|]. rewrite IH by lia. reflexivity.
Qed.

Lemma combine_snd_eq {A B} (l : list A) (k : list B) :
  length l = length k -> map snd (combine l k) = k.
Proof.
  revert k; induction l as [|x l IH]; intros [|y k] Hlen; simpl in *; try discriminate;
    [reflexivity|]. rewrite IH by lia. reflexivity.
Qed.

Lemma combine_length_eq {A B} (l : list A) (k : list B) :
  length l = length k -> length (combine l k) = length l.
Proof.
  revert k; induction l as [|x l IH]; intros [|y k] Hlen; simpl in *; try discriminate;
    [reflexivity|]. rewrite IH by lia. reflexivity.
Qed.

Lemma zip_with_maps (f g : Q -> Q) (X y : list Q) :
  zip_with Qmult (map f X) (map g y)
  = map (fun p => f (fst p) * g (snd p))%Q (combine X y).
Proof.
  revert y; induction X as [|x X IH]; intros [|v y]; simpl; try reflexivity.
  rewrite IH. reflexivity.
Qed.

Lemma map_fst_combine (h : Q -> Q) (X y : list Q) :
  length X = length y ->
  map h X = map (fun p => h (fst p)) (combine X y).
Proof.
  intros Hlen. rewrite <- (combine_fst_eq X y Hlen) at 1. rewrite map_map. reflexivity.
Qed.

(** [fit] returns a least-squares line of the points [(X_i, y_i)], when the
    feature is not constant. *)
Lemma fit_is_least_squares (X y : list Q) :
  length X = length y ->
  (0 < Qsum (map (fun x => (x - mean X) * (x - mean X)) X))%Q ->
  ols_line (intercept_ (fit X y)) (coef_ (fit X y)) (combine X y).
Proof.
  intros Hlen Hpos.
  assert (HX : X <> []).
  { intros ->. simpl in Hpos. lra. }
  assert (Hmx : mean X = (Qsum (map fst (combine X y))
                          / inject_Z (Z.of_nat (length (combine X y))))%Q).
  { unfold mean. rewrite combine_fst_eq, combine_length_eq by exact Hlen. reflexivity. }
  assert (Hmy : mean y = (Qsum (map snd (combine X y))
                          / inject_Z (Z.of_nat (length (combine X y))))%Q).
  { unfold mean. rewrite combine_snd_eq, combine_length_eq by exact Hlen.
    rewrite Hlen. reflexivity. }
  apply centred_fit_is_least_squares.
  - rewrite combine_length_eq by exact Hlen.
    destruct X as [|x X]; [contradiction|].
    change 0%Q with (inject_Z 0). rewrite <- Zlt_Qlt. simpl. lia.
  - rewrite <- Hmx. rewrite (map_fst_combine _ X y Hlen) in Hpos. exact Hpos.
  - rewrite <- Hmx, <- Hmy. unfold fit; simpl.
    rewrite zip_with_maps, map_map.
    rewrite (map_fst_combine (fun x => (x - mean X) * (x - mean X))%Q X y Hlen).
    reflexivity.
  - rewrite <- Hmx, <- Hmy. unfold fit; simpl. reflexivity.
Qed.

Lemma index_spread (n : nat) (c : Q) :
  (2 <= n)%nat ->
  (0 < Qsum (map (fun x => (x - c) * (x - c))
                 (map (fun i => inject_Z (Z.of_nat i)) (seq 0 n))))%Q.
Proof.
  intros Hn. destruct n as [|[|k]]; try lia.
  cbn [seq map Qsum fold_right].
  assert (Hrest : (0 <= fold_right Qplus 0
                          (map (fun x => (x - c) * (x - c))
                               (map (fun i => inject_Z (Z.of_nat i)) (seq 2 k))))%Q).
  { apply Qsum_nonneg. apply Forall_map. apply Forall_forall. intros x _.
    apply Qsquare_nonneg. }
  pose proof (Qsquare_nonneg (c - (1 # 2))) as Hc.
  change (inject_Z (Z.of_nat 0)) with 0%Q. change (inject_Z (Z.of_nat 1)) with 1%Q.
  lra.
Qed.

Lemma round2_comp (p q : Q) : (p == q)%Q -> round2 p = round2 q.
Proof.
  intros Hpq. unfold round2, round_half_even.
  assert (H100 : (p * 100 == q * 100)%Q) by (rewrite Hpq; reflexivity).
  rewrite (Qfloor_comp _ _ H100).
  assert (Hc : ((p * 100 - inject_Z (Qfloor (q * 100)) ?= 1 # 2)
                = (q * 100 - inject_Z (Qfloor (q * 100)) ?= 1 # 2))%Q).
  { apply Qcompare_comp; [rewrite H100|]; reflexivity. }
  rewrite Hc. reflexivity.
Qed.

(** ** [predict_next_month] *)

Section Forecast.
Context `{Converters}.

(** [_monthly_totals] never raises: the totals of the dated rows by month. *)
Lemma _monthly_totals_closed (df : DataFrame) :
  _monthly_totals df
  = Ok (sort_index Z.ltb (groupby_sum Z.eqb Z.ltb (month_rows df))).
Proof.
  unfold _monthly_totals, month_rows. destruct df as [|r df]; [reflexivity|].
  cbv beta iota delta [empty].
  pose proof (filter_no_text
                (fun r => match date r with DateNull => false | _ => true end)
                _ (parse_dates_no_text (r :: df))) as Hd.
  set (d := List.filter _ (parse_dates (r :: df))) in *.
  destruct d as [|r' d'] eqn:Ed; [reflexivity|]. rewrite <- Ed in *. clear Ed r' d'.
  rewrite (series_map_total dt_to_period_cell
             (fun c => match c with DateTime t => Some (to_period_M t) | _ => None end)).
  - rewrite bind_Ok. do 3 f_equal.
    clear Hd. induction d as [|x d IH]; simpl; [|rewrite IH]; reflexivity.
  - apply Forall_map. eapply Forall_impl; [exact Hd|].
    intros x. simpl. destruct (date x); simpl; [reflexivity|discriminate|reflexivity].
Qed.

(** The monthly totals come ascending by month, one per month of a dated
    row, each the sum of the amounts of the rows of its month. *)
Lemma _monthly_totals_groups (df : DataFrame) :
  exists monthly,
    _monthly_totals df = Ok monthly
    /\ ascending_keys Z.ltb monthly
    /\ forall p,
        (has_key p (month_rows df) <-> exists v, In (p, v) monthly)
        /\ forall v, In (p, v) monthly -> (v == key_total Z.eqb p (month_rows df))%Q.
Proof.
  assert (Htrans : forall a b c, (a <? b) = true -> (b <? c) = true -> (a <? c) = true).
  { intros a b c. rewrite !Z.ltb_lt. lia. }
  assert (Htotal : forall a b, (a <? b) = false -> (a =? b) = false -> (b <? a) = true).
  { intros a b. rewrite !Z.ltb_ge, Z.eqb_neq, Z.ltb_lt. lia. }
  destruct (groupby_sum_groups Z.eqb Z.ltb Z.eqb_eq Z.ltb_irrefl Htrans Htotal
              (month_rows df)) as [Hasc Hkeys].
  exists (groupby_sum Z.eqb Z.ltb (month_rows df)).
  rewrite _monthly_totals_closed.
  rewrite (sort_index_ascending Z.ltb Z.ltb_irrefl Htrans _ Hasc).
  split; [reflexivity|]. split; [exact Hasc|exact Hkeys].
Qed.

Lemma predict_next_month_closed (df : DataFrame) :
  predict_next_month df
  = Ok (forecast (sort_index Z.ltb (groupby_sum Z.eqb Z.ltb (month_rows df)))).
Proof. unfold predict_next_month. rewrite _monthly_totals_closed. reflexivity. Qed.

Lemma forecast_regression (monthly : list (Z * Q)) :
  (2 <= length monthly)%nat ->
  exists a b adv,
    ols_line a b (month_points monthly)
    /\ forecast monthly
       = (Some (round2 (a + b * inject_Z (Z.of_nat (length monthly)))), adv).
Proof.
  intros Hlen.
  set (X := map (fun i => inject_Z (Z.of_nat i)) (seq 0 (length monthly))).
  set (y := map snd monthly).
  exists (intercept_ (fit X y)), (coef_ (fit X y)).
  assert (Hols : ols_line (intercept_ (fit X y)) (coef_ (fit X y)) (month_points monthly)).
  { apply fit_is_least_squares.
    - unfold X, y. rewrite !length_map, length_seq. reflexivity.
    - apply index_spread. exact Hlen. }
  assert (Hround :
    round2 (predict (fit X y) (inject_Z (Z.of_nat (length monthly))))
    = round2 (intercept_ (fit X y)
              + coef_ (fit X y) * inject_Z (Z.of_nat (length monthly)))).
  { apply round2_comp. unfold predict. ring. }
  destruct monthly as [|m1 [|m2 rest]]; simpl in Hlen; try lia.
  unfold forecast. fold X y. rewrite Hround.
  destruct (Qle_bool _ 0); eexists; (split; [exact Hols|reflexivity]).
Qed.

(** C2, as amended: on a frame whose amounts binary floating point adds
    without rounding, and on its monthly totals, [predict_next_month]
    returns no prediction when there is no monthly total; the total of the
    month rounded to 2 decimals when there is one, which is the figure its
    advice quotes; and with n >= 2 monthly totals a number of 2 decimals
    nearest to the value at n of a least-squares line over the points
    (i, total_i), i = 0..n-1; the totals 100 then 200 give 300. *)
Theorem predict_next_month_forecasts
        (df : DataFrame) (monthly : list (Z * Q)) (k : nat) :
  _monthly_totals df = Ok monthly ->
  binary_exact k (map amount df) ->
  (monthly = [] -> predict_next_month df = Ok (None, NotEnoughData))
  /\ (forall m, monthly = [m] ->
                predict_next_month df
                = Ok (Some (round2 (snd m)), NaiveForecast (round2 (snd m))))
  /\ ((2 <= length monthly)%nat ->
      exists a b p adv,
        ols_line a b (month_points monthly)
        /\ predict_next_month df = Ok (Some p, adv)
        /\ rounded_2dp p
        /\ (a + b * inject_Z (Z.of_nat (length monthly)) - (1 # 200)
            <= p
            <= a + b * inject_Z (Z.of_nat (length monthly)) + (1 # 200))%Q)
  /\ fst (forecast [(648, 100%Q); (649, 200%Q)]) = Some 300%Q.
Proof.
  intros Hrun _. unfold predict_next_month. rewrite Hrun, bind_Ok.
  split; [|split; [|split; [|reflexivity]]].
  - intros ->. reflexivity.
  - intros m ->. reflexivity.
  - intros Hlen. destruct (forecast_regression monthly Hlen) as [a [b [adv [Hols Hf]]]].
    exists a, b, (round2 (a + b * inject_Z (Z.of_nat (length monthly)))), adv.
    split; [exact Hols|]. split; [rewrite Hf; reflexivity|].
    split; [apply round2_rounded|apply round2_close].
Qed.
End Forecast.

Lemma predict_next_month_forecasts_witness :
  exists a b p adv,
    ols_line a b (month_points [(648, 100%Q); (649, 200%Q)])
    /\ predict_next_month [row "2024-01-15" "Food" 100; row "2024-02-20" "Bills" 200]
       = Ok (Some p, adv)
    /\ rounded_2dp p
    /\ (a + b * inject_Z (Z.of_nat 2) - (1 # 200)
        <= p
        <= a + b * inject_Z (Z.of_nat 2) + (1 # 200))%Q.
Proof.
  destruct (predict_next_month_forecasts
              [row "2024-01-15" "Food" 100; row "2024-02-20" "Bills" 200]
              [(648, 100%Q); (649, 200%Q)] 0%nat)
    as (_ & _ & Hfit & _); [reflexivity|binary_exact_lit|].
  apply Hfit. simpl. lia.
Defined.

(** C2, the claim as stated fails: with the one monthly total 0.125 the
    prediction is 0.12, not the total. *)
Lemma predict_next_month_rounds_single_month :
  _monthly_totals [row "2024-01-15" "Food" 0.125] = Ok [(648, 0.125%Q)]
  /\ predict_next_month [row "2024-01-15" "Food" 0.125]
     = Ok (Some (3 # 25)%Q, NaiveForecast (3 # 25))
  /\ (3 # 25 == 0.12)%Q
  /\ ~ (3 # 25 == 0.125)%Q.
Proof.
  split; [reflexivity|]. split; [reflexivity|]. split; [reflexivity|].
  intros Heq. discriminate Heq.
Qed.

Example predict_next_month_two_months :
  predict_next_month [row "2024-01-15" "Food" 100; row "2024-02-20" "Bills" 200]
  = Ok (Some 300%Q, Estimate 300 270).
Proof. reflexivity. Qed.

Example predict_next_month_one_month :
  predict_next_month [row "2024-01-15" "Food" 60; row "2024-01-20" "Bills" 40]
  = Ok (Some 100%Q, NaiveForecast 100).
Proof. reflexivity. Qed.

Example predict_next_month_no_month :
  predict_next_month [row "some day" "Food" 60] = Ok (None, NotEnoughData).
Proof. reflexivity. Qed.

(** ** The caller's frame is left as it was *)

Section HeapFacts.
Context `{Converters}.
Implicit Types (h : gmap nat Heap.Object) (l : nat) (o : Heap.Object).

Lemma bind_run {A B} (m : Heap.M A) (k : A -> Heap.M B) h h' (a : A) :
  m h = Some (Ok a, h') -> Heap.bind m k h = k a h'.
Proof. intros Hm. unfold Heap.bind. rewrite Hm. reflexivity. Qed.

Lemma get_run h l o : h !! l = Some o -> Heap.get l h = Some (Ok o, h).
Proof. intros Hl. unfold Heap.get. rewrite Hl. reflexivity. Qed.

Lemma alloc_working h0 h (rs : DataFrame) mc :
  h0 ⊆ h ->
  exists l' h',
    Heap.alloc {| Heap.rows := rs; Heap.month_col := mc |} h = Some (Ok l', h')
    /\ working h0 h' l' rs mc.
Proof.
  intros Hsub. unfold Heap.alloc. eexists _, _. split; [reflexivity|].
  pose proof (is_fresh (dom h)) as Hfresh.
  apply not_elem_of_dom in Hfresh.
  split; [|split].
  - etrans; [exact Hsub|]. apply insert_subseteq. exact Hfresh.
  - destruct (h0 !! fresh (dom h)) as [o|] eqn:Ho; [|reflexivity].
    rewrite (lookup_weaken _ _ _ _ Ho Hsub) in Hfresh. discriminate.
  - apply lookup_insert_eq.
Qed.

Lemma copy_working h0 h l o :
  h0 ⊆ h -> h !! l = Some o ->
  exists l' h',
    Heap.copy l h = Some (Ok l', h') /\ working h0 h' l' (Heap.rows o) (Heap.month_col o).
Proof.
  intros Hsub Hl. unfold Heap.copy. rewrite (bind_run _ _ _ _ _ (get_run _ _ _ Hl)).
  destruct o as [rs mc]. apply alloc_working. exact Hsub.
Qed.

Lemma put_working h0 h l rs mc rs' mc' :
  working h0 h l rs mc ->
  exists h',
    Heap.put l {| Heap.rows := rs'; Heap.month_col := mc' |} h = Some (Ok tt, h')
    /\ working h0 h' l rs' mc'.
Proof.
  intros (Hsub & Hfresh & Hl). unfold Heap.put. rewrite Hl.
  eexists. split; [reflexivity|]. split; [|split].
  - apply insert_subseteq_r; [exact Hfresh|exact Hsub].
  - exact Hfresh.
  - apply lookup_insert_eq.
Qed.

Lemma assign_date_working h0 h l rs mc f col :
  working h0 h l rs mc ->
  f (map date rs) = Ok col ->
  exists h',
    Heap.assign_date l f h = Some (Ok tt, h')
    /\ working h0 h' l (setitem_date rs col) mc.
Proof.
  intros Hw Hf. unfold Heap.assign_date.
  rewrite (bind_run _ _ _ _ _ (get_run _ _ _ (proj2 (proj2 Hw)))). simpl.
  rewrite Hf. unfold Heap.bind at 1, Heap.lift.
  apply put_working with (rs := rs) (mc := mc). exact Hw.
Qed.

Lemma getitem_mask_working h0 h l rs mc mask m :
  working h0 h l rs mc ->
  mask rs = Ok m ->
  exists l' h',
    Heap.getitem_mask l mask h = Some (Ok l', h')
    /\ working h0 h' l' (select rs m) ((fun col => select col m) <$> mc).
Proof.
  intros Hw Hm. unfold Heap.getitem_mask.
  rewrite (bind_run _ _ _ _ _ (get_run _ _ _ (proj2 (proj2 Hw)))). simpl.
  rewrite Hm. unfold Heap.bind at 1, Heap.lift.
  apply alloc_working. exact (proj1 Hw).
Qed.

Lemma start_stage_working h0 h l rs mc (start_date : option string) :
  working h0 h l rs mc ->
  Forall (fun r => is_text (date r) = false) rs ->
  exists l' h' mc',
    (if truthy start_date then
       match to_datetime (default "" start_date) with
       | Some start =>
           Heap.getitem_mask l (series_map (fun r => cell_ge (date r) start))
       | None => Heap.ret l
       end
     else Heap.ret l) h = Some (Ok l', h')
    /\ working h0 h' l' (List.filter (on_or_after (bound_of start_date)) rs) mc'.
Proof.
  intros Hw Hrs.
  assert (Hstay : exists l' h' mc',
             Heap.ret l h = Some (Ok l', h')
             /\ working h0 h' l' (List.filter (on_or_after None) rs) mc').
  { exists l, h, mc. split; [reflexivity|]. rewrite filter_all. exact Hw. }
  destruct start_date as [s|]; simpl; [|exact Hstay].
  destruct (String.eqb s ""); simpl; [exact Hstay|].
  destruct (to_datetime s) as [start|]; [|exact Hstay].
  destruct (getitem_mask_working h0 h l rs mc
              (series_map (fun r => cell_ge (date r) start))
              (map (on_or_after (Some start)) rs) Hw) as (l' & h' & Hrun & Hw').
  { apply series_map_total. eapply Forall_impl; [exact Hrs|].
    intros r. unfold on_or_after, cell_ge.
    destruct (date r); [reflexivity|discriminate|reflexivity]. }
  rewrite select_map_mask in Hw'. eauto.
Qed.

Lemma end_stage_working h0 h l rs mc (end_date : option string) :
  working h0 h l rs mc ->
  Forall (fun r => is_text (date r) = false) rs ->
  exists l' h' mc',
    (if truthy end_date then
       match to_datetime (default "" end_date) with
       | Some stop =>
           Heap.getitem_mask l (series_map (fun r => cell_le (date r) stop))
       | None => Heap.ret l
       end
     else Heap.ret l) h = Some (Ok l', h')
    /\ working h0 h' l' (List.filter (on_or_before (bound_of end_date)) rs) mc'.
Proof.
  intros Hw Hrs.
  assert (Hstay : exists l' h' mc',
             Heap.ret l h = Some (Ok l', h')
             /\ working h0 h' l' (List.filter (on_or_before None) rs) mc').
  { exists l, h, mc. split; [reflexivity|]. rewrite filter_all. exact Hw. }
  destruct end_date as [s|]; simpl; [|exact Hstay].
  destruct (String.eqb s ""); simpl; [exact Hstay|].
  destruct (to_datetime s) as [stop|]; [|exact Hstay].
  destruct (getitem_mask_working h0 h l rs mc
              (series_map (fun r => cell_le (date r) stop))
              (map (on_or_before (Some stop)) rs) Hw) as (l' & h' & Hrun & Hw').
  { apply series_map_total. eapply Forall_impl; [exact Hrs|].
    intros r. unfold on_or_before, cell_le.
    destruct (date r); [reflexivity|discriminate|reflexivity]. }
  rewrite select_map_mask in Hw'. eauto.
Qed.

Lemma category_stage_working h0 h l rs mc (c : option string) :
  working h0 h l rs mc ->
  exists l' h' mc',
    (if truthy c && negb (String.eqb (default "" c) "All") then
       Heap.getitem_mask l
         (fun rs => Ok (map (fun r => String.eqb (str_lower (category_text r))
                                                 (str_lower (default "" c))) rs))
     else Heap.ret l) h = Some (Ok l', h')
    /\ working h0 h' l' (List.filter (category_matches c) rs) mc'.
Proof.
  intros Hw. rewrite <- category_stage.
  destruct (truthy c && negb (String.eqb (default "" c) "All")).
  - destruct (getitem_mask_working h0 h l rs mc
                (fun rs => Ok (map (fun r => String.eqb (str_lower (category_text r))
                                                        (str_lower (default "" c))) rs))
                _ Hw eq_refl) as (l' & h' & Hrun & Hw').
    eauto.
  - exists l, h, mc. split; [reflexivity|exact Hw].
Qed.
End HeapFacts.

Section HeapClaims.
Context `{Converters}.
Implicit Types (h : gmap nat Heap.Object) (l : nat) (o : Heap.Object).

(** [Heap.filter_data] returns the frame [filter_data] computes, in an
    object of its own unless the caller's frame has no rows, and leaves
    every object of the caller's store as it was. *)
Lemma heap_filter_data h l o (s e c : option string) :
  h !! l = Some o ->
  exists l' h' out mc,
    Heap.filter_data l s e c h = Some (Ok l', h')
    /\ h ⊆ h'
    /\ filter_data (Heap.rows o) s e c = Ok out
    /\ h' !! l' = Some {| Heap.rows := out; Heap.month_col := mc |}.
Proof.
  intros Hl. unfold Heap.filter_data.
  rewrite (bind_run _ _ _ _ _ (get_run _ _ _ Hl)).
  rewrite filter_data_selected.
  destruct (Heap.rows o) as [|r rs] eqn:Hrows; cbv beta iota delta [empty].
  - exists l, h, [], (Heap.month_col o). split; [reflexivity|]. split; [reflexivity|].
    split; [reflexivity|]. rewrite Hl. destruct o; simpl in *. congruence.
  - rewrite <- Hrows.
    destruct (copy_working h h l o (reflexivity h) Hl) as (l1 & h1 & Hrun1 & Hw1).
    rewrite (bind_run _ _ _ _ _ Hrun1).
    destruct (assign_date_working h h1 l1 _ _
                (fun col => Ok (map cell_of_ts (to_datetime_series col))) _ Hw1 eq_refl)
      as (h2 & Hrun2 & Hw2).
    rewrite (bind_run _ _ _ _ _ Hrun2). fold (parse_dates (Heap.rows o)) in Hw2.
    pose proof (parse_dates_no_text (Heap.rows o)) as HP.
    destruct (start_stage_working h h2 l1 _ _ s Hw2 HP) as (l3 & h3 & mc3 & Hrun3 & Hw3).
    rewrite (bind_run _ _ _ _ _ Hrun3).
    pose proof (filter_no_text (on_or_after (bound_of s)) _ HP) as HP3.
    destruct (end_stage_working h h3 l3 _ _ e Hw3 HP3) as (l4 & h4 & mc4 & Hrun4 & Hw4).
    rewrite (bind_run _ _ _ _ _ Hrun4).
    pose proof (filter_no_text (on_or_before (bound_of e)) _ HP3) as HP4.
    destruct (category_stage_working h h4 l4 _ _ c Hw4) as (l5 & h5 & mc5 & Hrun5 & Hw5).
    rewrite (bind_run _ _ _ _ _ Hrun5).
    pose proof (filter_no_text (category_matches c) _ HP4) as HP5.
    match type of Hw5 with
    | working _ _ _ ?rs5 _ =>
        assert (Hfmt : series_map dt_strftime_cell (map date rs5)
                       = Ok (map display_date (map date rs5)))
    end.
    { apply series_map_total. apply Forall_map. eapply Forall_impl; [exact HP5|].
      intros x. simpl. destruct (date x); simpl; [reflexivity|discriminate|reflexivity]. }
    destruct (assign_date_working h h5 l5 _ _ _ _ Hw5 Hfmt) as (h6 & Hrun6 & Hw6).
    rewrite (bind_run _ _ _ _ _ Hrun6).
    rewrite setitem_date_map in Hw6. fold format_date in Hw6.
    destruct Hw6 as (Hsub & _ & Hl6).
    eexists l5, h6, _, mc5. split; [reflexivity|]. split; [exact Hsub|].
    split; [reflexivity|]. rewrite Hl6. do 3 f_equal.
    rewrite !filter_twice. apply filter_ext_in.
    intros x _. unfold selected. rewrite andb_assoc. reflexivity.
Qed.

(** [Heap._monthly_totals] returns the totals [_monthly_totals] computes
    and leaves every object of the caller's store as it was. *)
Lemma heap_monthly_totals h l o :
  h !! l = Some o ->
  exists h' monthly,
    Heap._monthly_totals l h = Some (Ok monthly, h')
    /\ h ⊆ h'
    /\ _monthly_totals (Heap.rows o) = Ok monthly.
Proof.
  intros Hl. unfold Heap._monthly_totals, _monthly_totals.
  rewrite (bind_run _ _ _ _ _ (get_run _ _ _ Hl)).
  destruct (Heap.rows o) as [|r rs] eqn:Hrows; cbv beta iota delta [empty].
  - exists h, []. split; [reflexivity|]. split; reflexivity.
  - rewrite <- Hrows.
    destruct (copy_working h h l o (reflexivity h) Hl) as (l1 & h1 & Hrun1 & Hw1).
    rewrite (bind_run _ _ _ _ _ Hrun1).
    destruct (assign_date_working h h1 l1 _ _
                (fun col => Ok (map cell_of_ts (to_datetime_series col))) _ Hw1 eq_refl)
      as (h2 & Hrun2 & Hw2).
    rewrite (bind_run _ _ _ _ _ Hrun2). fold (parse_dates (Heap.rows o)) in Hw2.
    pose proof (parse_dates_no_text (Heap.rows o)) as HP.
    destruct (getitem_mask_working h h2 l1 _ _
                (fun rs => Ok (map (fun r => match date r with
                                             | DateNull => false
                                             | _ => true
                                             end) rs))
                _ Hw2 eq_refl) as (l3 & h3 & Hrun3 & Hw3).
    rewrite (bind_run _ _ _ _ _ Hrun3).
    rewrite select_map_mask in Hw3.
    pose proof (filter_no_text
                  (fun r => match date r with DateNull => false | _ => true end)
                  _ HP) as Hd.
    set (d := List.filter _ (parse_dates (Heap.rows o))) in *.
    rewrite (bind_run _ _ _ _ _ (get_run _ _ _ (proj2 (proj2 Hw3)))).
    cbn [Heap.rows].
    destruct d as [|r' d'] eqn:Ed; cbv beta iota delta [empty].
    + exists h3, []. split; [reflexivity|]. split; [exact (proj1 Hw3)|reflexivity].
    + rewrite <- Ed in *. clear Ed r' d'.
      assert (Hmonth : series_map dt_to_period_cell (map date d)
                       = Ok (map (fun c => match c with
                                           | DateTime t => Some (to_period_M t)
                                           | _ => None
                                           end) (map date d))).
      { apply series_map_total. apply Forall_map. eapply Forall_impl; [exact Hd|].
        intros x. simpl. destruct (date x); simpl; [reflexivity|discriminate|reflexivity]. }
      rewrite Hmonth. unfold Heap.bind at 1, Heap.lift.
      destruct (put_working h h3 l3 _ _ d
                  (Some (map (fun c => match c with
                                       | DateTime t => Some (to_period_M t)
                                       | _ => None
                                       end) (map date d))) Hw3) as (h4 & Hrun4 & Hw4).
      rewrite (bind_run _ _ _ _ _ Hrun4).
      rewrite (bind_run _ _ _ _ _ (get_run _ _ _ (proj2 (proj2 Hw4)))).
      eexists h4, _. split; [reflexivity|]. split; [exact (proj1 Hw4)|].
      rewrite bind_Ok. reflexivity.
Qed.

End HeapClaims.


(** ** [add_expense] followed by [load_data] *)

Section AddThenLoad.
Context `{Converters}.

Lemma read_cell_reads_back (t : string) : reads_back (read_cell t).
Proof.
  unfold reads_back, read_cell.
  destruct (existsb (String.eqb t) na_values) eqn:E; [exact I|]. rewrite E. reflexivity.
Qed.

Lemma field_of_reads_back (f : csv) (col : string) (rec : list string) :
  reads_back (field_of f col rec).
Proof.
  unfold field_of. destruct (index_of col (header f)); simpl;
    [apply read_cell_reads_back|exact I].
Qed.

(** The rows [load_data] returns hold texts that read back, and numbers. *)
Lemma load_data_rows (fs : option csv) :
  Forall (fun r => match date r with
                   | DateNull => True
                   | DateStr s => read_cell s = Some s
                   | DateTime _ => False
                   end
                   /\ reads_back (category r)
                   /\ exists q, amount r = Some q)
         (fst (load_data fs)).
Proof.
  destruct fs as [f|]; [|constructor].
  rewrite load_data_existing. cbn [fst]. apply Forall_map, Forall_forall.
  intros rec _. unfold row_of_record; simpl. split; [|split].
  - pose proof (field_of_reads_back f "date" rec) as Hd.
    destruct (field_of f "date" rec); [exact Hd|exact I].
  - apply field_of_reads_back.
  - eexists; reflexivity.
Qed.

(** Reading what [to_csv] wrote for a row gives the row back, a NaN
    amount as 0.0, when its cells round-trip. *)
Lemma row_of_record_written (f : csv) (r : Row) :
  header f = expected_cols ->
  round_trips r ->
  row_of_record f (match date r with
                   | DateNull => ""
                   | DateStr s => s
                   | DateTime t => strftime t
                   end
                   :: default "" (category r)
                   :: from_option float_repr "" (amount r) :: [])
  = coerced r.
Proof.
  intros Hf (Hd & Hc & Ha). destruct r as [d c a]; simpl in *.
  unfold row_of_record, field_of, coerced; rewrite Hf; simpl. f_equal.
  - destruct d as [|s|t]; [reflexivity| |contradiction]. rewrite Hd. reflexivity.
  - destruct c as [s|]; [|reflexivity]. simpl in *. exact Hc.
  - destruct a as [q|]; simpl; [rewrite Ha|]; reflexivity.
Qed.

Lemma load_data_written (df : DataFrame) :
  Forall round_trips df ->
  load_data (Some (to_csv df)) = (map coerced df, Some (to_csv df)).
Proof.
  intros Hrt. rewrite load_data_existing. f_equal.
  unfold to_csv at 2. cbn [records]. rewrite map_map.
  assert (Hf : header (to_csv df) = expected_cols) by reflexivity.
  revert Hf. generalize (to_csv df). intros f Hf.
  induction Hrt as [|r rs Hr _ IH]; cbn [map]; [reflexivity|].
  f_equal; [|exact IH]. apply (row_of_record_written f r Hf Hr).
Qed.

(** C1, as amended: on a store whose records have one field for each
    column, with plain texts or nothing as dates and categories and no
    truth value as amount, and for a date and a category that are plain
    texts (printable, and neither a missing-value token, a number nor a
    truth value) and amounts whose written text parses back to them,
    [add_expense] writes the frame it returns (the rows loaded before and the
    new row) to the store before it returns, and a following [load_data]
    returns one row more than before: the earlier rows as they were and
    last the new record, its amount 0.0 when the amount given is NaN. *)
Theorem add_expense_appends_and_persists
        (fs : option csv) (d c : string) (a : float) :
  (forall f, fs = Some f -> rectangular f /\ numeric_amounts f /\ plain_columns f) ->
  plain_text d ->
  plain_text c ->
  (forall q, In (Some q) (map amount (fst (load_data fs)) ++ [a]) ->
             read_cell (float_repr q) ≫= to_numeric = Some q) ->
  fst (add_expense d c a fs)
  = fst (load_data fs) ++ [{| date := DateStr d; category := Some c; amount := a |}]
  /\ snd (add_expense d c a fs) = Some (to_csv (fst (add_expense d c a fs)))
  /\ fst (load_data (snd (add_expense d c a fs)))
     = fst (load_data fs)
         ++ [{| date := DateStr d; category := Some c; amount := Some (nan_to_zero a) |}]
  /\ length (fst (load_data (snd (add_expense d c a fs))))
     = S (length (fst (load_data fs))).
Proof.
  intros _ (_ & _ & Hd & _) (_ & _ & Hc & _) Ha.
  pose proof (load_data_rows fs) as Hrows.
  unfold add_expense. destruct (load_data fs) as [df fs1].
  cbv beta iota zeta. cbn [fst snd] in *. unfold save_data.
  split; [reflexivity|]. split; [reflexivity|].
  assert (Hrt : Forall round_trips
                       (df ++ [{| date := DateStr d; category := Some c; amount := a |}])).
  { apply Forall_app. split.
    - apply Forall_forall. intros r Hr.
      rewrite Forall_forall in Hrows. destruct (Hrows r Hr) as (Hrd & Hrc & q & Hq).
      split; [exact Hrd|]. split; [exact Hrc|]. rewrite Hq. apply Ha.
      apply in_or_app. left. rewrite <- Hq. apply in_map.
      apply list_elem_of_In. exact Hr.
    - constructor; [|constructor]. split; [exact Hd|]. split; [exact Hc|].
      simpl. destruct a as [q|]; [|exact I].
      apply Ha. apply in_or_app. right. left. reflexivity. }
  rewrite (load_data_written _ Hrt). cbn [fst].
  assert (Hload : map coerced (df ++ [{| date := DateStr d; category := Some c; amount := a |}])
                  = df ++ [{| date := DateStr d; category := Some c;
                              amount := Some (nan_to_zero a) |}]).
  { rewrite map_app. f_equal.
    clear -Hrows. induction Hrows as [|r rs (_ & _ & q & Hq) _ IH]; [reflexivity|].
    cbn [map]. rewrite IH. f_equal. destruct r as [rd rc ra]; simpl in *.
    subst ra. reflexivity. }
  rewrite Hload. split; [reflexivity|].
  rewrite length_app. simpl. lia.
Qed.
End AddThenLoad.

(** C1, the claim as stated fails: the record added with a NaN amount is
    loaded with the amount 0.0. *)
Lemma add_expense_nan_amount_loaded_as_zero :
  fst (add_expense "2024-01-15" "Food" None None)
  = [{| date := DateStr "2024-01-15"; category := Some "Food"; amount := None |}]
  /\ fst (load_data (snd (add_expense "2024-01-15" "Food" None None)))
     = [{| date := DateStr "2024-01-15"; category := Some "Food"; amount := Some 0%Q |}].
Proof. split; reflexivity. Qed.

Lemma add_expense_appends_and_persists_witness :
  fst (load_data (snd (add_expense "2024-02-20" "Bills" (Some (161 # 2)%Q)
                         (Some {| header := ["date"; "category"; "amount"];
                                  records := [["2024-01-15"; "Food"; "10.0"]] |}))))
  = [row "2024-01-15" "Food" 10; row "2024-02-20" "Bills" (161 # 2)].
Proof.
  destruct (add_expense_appends_and_persists
              (Some {| header := ["date"; "category"; "amount"];
                       records := [["2024-01-15"; "Food"; "10.0"]] |})
              "2024-02-20" "Bills" (Some (161 # 2)%Q))
    as (_ & _ & Hload & _); [| | | |exact Hload].
  - intros f [= <-]. split; [|split].
    + split; [discriminate|]. apply List.Forall_cons; [reflexivity|apply List.Forall_nil].
    + apply List.Forall_cons; [plain_literal|apply List.Forall_nil].
    + apply List.Forall_cons; [split; right; plain_literal|apply List.Forall_nil].
  - plain_literal.
  - plain_literal.
  - intros q [Hq|[Hq|[]]]; injection Hq as <-; reflexivity.
Defined.

(** On the code: a category that is one of the reader's missing-value
    tokens is written as it is and read back as null, so the frame
    [add_expense] returned and the frame [load_data] returns differ. *)
Lemma add_expense_category_read_back_as_missing :
  fst (add_expense "2024-01-15" "N/A" (Some 10%Q) None) = [row "2024-01-15" "N/A" 10]
  /\ snd (add_expense "2024-01-15" "N/A" (Some 10%Q) None)
     = Some {| header := ["date"; "category"; "amount"];
               records := [["2024-01-15"; "N/A"; "10.0"]] |}
  /\ fst (load_data (snd (add_expense "2024-01-15" "N/A" (Some 10%Q) None)))
     = [{| date := DateStr "2024-01-15"; category := None; amount := Some 10%Q |}].
Proof. repeat split. Qed.

(** * Further properties of the data layer *)

(** ** Grouping keeps every amount once *)

Lemma group_add_sum {K} (eqb ltb : K -> K -> bool) (k : K) (v : Q) (acc : list (K * Q)) :
  (Qsum (map snd (group_add eqb ltb k v acc)) == Qsum (map snd acc) + v)%Q.
Proof.
  induction acc as [|[k' v'] acc IH]; simpl; [ring|].
  destruct (eqb k k'); simpl; [ring|].
  destruct (ltb k k'); simpl; [ring|]. rewrite IH. ring.
Qed.

Lemma groupby_fold_sum {K} (eqb ltb : K -> K -> bool)
      (rows : list (option K * float)) (acc : list (K * Q)) :
  (Qsum (map snd
           (fold_left (fun acc kv => match fst kv with
                                     | Some k => group_add eqb ltb k (nan_to_zero (snd kv)) acc
                                     | None => acc
                                     end) rows acc))
   == Qsum (map snd acc)
      + series_sum (map snd (List.filter (fun kv => match fst kv with
                                                    | Some _ => true
                                                    | None => false
                                                    end) rows)))%Q.
Proof.
  revert acc; induction rows as [|[[k|] x] rows IH]; intros acc; simpl.
  - ring.
  - rewrite IH, group_add_sum. ring.
  - apply IH.
Qed.

Lemma groupby_sum_total {K} (eqb ltb : K -> K -> bool) (rows : list (option K * float)) :
  (Qsum (map snd (groupby_sum eqb ltb rows))
   == series_sum (map snd (List.filter (fun kv => match fst kv with
                                                  | Some _ => true
                                                  | None => false
                                                  end) rows)))%Q.
Proof. unfold groupby_sum. rewrite groupby_fold_sum. simpl. ring. Qed.

Lemma Qsum_perm (l l' : list Q) : Permutation l l' -> (Qsum l == Qsum l')%Q.
Proof.
  induction 1 as [|x l l' _ IH|x y l|l l' l'' _ IH1 _ IH2]; simpl.
  - reflexivity.
  - rewrite IH. reflexivity.
  - ring.
  - rewrite IH1. exact IH2.
Qed.

Lemma group_add_nonempty {K} (eqb ltb : K -> K -> bool) (k : K) (v : Q) (acc : list (K * Q)) :
  group_add eqb ltb k v acc <> [].
Proof.
  destruct acc as [|[k' v'] acc]; simpl; [discriminate|].
  destruct (eqb k k'); [discriminate|]. destruct (ltb k k'); discriminate.
Qed.

Lemma groupby_fold_nonempty {K} (eqb ltb : K -> K -> bool)
      (rows : list (option K * float)) (acc : list (K * Q)) :
  acc <> [] ->
  fold_left (fun acc kv => match fst kv with
                           | Some k => group_add eqb ltb k (nan_to_zero (snd kv)) acc
                           | None => acc
                           end) rows acc <> [].
Proof.
  revert acc; induction rows as [|[[k|] x] rows IH]; intros acc Hacc; simpl.
  - exact Hacc.
  - apply IH. apply group_add_nonempty.
  - apply IH. exact Hacc.
Qed.

(** [groupby_sum] has no group exactly when no row has a key. *)
Lemma groupby_sum_empty {K} (eqb ltb : K -> K -> bool) (rows : list (option K * float)) :
  groupby_sum eqb ltb rows = [] <-> Forall (fun kv => fst kv = None) rows.
Proof.
  unfold groupby_sum. induction rows as [|[[k|] x] rows IH]; simpl.
  - split; [constructor|reflexivity].
  - split.
    + intros Hnil. exfalso. revert Hnil. apply groupby_fold_nonempty. discriminate.
    + intros Hall. inversion Hall as [|? ? Hk _]. discriminate Hk.
  - rewrite IH. split; [constructor; [reflexivity|assumption]|].
    intros Hall. inversion Hall. assumption.
Qed.

Lemma insert_index_nonempty {K} (ltb : K -> K -> bool) (x : K * Q) (l : list (K * Q)) :
  insert_index ltb x l <> [].
Proof. destruct l as [|y l]; simpl; [discriminate|]. destruct (ltb _ _); discriminate. Qed.

Lemma sort_index_empty {K} (ltb : K -> K -> bool) (l : list (K * Q)) :
  sort_index ltb l = [] <-> l = [].
Proof.
  destruct l as [|x l]; [split; reflexivity|]. split; [|discriminate].
  unfold sort_index. simpl. intros Hnil. destruct (insert_index_nonempty _ _ _ Hnil).
Qed.

Section MonthlyTotals.
Context `{Converters}.

Lemma month_rows_has_key (p : Z) (df : DataFrame) :
  has_key p (month_rows df)
  <-> exists r t, In r (parse_dates df) /\ date r = DateTime t /\ to_period_M t = p.
Proof.
  unfold has_key, month_rows. split.
  - intros [x Hin]. apply in_map_iff in Hin. destruct Hin as [r [Heq Hin]].
    apply filter_In in Hin. destruct Hin as [Hin _].
    destruct (date r) as [| |t] eqn:Hd; try discriminate.
    exists r, t. split; [exact Hin|]. split; [exact Hd|]. congruence.
  - intros (r & t & Hin & Hd & Hp). exists (amount r). apply in_map_iff.
    exists r. rewrite Hd, Hp. split; [reflexivity|].
    apply filter_In. split; [exact Hin|]. rewrite Hd. reflexivity.
Qed.

Lemma month_rows_key_total (p : Z) (df : DataFrame) :
  key_total Z.eqb p (month_rows df) = month_total p df.
Proof.
  unfold month_rows, month_total.
  induction (parse_dates df) as [|r rs IH]; [reflexivity|].
  cbn [List.filter]. destruct (date r) as [|s|t] eqn:Hd.
  - exact IH.
  - cbn [map key_total]. rewrite Hd. exact IH.
  - cbn [map key_total]. rewrite Hd.
    destruct (to_period_M t =? p); [|exact IH].
    cbn [map series_sum snd]. rewrite IH. reflexivity.
Qed.

Lemma month_rows_keyed (l : DataFrame) :
  Forall (fun r => is_text (date r) = false) l ->
  map snd
      (List.filter (fun kv : option Z * float => match fst kv with
                                                 | Some _ => true
                                                 | None => false
                                                 end)
                   (map (fun r => (match date r with
                                   | DateTime t => Some (to_period_M t)
                                   | _ => None
                                   end, amount r))
                        (List.filter (fun r => match date r with
                                               | DateNull => false
                                               | _ => true
                                               end) l)))
  = map amount (List.filter (fun r => match date r with
                                      | DateNull => false
                                      | _ => true
                                      end) l).
Proof.
  induction 1 as [|r rs Hr _ IH]; [reflexivity|].
  cbn [List.filter]. destruct (date r) as [|s|t] eqn:Hd; [exact IH|discriminate|].
  cbn [map List.filter fst snd]. rewrite Hd. cbn [map snd]. rewrite IH. reflexivity.
Qed.

Lemma monthly_totals_value (df : DataFrame) :
  _monthly_totals df = Ok (groupby_sum Z.eqb Z.ltb (month_rows df))
  /\ ascending_keys Z.ltb (groupby_sum Z.eqb Z.ltb (month_rows df)).
Proof.
  destruct (_monthly_totals_groups df) as (monthly & Hrun & Hasc & _).
  rewrite _monthly_totals_closed in Hrun. injection Hrun as Hm.
  rewrite _monthly_totals_closed.
  assert (Htrans : forall a b c, (a <? b) = true -> (b <? c) = true -> (a <? c) = true).
  { intros a b c. rewrite !Z.ltb_lt. lia. }
  assert (Hasc' : ascending_keys Z.ltb (groupby_sum Z.eqb Z.ltb (month_rows df))).
  { destruct (groupby_sum_groups Z.eqb Z.ltb Z.eqb_eq Z.ltb_irrefl Htrans) with
      (rows := month_rows df) as [Ha _]; [|exact Ha].
    intros a b. rewrite !Z.ltb_ge, Z.eqb_neq, Z.ltb_lt. lia. }
  rewrite (sort_index_ascending Z.ltb Z.ltb_irrefl Htrans _ Hasc').
  split; [reflexivity|exact Hasc'].
Qed.


(** X2: on amounts that binary floating point adds without rounding, the
    monthly totals [_monthly_totals] returns add up to the sum of the
    amounts of the rows that have a parsed date: grouping loses no amount
    and counts none twice. *)
Theorem monthly_totals_add_up (df : DataFrame) (monthly : list (Z * Q)) (k : nat) :
  _monthly_totals df = Ok monthly ->
  binary_exact k (map amount df) ->
  (Qsum (map snd monthly) == series_sum (map amount (dated_rows df)))%Q.
Proof.
  intros Hrun _. destruct (monthly_totals_value df) as [Hval _].
  rewrite Hval in Hrun. injection Hrun as <-.
  rewrite groupby_sum_total. unfold month_rows, dated_rows.
  rewrite (month_rows_keyed _ (parse_dates_no_text df)). reflexivity.
Qed.

(** X3: when [predict_next_month] returns, it returns no prediction
    exactly when no row of the frame has a date that parses, and a
    prediction it returns is a number of 2 decimals. *)
Theorem predict_next_month_absent_iff_undated
        (df : DataFrame) (pred : option Q) (adv : Advice) :
  predict_next_month df = Ok (pred, adv) ->
  (pred = None <-> Forall (fun r => date r = DateNull) (parse_dates df))
  /\ forall p, pred = Some p -> rounded_2dp p.
Proof.
  intros Hrun. destruct (monthly_totals_value df) as [Hval _].
  unfold predict_next_month in Hrun. rewrite Hval, bind_Ok in Hrun.
  injection Hrun as Hf.
  set (monthly := groupby_sum Z.eqb Z.ltb (month_rows df)) in *.
  assert (Hempty : monthly = [] <-> Forall (fun r => date r = DateNull) (parse_dates df)).
  { unfold monthly. rewrite groupby_sum_empty. unfold month_rows.
    pose proof (parse_dates_no_text df) as HP.
    induction HP as [|r rs Hr _ IH]; [split; constructor|].
    cbn [List.filter]. destruct (date r) as [|s|t] eqn:Hd;
      [|exfalso; try rewrite Hd in Hr; simpl in Hr; discriminate Hr|].
    - rewrite IH. split; [intros Hall; constructor; assumption|].
      intros Hall. inversion Hall. assumption.
    - cbn [map]. rewrite Hd.
      split; intros Hall; inversion Hall as [|? ? Hh _]; simpl in Hh; congruence. }
  rewrite <- Hempty. clear Hempty.
  unfold forecast in Hf. destruct monthly as [|m1 [|m2 rest]].
  - injection Hf as <- <-. split; [tauto|discriminate].
  - injection Hf as <- <-. split; [split; discriminate|].
    intros p [= <-]. apply round2_rounded.
  - split.
    + split; [|discriminate]. intros ->. destruct (Qle_bool _ 0); discriminate.
    + intros p ->. destruct (Qle_bool _ 0); injection Hf as <- _; apply round2_rounded.
Qed.
End MonthlyTotals.

Lemma monthly_totals_add_up_witness :
  (Qsum (map snd [(648, 30%Q); (649, 2.5%Q)])
   == series_sum
        (map amount
             (dated_rows [row "2024-01-15" "Food" 10; row "2024-01-20" "Bills" 20;
                          row "2024-02-02" "Food" 2.5; row "soon" "Food" 1])))%Q.
Proof.
  apply (monthly_totals_add_up
           [row "2024-01-15" "Food" 10; row "2024-01-20" "Bills" 20;
            row "2024-02-02" "Food" 2.5; row "soon" "Food" 1]
           [(648, 30%Q); (649, 2.5%Q)] 1%nat).
  - reflexivity.
  - binary_exact_lit.
Defined.

Lemma predict_next_month_absent_iff_undated_witness :
  rounded_2dp (3 # 25).
Proof.
  destruct (predict_next_month_absent_iff_undated
              [row "2024-01-15" "Food" 0.125] (Some (3 # 25)%Q) (NaiveForecast (3 # 25)))
    as [_ Hrounded]; [reflexivity|].
  exact (Hrounded (3 # 25)%Q eq_refl).
Defined.

(** ** The forecast on a history that lies on a line *)

Lemma sums_on_a_line (a b : Q) (pts : list (Q * Q)) :
  Forall (fun p => snd p == a + b * fst p)%Q pts ->
  (Qsum (map snd pts)
   == a * inject_Z (Z.of_nat (length pts)) + b * Qsum (map fst pts))%Q
  /\ (Qsum (map (fun p => fst p * snd p) pts)
      == a * Qsum (map fst pts) + b * Qsum (map (fun p => fst p * fst p) pts))%Q.
Proof.
  induction 1 as [|[x y] pts Hp _ [IH1 IH2]]; [split; simpl; ring|].
  simpl in Hp. cbn [map Qsum fold_right length fst snd].
  unfold Qsum in IH1, IH2.
  rewrite Nat2Z.inj_succ, <- Z.add_1_r, inject_Z_plus. simpl (inject_Z 1).
  split.
  - rewrite IH1, Hp. ring.
  - rewrite IH2, Hp. ring.
Qed.

(** On points of a line with a feature that is not constant, [fit] finds
    the line. *)
Lemma fit_on_a_line (a b : Q) (X y : list Q) :
  length X = length y ->
  (0 < Qsum (map (fun x => (x - mean X) * (x - mean X)) X))%Q ->
  Forall (fun p => snd p == a + b * fst p)%Q (combine X y) ->
  (coef_ (fit X y) == b)%Q /\ (intercept_ (fit X y) == a)%Q.
Proof.
  intros Hlen Hpos Hline.
  assert (HX : X <> []) by (intros ->; simpl in Hpos; lra).
  set (pts := combine X y) in *.
  assert (Hn : (0 < inject_Z (Z.of_nat (length pts)))%Q).
  { unfold pts. rewrite combine_length_eq by exact Hlen.
    destruct X as [|x X]; [contradiction|].
    change 0%Q with (inject_Z 0). rewrite <- Zlt_Qlt. simpl. lia. }
  assert (Hmx : mean X = (Qsum (map fst pts) / inject_Z (Z.of_nat (length pts)))%Q).
  { unfold mean, pts. rewrite combine_fst_eq, combine_length_eq by exact Hlen. reflexivity. }
  assert (Hmy : mean y = (Qsum (map snd pts) / inject_Z (Z.of_nat (length pts)))%Q).
  { unfold mean, pts. rewrite combine_snd_eq, combine_length_eq by exact Hlen.
    rewrite Hlen. reflexivity. }
  assert (Hcoef : coef_ (fit X y)
                  = (Qsum (map (fun p => (fst p - mean X) * (snd p - mean y)) pts)
                     / Qsum (map (fun p => (fst p - mean X) * (fst p - mean X)) pts))%Q).
  { unfold fit; simpl. rewrite zip_with_maps, map_map.
    rewrite (map_fst_combine (fun x => (x - mean X) * (x - mean X))%Q X y Hlen).
    reflexivity. }
  rewrite (map_fst_combine _ X y Hlen) in Hpos. fold pts in Hpos.
  destruct (sums_on_a_line a b pts Hline) as [Hsy Hsxy].
  rewrite centred_squares in Hpos.
  assert (Hb : (coef_ (fit X y) == b)%Q).
  { rewrite Hcoef, centred_products, centred_squares.
    set (n := inject_Z (Z.of_nat (length pts))) in *.
    set (Sx := Qsum (map fst pts)) in *.
    set (Sxx := Qsum (map (fun p => fst p * fst p)%Q pts)) in *.
    rewrite Hmy, Hsxy, Hsy, Hmx.
    fold n Sx. rewrite Hmx in Hpos. fold n Sx in Hpos.
    field. split; [lra|].
    intros Hz.
    assert (E : (Sxx * n - 2 * Sx * Sx + Sx * Sx
                 == n * (Sxx - 2 * (Sx / n) * Sx + n * (Sx / n) * (Sx / n)))%Q)
      by (field; lra).
    pose proof (Qmult_lt_0_compat _ _ Hn Hpos) as Hprod.
    rewrite <- E, Hz in Hprod. exact (Qlt_irrefl 0 Hprod). }
  split; [exact Hb|].
  change (intercept_ (fit X y)) with (mean y - mean X * coef_ (fit X y))%Q.
  rewrite Hb, Hmy, Hmx, Hsy. field. lra.
Qed.

Lemma month_points_on_a_line (a b : Q) (l : list (Z * Q)) (k : nat) :
  (forall i m, l !! i = Some m -> snd m == a + b * inject_Z (Z.of_nat (k + i)))%Q ->
  Forall (fun p => snd p == a + b * fst p)%Q
         (combine (map (fun i => inject_Z (Z.of_nat i)) (seq k (length l))) (map snd l)).
Proof.
  revert k; induction l as [|m l IH]; intros k Hl; [constructor|].
  cbn [length seq map combine]. constructor.
  - cbn [fst snd]. rewrite (Hl O m eq_refl). rewrite Nat.add_0_r. reflexivity.
  - apply IH. intros i m' Hi. rewrite (Hl (S i) m' Hi).
    replace (k + S i)%nat with (S k + i)%nat by lia. reflexivity.
Qed.

Section LinearHistory.
Context `{Converters}.

End LinearHistory.


(** ** The store across loads, saves and adds *)

Lemma index_of_none (col : string) (names : list string) :
  index_of col names = None <-> ~ In col names.
Proof.
  induction names as [|name names IH]; simpl; [tauto|].
  destruct (String.eqb_spec name col) as [->|Hne].
  - split; [discriminate|]. intros Hn. exfalso. apply Hn. left; reflexivity.
  - destruct (index_of col names); simpl.
    + split; [discriminate|]. intros Hn.
      assert (Hx : ~ In col names) by tauto. apply IH in Hx. discriminate.
    + split; [|reflexivity]. intros _ [Heq|Hin]; [contradiction|].
      apply (proj1 IH eq_refl). exact Hin.
Qed.

Lemma series_count_numbers (l : list float) :
  Forall (fun x => exists q, x = Some q) l -> series_count l = length l.
Proof.
  induction 1 as [|x l [q ->] _ IH]; simpl; [|rewrite IH]; reflexivity.
Qed.

Section StoreFacts.
Context `{Converters}.

(** X5: [load_data] always leaves a store behind, and loading again
    returns the same frame and the same store: a load changes nothing a
    later load could see. *)
Theorem load_data_twice (fs : option csv) :
  (exists f, snd (load_data fs) = Some f)
  /\ load_data (snd (load_data fs)) = load_data fs.
Proof.
  destruct fs as [f|].
  - rewrite load_data_existing. cbn [snd]. split; [eexists; reflexivity|].
    apply load_data_existing.
  - split; [eexists; reflexivity|]. reflexivity.
Qed.

Lemma survives_csv_round_trips (r : Row) : survives_csv r -> round_trips r.
Proof.
  intros (Hd & Hc & Ha). split; [|split; [|exact Ha]].
  - destruct (date r); [exact I|exact (proj1 (proj2 (proj2 Hd)))|exact Hd].
  - destruct (category r); [exact (proj1 (proj2 (proj2 Hc)))|exact I].
Qed.

(** X6: what [save_data] writes, [load_data] reads back: the same rows in
    the same order, a NaN amount as 0.0, whatever the store held before,
    for a frame whose dates and categories are plain texts or null and
    whose numbers are written as texts that parse to them. *)
Theorem save_data_then_load_data (df : DataFrame) (fs : option csv) :
  Forall survives_csv df ->
  load_data (save_data df fs) = (map coerced df, save_data df fs).
Proof.
  intros Hrt. unfold save_data. apply load_data_written.
  eapply Forall_impl; [exact Hrt|]. exact survives_csv_round_trips.
Qed.

Lemma load_data_amounts (fs : option csv) :
  Forall (fun x => exists q, x = Some q) (map amount (fst (load_data fs))).
Proof.
  apply Forall_map. eapply Forall_impl; [apply load_data_rows|].
  intros r (_ & _ & Hq). exact Hq.
Qed.

Lemma compute_summary_count (df : DataFrame) :
  exists s, compute_summary df = Ok s /\ count s = series_count (map amount df).
Proof.
  unfold compute_summary. destruct df as [|r df]; [eexists; split; reflexivity|].
  cbv beta iota delta [empty].
  destruct (series_count (map amount (r :: df))) eqn:Hc; simpl;
    eexists; (split; [reflexivity|]); reflexivity.
Qed.

Lemma add_expense_store (fs : option csv) (d c : string) (a : float) :
  snd (add_expense d c a fs)
  = Some (to_csv (fst (load_data fs)
                    ++ [{| date := DateStr d; category := Some c; amount := a |}])).
Proof.
  unfold add_expense. destruct (load_data fs) as [df fs1]. reflexivity.
Qed.


(** X9: a file without one of the three columns, whose records have one
    field for each column it has, still loads, one row per record: every
    row gets a null date when [date] is missing, a null category when
    [category] is missing, and the amount 0.0 when [amount] is missing. *)
Theorem load_data_missing_columns (f : csv) :
  rectangular f ->
  (~ In "date" (header f) ->
   Forall (fun r => date r = DateNull) (fst (load_data (Some f))))
  /\ (~ In "category" (header f) ->
      Forall (fun r => category r = None) (fst (load_data (Some f))))
  /\ (~ In "amount" (header f) ->
      Forall (fun r => amount r = Some 0%Q) (fst (load_data (Some f))))
  /\ length (fst (load_data (Some f))) = length (records f).
Proof.
  intros _. rewrite load_data_existing. cbn [fst].
  repeat split; try (intros Hmiss; apply index_of_none in Hmiss;
                     apply Forall_map, Forall_forall; intros rec _;
                     unfold row_of_record, field_of; simpl; rewrite Hmiss; reflexivity).
  apply length_map.
Qed.

End StoreFacts.

Lemma save_data_then_load_data_witness :
  load_data (save_data [row "2024-01-15" "Food" 10;
                        {| date := DateNull; category := None; amount := None |}]
                       None)
  = ([row "2024-01-15" "Food" 10;
      {| date := DateNull; category := None; amount := Some 0%Q |}],
     Some {| header := ["date"; "category"; "amount"];
             records := [["2024-01-15"; "Food"; "10.0"]; [""; ""; ""]] |}).
Proof.
  refine (save_data_then_load_data
            [row "2024-01-15" "Food" 10;
             {| date := DateNull; category := None; amount := None |}] None _).
  apply List.Forall_cons; [|apply List.Forall_cons; [|apply List.Forall_nil]].
  - split; [plain_literal|]. split; [plain_literal|reflexivity].
  - split; [exact I|]. split; exact I.
Defined.

Lemma load_data_missing_columns_witness :
  Forall (fun r => category r = None)
         (fst (load_data (Some {| header := ["date"; "amount"];
                                  records := [["2024-01-15"; "10.0"]] |}))).
Proof.
  apply (load_data_missing_columns
           {| header := ["date"; "amount"]; records := [["2024-01-15"; "10.0"]] |}).
  - split; [discriminate|]. apply List.Forall_cons; [reflexivity|apply List.Forall_nil].
  - vm_compute. intuition discriminate.
Defined.


(** ** Category sums and filtered views *)

Lemma category_rows_keyed (df : DataFrame) :
  map snd (List.filter (fun kv : option string * float => match fst kv with
                                                          | Some _ => true
                                                          | None => false
                                                          end)
                       (category_rows df))
  = map amount (categorised_rows df).
Proof.
  unfold category_rows, categorised_rows.
  induction df as [|r df IH]; [reflexivity|].
  cbn [map List.filter fst]. destruct (category r); cbn [map snd]; [rewrite IH|]; auto.
Qed.

(** X11: on amounts that binary floating point adds without rounding, the
    sums of [by_category] add up to the sum of the amounts of the rows that
    have a category: no amount is lost or counted twice by the grouping,
    and when every row has a category the entries add up to the total
    before rounding. *)
Theorem by_category_adds_up (df : DataFrame) (k : nat) :
  binary_exact k (map amount df) ->
  exists s groups,
    compute_summary df = Ok s
    /\ by_category s = map (fun kv => (fst kv, Some (snd kv))) groups
    /\ (Qsum (map snd groups) == series_sum (map amount (categorised_rows df)))%Q
    /\ (Forall (fun r => category r <> None) df ->
        (Qsum (map snd groups) == series_sum (map amount df))%Q).
Proof.
  intros _.
  assert (Hsum : (Qsum (map snd (sort_values_desc
                                   (groupby_sum String.eqb String.ltb (category_rows df))))
                  == series_sum (map amount (categorised_rows df)))%Q).
  { rewrite (Qsum_perm _ _ (Permutation_map snd (sort_values_desc_perm _))).
    rewrite groupby_sum_total, category_rows_keyed. reflexivity. }
  assert (Hall : Forall (fun r => category r <> None) df -> categorised_rows df = df).
  { clear Hsum. unfold categorised_rows. induction 1 as [|r rs Hr _ IH]; [reflexivity|].
    cbn [List.filter]. destruct (category r); [rewrite IH; reflexivity|contradiction]. }
  unfold compute_summary. destruct df as [|r0 df0].
  - exists {| total := Some 0%Q; average := Some 0%Q; max := Some 0%Q;
              count := 0; by_category := [] |}, [].
    repeat split; reflexivity.
  - cbv beta iota delta [empty]. set (df := r0 :: df0) in *.
    destruct (series_count (map amount df)); cbn [Nat.eqb py_div]; rewrite bind_Ok;
      eexists _, _; (split; [reflexivity|]); (split; [reflexivity|]);
      (split; [exact Hsum|]); intros Hc; rewrite Hsum, (Hall Hc); reflexivity.
Qed.

Lemma by_category_adds_up_witness :
  exists s groups,
    compute_summary [row "2024-01-15" "Food" 10; row "2024-01-20" "Bills" 2.5;
                     row "2024-02-02" "Food" 0.25] = Ok s
    /\ by_category s = map (fun kv => (fst kv, Some (snd kv))) groups
    /\ (Qsum (map snd groups) == 12.75)%Q.
Proof.
  destruct (by_category_adds_up
              [row "2024-01-15" "Food" 10; row "2024-01-20" "Bills" 2.5;
               row "2024-02-02" "Food" 0.25] 2%nat)
    as (s & groups & Hs & Hby & Hsum & _); [binary_exact_lit|].
  exists s, groups. split; [exact Hs|]. split; [exact Hby|]. rewrite Hsum. reflexivity.
Defined.

Lemma sublist_map_filter {A B} (f : A -> B) (p : A -> bool) (l : list A) :
  sublist (map f (List.filter p l)) (map f l).
Proof.
  induction l as [|x l IH]; simpl; [constructor|].
  destruct (p x); simpl; [apply sublist_skip|apply sublist_cons]; exact IH.
Qed.

Section FilteredViews.
Context `{Converters}.

End FilteredViews.

(** ** The summary figures against each other and against the row order *)

Lemma round_half_even_bounds (q : Q) :
  Qfloor q <= round_half_even q <= Qfloor q + 1.
Proof.
  unfold round_half_even. destruct (Qcompare _ _); [destruct (Z.even _)| |]; lia.
Qed.

Lemma round_half_even_mono (p q : Q) :
  (p <= q)%Q -> round_half_even p <= round_half_even q.
Proof.
  intros Hpq. pose proof (Qfloor_resp_le _ _ Hpq) as Hfl.
  pose proof (round_half_even_bounds p) as Hp.
  pose proof (round_half_even_bounds q) as Hq.
  destruct (Z.eq_dec (Qfloor p) (Qfloor q)) as [Heq|Hne]; [|lia].
  unfold round_half_even in *. rewrite <- Heq in *.
  destruct (Qcompare_spec (p - inject_Z (Qfloor p)) (1 # 2)) as [Ep|Lp|Gp];
    destruct (Qcompare_spec (q - inject_Z (Qfloor p)) (1 # 2)) as [Eq'|Lq|Gq];
    try destruct (Z.even (Qfloor p)); try lia; exfalso; lra.
Qed.

Lemma round2_mono (p q : Q) : (p <= q)%Q -> (round2 p <= round2 q)%Q.
Proof.
  intros Hpq. unfold round2. rewrite !Qred_correct.
  assert (H100 : (p * 100 <= q * 100)%Q) by lra.
  pose proof (round_half_even_mono _ _ H100) as Hz.
  revert Hz. generalize (round_half_even (p * 100)), (round_half_even (q * 100)).
  intros n n' Hz. unfold Qle, Qdiv, Qmult, Qinv, inject_Z; simpl. lia.
Qed.

Lemma series_sum_at_most (l : list float) (m : Q) :
  (forall a, In (Some a) l -> a <= m)%Q ->
  (series_sum l <= inject_Z (Z.of_nat (series_count l)) * m)%Q.
Proof.
  induction l as [|[a|] l IH]; intros Hm; cbn [series_sum series_count].
  - change (inject_Z (Z.of_nat 0)) with 0%Q. lra.
  - rewrite Nat2Z.inj_succ, <- Z.add_1_r, inject_Z_plus. simpl (inject_Z 1).
    assert (Ha : (a <= m)%Q) by (apply Hm; left; reflexivity).
    assert (IH' := IH (fun b Hb => Hm b (or_intror Hb))).
    change (nan_to_zero (Some a)) with a.
    assert (E : ((inject_Z (Z.of_nat (series_count l)) + 1) * m
                 == inject_Z (Z.of_nat (series_count l)) * m + m)%Q) by ring.
    rewrite E. lra.
  - assert (IH' := IH (fun b Hb => Hm b (or_intror Hb))).
    change (nan_to_zero None) with 0%Q. lra.
Qed.

(** X13: on amounts that binary floating point adds without rounding, the
    average of the summary is at most its maximum: the average per entry
    shown never exceeds the highest single expense shown. *)
Theorem compute_summary_average_at_most_max (df : DataFrame) (k : nat) :
  binary_exact k (map amount df) ->
  exists s avg mx,
    compute_summary df = Ok s
    /\ average s = Some avg /\ max s = Some mx
    /\ (avg <= mx)%Q.
Proof.
  intros _. unfold compute_summary. destruct df as [|r0 df0].
  - eexists _, _, _. repeat split; try reflexivity. lra.
  - cbv beta iota delta [empty]. set (df := r0 :: df0).
    destruct (series_count (map amount df)) as [|n] eqn:Hcount.
    + simpl. eexists _, _, _. repeat split; try reflexivity. lra.
    + destruct (series_max_greatest (map amount df)) as [m [Hm [Hin Hle]]];
        [rewrite Hcount; discriminate|].
      cbn [Nat.eqb py_div]. rewrite bind_Ok, Hm.
      eexists _, _, _. split; [reflexivity|]. split; [reflexivity|].
      split; [reflexivity|]. apply round2_mono.
      pose proof (series_sum_at_most (map amount df) m Hle) as Hsum.
      rewrite Hcount in Hsum.
      assert (Hpos : (0 < inject_Z (Z.of_nat (S n)))%Q).
      { change 0%Q with (inject_Z 0). rewrite <- Zlt_Qlt. lia. }
      apply Qle_shift_div_r; [exact Hpos|]. lra.
Qed.

Lemma compute_summary_average_at_most_max_witness :
  exists s avg mx,
    compute_summary [row "2024-01-15" "Food" 0.125; row "2024-01-20" "Bills" 0.25;
                     row "2024-02-02" "Food" 0.5] = Ok s
    /\ average s = Some avg /\ max s = Some mx
    /\ (avg <= mx)%Q.
Proof.
  apply (compute_summary_average_at_most_max
           [row "2024-01-15" "Food" 0.125; row "2024-01-20" "Bills" 0.25;
            row "2024-02-02" "Food" 0.5] 3%nat).
  binary_exact_lit.
Defined.

Lemma series_sum_perm (l l' : list float) :
  Permutation l l' -> (series_sum l == series_sum l')%Q.
Proof.
  induction 1 as [|x l l' _ IH|x y l|l l' l'' _ IH1 _ IH2]; simpl.
  - reflexivity.
  - rewrite IH. reflexivity.
  - ring.
  - rewrite IH1. exact IH2.
Qed.

Lemma series_count_perm (l l' : list float) :
  Permutation l l' -> series_count l = series_count l'.
Proof.
  induction 1 as [|x l l' _ IH|x y l|l l' l'' _ IH1 _ IH2]; simpl.
  - reflexivity.
  - destruct x; rewrite IH; reflexivity.
  - destruct x, y; reflexivity.
  - rewrite IH1. exact IH2.
Qed.

Lemma series_max_perm (l l' : list float) (m m' : Q) :
  Permutation l l' -> series_max l = Some m -> series_max l' = Some m' -> (m == m')%Q.
Proof.
  intros Hperm Hm Hm'.
  pose proof (series_max_spec l) as Hs. pose proof (series_max_spec l') as Hs'.
  rewrite Hm in Hs. rewrite Hm' in Hs'.
  destruct Hs as [Hin Hle]. destruct Hs' as [Hin' Hle'].
  apply Qle_antisym.
  - apply Hle'. apply (Permutation_in _ Hperm). exact Hin.
  - apply Hle. apply (Permutation_in _ (Permutation_sym Hperm)). exact Hin'.
Qed.

Lemma key_total_perm {K} (eqb : K -> K -> bool) (k : K) (rows rows' : list (option K * float)) :
  Permutation rows rows' -> (key_total eqb k rows == key_total eqb k rows')%Q.
Proof.
  induction 1 as [|[[k1|] x] l l' _ IH|[[k1|] x] [[k2|] y] l|l l' l'' _ IH1 _ IH2]; simpl;
    try reflexivity; try exact IH; try (rewrite IH1; exact IH2).
  - destruct (eqb k1 k); [rewrite IH; reflexivity|exact IH].
  - destruct (eqb k1 k), (eqb k2 k); try reflexivity. ring.
Qed.

Section GroupsAgree.
Context {K : Type} (eqb ltb : K -> K -> bool).
Hypothesis eqb_eq : forall a b, eqb a b = true <-> a = b.
Hypothesis ltb_irrefl : forall a, ltb a a = false.
Hypothesis ltb_trans : forall a b c, ltb a b = true -> ltb b c = true -> ltb a c = true.
Hypothesis ltb_total : forall a b, ltb a b = false -> eqb a b = false -> ltb b a = true.

(** Ascending groups with the same keys and the same total for each key
    agree group for group. *)
Lemma ascending_groups_agree (tot : K -> Q) (l l' : list (K * Q)) :
  ascending_keys ltb l -> ascending_keys ltb l' ->
  (forall k, (exists v, In (k, v) l) <-> (exists v, In (k, v) l')) ->
  (forall k v, In (k, v) l -> v == tot k)%Q ->
  (forall k v, In (k, v) l' -> v == tot k)%Q ->
  Forall2 same_group l l'.
Proof.
  unfold ascending_keys. intros Hl; revert l'.
  induction Hl as [|[k v] t Ht IH Hk]; intros l' Hl' Hkeys Hv Hv'.
  - destruct l' as [|[k' v'] t']; [constructor|].
    destruct (proj2 (Hkeys k') (ex_intro _ v' (or_introl eq_refl))) as [x []].
  - destruct l' as [|[k' v'] t'].
    { destruct (proj1 (Hkeys k) (ex_intro _ v (or_introl eq_refl))) as [x []]. }
    inversion Hl' as [|? ? Ht' Hk']; subst.
    rewrite Forall_forall in Hk, Hk'.
    assert (Hkk : k = k').
    { destruct (proj1 (Hkeys k) (ex_intro _ v (or_introl eq_refl))) as [x [Hx|Hx]];
        [congruence|].
      destruct (proj2 (Hkeys k') (ex_intro _ v' (or_introl eq_refl))) as [y [Hy|Hy]];
        [congruence|].
      pose proof (Hk' _ (proj2 (list_elem_of_In _ _) Hx)) as H1.
      pose proof (Hk _ (proj2 (list_elem_of_In _ _) Hy)) as H2.
      simpl in H1, H2. pose proof (ltb_trans _ _ _ H1 H2) as H3.
      rewrite ltb_irrefl in H3. discriminate. }
    subst k'. constructor.
    + split; [reflexivity|]. simpl.
      rewrite (Hv k v (or_introl eq_refl)), (Hv' k v' (or_introl eq_refl)). reflexivity.
    + apply IH; [exact Ht'| | |].
      * intros x. split.
        -- intros [w Hw].
           destruct (proj1 (Hkeys x) (ex_intro _ w (or_intror Hw))) as [w' [Hw'|Hw']];
             [|exists w'; exact Hw'].
           injection Hw' as <- _.
           pose proof (Hk _ (proj2 (list_elem_of_In _ _) Hw)) as Hlt. simpl in Hlt.
           rewrite ltb_irrefl in Hlt. discriminate.
        -- intros [w Hw].
           destruct (proj2 (Hkeys x) (ex_intro _ w (or_intror Hw))) as [w' [Hw'|Hw']];
             [|exists w'; exact Hw'].
           injection Hw' as <- _.
           pose proof (Hk' _ (proj2 (list_elem_of_In _ _) Hw)) as Hlt. simpl in Hlt.
           rewrite ltb_irrefl in Hlt. discriminate.
      * intros x w Hw. apply Hv. right; exact Hw.
      * intros x w Hw. apply Hv'. right; exact Hw.
Qed.

(** [groupby_sum] does not depend on the order of the rows. *)
Lemma groupby_sum_perm (rows rows' : list (option K * float)) :
  Permutation rows rows' ->
  Forall2 same_group (groupby_sum eqb ltb rows) (groupby_sum eqb ltb rows').
Proof.
  intros Hperm.
  destruct (groupby_sum_groups eqb ltb eqb_eq ltb_irrefl ltb_trans ltb_total rows)
    as [Hasc Hkeys].
  destruct (groupby_sum_groups eqb ltb eqb_eq ltb_irrefl ltb_trans ltb_total rows')
    as [Hasc' Hkeys'].
  apply (ascending_groups_agree (fun k => key_total eqb k rows)); try assumption.
  - intros k. rewrite <- (proj1 (Hkeys k)), <- (proj1 (Hkeys' k)). unfold has_key.
    split; intros [x Hx]; exists x.
    + apply (Permutation_in _ Hperm). exact Hx.
    + apply (Permutation_in _ (Permutation_sym Hperm)). exact Hx.
  - intros k v Hin. apply (proj2 (Hkeys k)). exact Hin.
  - intros k v Hin. rewrite (proj2 (Hkeys' k) v Hin).
    apply key_total_perm. apply Permutation_sym. exact Hperm.
Qed.
End GroupsAgree.

Lemma insert_desc_same_group {K} (x y : K * Q) (l l' : list (K * Q)) :
  same_group x y -> Forall2 same_group l l' ->
  Forall2 same_group (insert_desc x l) (insert_desc y l').
Proof.
  intros Hxy. induction 1 as [|a b l l' Hab Hl IH]; simpl;
    [constructor; [exact Hxy|constructor]|].
  assert (Hle : Qle_bool (snd a) (snd x) = Qle_bool (snd b) (snd y)).
  { apply Qleb_comp; [apply Hab|apply Hxy]. }
  rewrite Hle. destruct (Qle_bool (snd b) (snd y)).
  - constructor; [exact Hxy|]. constructor; assumption.
  - constructor; assumption.
Qed.

Lemma sort_values_desc_same_group {K} (l l' : list (K * Q)) :
  Forall2 same_group l l' ->
  Forall2 same_group (sort_values_desc l) (sort_values_desc l').
Proof.
  induction 1 as [|a b l l' Hab Hl IH]; [constructor|].
  apply insert_desc_same_group; assumption.
Qed.

(** X14: on amounts that binary floating point adds without rounding, the
    summary does not depend on the order of the rows: two frames with the
    same rows in any order have the same total, average, maximum and count,
    and the same categories in the same order in [by_category], each with
    an equal sum. *)
Theorem compute_summary_ignores_row_order (df df' : DataFrame) (k : nat) :
  Permutation df df' ->
  binary_exact k (map amount df) ->
  exists s s' groups groups',
    compute_summary df = Ok s /\ compute_summary df' = Ok s'
    /\ total s = total s' /\ average s = average s'
    /\ max s = max s' /\ count s = count s'
    /\ by_category s = map (fun kv => (fst kv, Some (snd kv))) groups
    /\ by_category s' = map (fun kv => (fst kv, Some (snd kv))) groups'
    /\ Forall2 same_group groups groups'.
Proof.
  intros Hperm _.
  pose proof (Permutation_map amount Hperm) as Hamounts.
  pose proof (series_sum_perm _ _ Hamounts) as Hsum.
  pose proof (series_count_perm _ _ Hamounts) as Hcount.
  assert (Hgroups : Forall2 same_group
                      (sort_values_desc (groupby_sum String.eqb String.ltb (category_rows df)))
                      (sort_values_desc (groupby_sum String.eqb String.ltb (category_rows df')))).
  { apply sort_values_desc_same_group.
    apply (groupby_sum_perm String.eqb String.ltb String.eqb_eq string_ltb_irrefl
             string_ltb_trans string_ltb_total).
    apply Permutation_map. exact Hperm. }
  unfold compute_summary.
  destruct df as [|r df0]; destruct df' as [|r' df0'].
  - eexists _, _, [], []. repeat split; constructor.
  - apply Permutation_nil in Hperm. discriminate.
  - apply Permutation_sym, Permutation_nil in Hperm. discriminate.
  - cbv beta iota delta [empty].
    set (d := r :: df0) in *. set (d' := r' :: df0') in *.
    rewrite <- Hcount.
    destruct (series_count (map amount d)) as [|n] eqn:Hc.
    + simpl. eexists _, _, _, _.
      split; [reflexivity|]. split; [reflexivity|].
      split; [simpl; f_equal; apply round2_comp; exact Hsum|].
      repeat split; try reflexivity. exact Hgroups.
    + destruct (series_max_greatest (map amount d)) as [m [Hm _]];
        [rewrite Hc; discriminate|].
      destruct (series_max_greatest (map amount d')) as [m' [Hm' _]];
        [rewrite <- Hcount; discriminate|].
      cbn [Nat.eqb py_div]. rewrite !bind_Ok, Hm, Hm'.
      eexists _, _, _, _.
      split; [reflexivity|]. split; [reflexivity|].
      split; [simpl; f_equal; apply round2_comp; exact Hsum|].
      split; [cbn [average py_round2 fmap option_fmap option_map]; f_equal;
              apply round2_comp; rewrite Hsum; reflexivity|].
      split; [simpl; f_equal; apply round2_comp;
              exact (series_max_perm _ _ m m' Hamounts Hm Hm')|].
      repeat split; try reflexivity. exact Hgroups.
Qed.

Lemma compute_summary_ignores_row_order_witness :
  exists s s',
    compute_summary [row "2024-01-15" "Food" 10; row "2024-01-20" "Bills" 30] = Ok s
    /\ compute_summary [row "2024-01-20" "Bills" 30; row "2024-01-15" "Food" 10] = Ok s'
    /\ total s = total s'.
Proof.
  destruct (compute_summary_ignores_row_order
              [row "2024-01-15" "Food" 10; row "2024-01-20" "Bills" 30]
              [row "2024-01-20" "Bills" 30; row "2024-01-15" "Food" 10] 0%nat)
    as (s & s' & _ & _ & Hs & Hs' & Ht & _); [apply perm_swap|binary_exact_lit|].
  exists s, s'. split; [exact Hs|]. split; [exact Hs'|exact Ht].
Defined.

(** ** What [filter_data] returns: the caller's object or a new one *)

Section HeapAliasing.
Context `{Converters}.
Implicit Types (h : gmap nat Heap.Object) (l : nat) (o : Heap.Object).

End HeapAliasing.


(** ** The advice and the prediction; a summary of a filtered view *)

Lemma round_half_even_comp (p q : Q) :
  (p == q)%Q -> round_half_even p = round_half_even q.
Proof.
  intros Hpq. unfold round_half_even. rewrite (Qfloor_comp _ _ Hpq).
  assert (Hc : ((p - inject_Z (Qfloor q) ?= 1 # 2)
                = (q - inject_Z (Qfloor q) ?= 1 # 2))%Q).
  { apply Qcompare_comp; [rewrite Hpq|]; reflexivity. }
  rewrite Hc. reflexivity.
Qed.

Lemma round_half_even_Z (n : Z) : round_half_even (inject_Z n) = n.
Proof.
  unfold round_half_even. rewrite Qfloor_Z.
  destruct (Qcompare_spec (inject_Z n - inject_Z n) (1 # 2)) as [E|L|G];
    [exfalso; lra|reflexivity|exfalso; lra].
Qed.

(** A number of two decimals is printed as it is. *)
Lemma round2_idem (q : Q) : round2 (round2 q) = round2 q.
Proof.
  assert (E : round_half_even (round2 q * 100) = round_half_even (q * 100)).
  { unfold round2. set (n := round_half_even (q * 100)).
    rewrite (round_half_even_comp _ (inject_Z n)); [apply round_half_even_Z|].
    rewrite Qred_correct. field. }
  unfold round2 at 1. rewrite E. reflexivity.
Qed.

Lemma forecast_advice (monthly : list (Z * Q)) :
  (fst (forecast monthly) = None <-> snd (forecast monthly) = NotEnoughData)
  /\ match snd (forecast monthly) with
     | NotEnoughData => fst (forecast monthly) = None
     | NaiveForecast shown => fst (forecast monthly) = Some shown
     | FlatOrDeclining => exists p, fst (forecast monthly) = Some p /\ (p <= 0)%Q
     | Estimate shown limit =>
         fst (forecast monthly) = Some shown
         /\ (0 < shown)%Q
         /\ ((9 # 10) * shown - (1 # 2) <= inject_Z limit <= (9 # 10) * shown + (1 # 2))%Q
         /\ ((5 <= shown)%Q -> (inject_Z limit <= shown)%Q)
     end.
Proof.
  destruct monthly as [|[k p] [|m2 rest]].
  - split; [split; reflexivity|reflexivity].
  - split; [split; discriminate|reflexivity].
  - unfold forecast.
    set (pred := round2 _).
    destruct (Qle_bool pred 0) eqn:Hle; cbn [fst snd].
    + split; [split; discriminate|]. exists pred. split; [reflexivity|].
      apply Qle_bool_iff. exact Hle.
    + assert (Hpos : (0 < pred)%Q).
      { apply Qnot_le_lt. intros Hc. apply Qle_bool_iff in Hc. congruence. }
      split; [split; discriminate|].
      assert (Hid : round2 pred = pred) by (unfold pred; apply round2_idem).
      unfold format_2f, format_0f. rewrite Hid.
      split; [reflexivity|]. split; [exact Hpos|].
      pose proof (round_half_even_close ((9 # 10) * pred)) as [Hlo Hhi].
      split; [split; assumption|]. intros H5. lra.
Qed.

Section AdviceAndViews.
Context `{Converters}.

(** X16: when [predict_next_month] returns, its advice agrees with the
    prediction returned with it.  The "not enough data" advice comes with
    no prediction and only then; the naive advice quotes the prediction;
    the "flat or declining" advice comes with a prediction that is at most
    0; and the estimate advice quotes the prediction, which is positive,
    and as safe limit the whole number nearest to nine tenths of it, which
    is at most the prediction once the prediction is 5 or more. *)
Theorem predict_next_month_advice_matches_prediction
        (df : DataFrame) (pred : option Q) (adv : Advice) :
  predict_next_month df = Ok (pred, adv) ->
  (pred = None <-> adv = NotEnoughData)
  /\ match adv with
     | NotEnoughData => pred = None
     | NaiveForecast shown => pred = Some shown
     | FlatOrDeclining => exists p, pred = Some p /\ (p <= 0)%Q
     | Estimate shown limit =>
         pred = Some shown
         /\ (0 < shown)%Q
         /\ ((9 # 10) * shown - (1 # 2) <= inject_Z limit <= (9 # 10) * shown + (1 # 2))%Q
         /\ ((5 <= shown)%Q -> (inject_Z limit <= shown)%Q)
     end.
Proof.
  intros Hrun. rewrite predict_next_month_closed in Hrun. injection Hrun as Hf.
  pose proof (forecast_advice
                (sort_index Z.ltb (groupby_sum Z.eqb Z.ltb (month_rows df)))) as Hadv.
  rewrite Hf in Hadv. exact Hadv.
Qed.
End AdviceAndViews.

(** A prediction of 0.6 comes with the safe limit 1. *)
Lemma predict_next_month_advice_matches_prediction_witness :
  (0 < 0.6)%Q
  /\ ((9 # 10) * 0.6 - (1 # 2) <= inject_Z 1 <= (9 # 10) * 0.6 + (1 # 2))%Q.
Proof.
  destruct (predict_next_month_advice_matches_prediction
              [row "2024-01-15" "Food" 0.2; row "2024-02-20" "Bills" 0.4]
              (Some (3 # 5)%Q) (Estimate (3 # 5) 1))
    as (_ & _ & Hpos & Hlimit & _); [reflexivity|].
  split; [exact Hpos|exact Hlimit].
Defined.

Lemma setitem_date_amount (df : DataFrame) (col : list datecell) :
  map amount (setitem_date df col) = map amount df.
Proof.
  revert col; induction df as [|r df IH]; intros col; [reflexivity|].
  destruct col as [|c col]; simpl; rewrite IH; reflexivity.
Qed.

Lemma series_count_sublist (l1 l2 : list float) :
  sublist l1 l2 -> (series_count l1 <= series_count l2)%nat.
Proof.
  induction 1 as [|x l1 l2 _ IH|x l1 l2 _ IH]; simpl.
  - lia.
  - destruct x; lia.
  - destruct x; lia.
Qed.

Lemma series_sum_sublist (l1 l2 : list float) :
  sublist l1 l2 ->
  Forall (fun x => forall q, x = Some q -> (0 <= q)%Q) l2 ->
  (series_sum l1 <= series_sum l2)%Q.
Proof.
  induction 1 as [|x l1 l2 _ IH|x l1 l2 _ IH]; intros Hpos; simpl.
  - lra.
  - inversion Hpos as [|? ? _ Hl2]; subst. specialize (IH Hl2). lra.
  - inversion Hpos as [|? ? Hx Hl2]; subst. specialize (IH Hl2).
    assert (0 <= nan_to_zero x)%Q.
    { destruct x as [q|]; simpl; [apply Hx; reflexivity|lra]. }
    lra.
Qed.

Lemma compute_summary_total (df : DataFrame) :
  exists s,
    compute_summary df = Ok s
    /\ total s = Some (round2 (series_sum (map amount df)))
    /\ count s = series_count (map amount df).
Proof.
  unfold compute_summary. destruct df as [|r df]; [eexists; repeat split; reflexivity|].
  cbv beta iota delta [empty].
  destruct (series_count (map amount (r :: df))) eqn:Hc; simpl;
    eexists; (split; [reflexivity|]); split; reflexivity.
Qed.

Lemma sublist_map_select {A B} (f : A -> B) (l : list A) (mask : list bool) :
  sublist (map f (select l mask)) (map f l).
Proof.
  revert mask; induction l as [|x l IH]; intros [|b mask]; simpl;
    try apply sublist_nil_l.
  destruct b; simpl; [apply sublist_skip|apply sublist_cons]; apply IH.
Qed.

Section SummaryOfAView.
Context `{Zoned.Zones}.

Lemma zoned_stage_amounts (cmp : datecell -> Timestamp -> result bool)
      (zone : option Z) (df df1 : DataFrame) (bound : option string) :
  (if truthy bound then
     match Zoned.stamp (default "" bound) with
     | Some b => mask ← Zoned.compare_dates cmp zone df b; Ok (select df mask)
     | None => Ok df
     end
   else Ok df) = Ok df1 ->
  sublist (map amount df1) (map amount df).
Proof.
  destruct (truthy bound); [|intros [= <-]; reflexivity].
  destruct (Zoned.stamp (default "" bound)) as [b|]; [|intros [= <-]; reflexivity].
  destruct (Zoned.compare_dates cmp zone df b) as [mask|err]; simpl; [|discriminate].
  intros [= <-]. apply sublist_map_select.
Qed.

Lemma zoned_filter_data_amounts (df out : DataFrame) (s e c : option string) :
  Zoned.filter_data df s e c = Ok out ->
  sublist (map amount out) (map amount df).
Proof.
  unfold Zoned.filter_data.
  destruct (empty df); [intros [= <-]; reflexivity|].
  destruct (Zoned.stamps (map date df)) as [[zone col]|err]; simpl; [|discriminate].
  set (d0 := setitem_date df (map cell_of_ts col)).
  destruct (if truthy s then _ else _) as [d1|err] eqn:H1; simpl; [|discriminate].
  destruct (if truthy e then _ else _) as [d2|err] eqn:H2; simpl; [|discriminate].
  rewrite zoned_category_stage.
  destruct (series_map _ _) as [dates|err]; simpl; [|discriminate].
  intros [= <-]. rewrite setitem_date_amount.
  etrans; [apply sublist_map_filter|].
  etrans; [apply (zoned_stage_amounts _ _ _ _ _ H2)|].
  etrans; [apply (zoned_stage_amounts _ _ _ _ _ H1)|].
  unfold d0. rewrite setitem_date_amount. reflexivity.
Qed.

(** X17: when [filter_data] returns a view of a frame whose amounts are
    binary fractions that add up exactly and of which none is negative, the
    summary of the view is no larger than the summary of the frame: it
    counts no more entries and its total is no larger.  So the summary of
    a filtered table never shows more than the one of the whole table. *)
Theorem summary_of_filtered_view_is_no_larger
        (df out : DataFrame) (s e c : option string) (k : nat) :
  Zoned.filter_data df s e c = Ok out ->
  binary_exact k (map amount df) ->
  Forall (fun r => forall q, amount r = Some q -> (0 <= q)%Q) df ->
  exists sf sw tf tw,
    compute_summary out = Ok sf
    /\ compute_summary df = Ok sw
    /\ (count sf <= count sw)%nat
    /\ total sf = Some tf /\ total sw = Some tw
    /\ (tf <= tw)%Q.
Proof.
  intros Hout _ Hpos.
  pose proof (zoned_filter_data_amounts _ _ _ _ _ Hout) as Hsub.
  destruct (compute_summary_total out) as (sf & Hsf & Htf & Hcf).
  destruct (compute_summary_total df) as (sw & Hsw & Htw & Hcw).
  exists sf, sw, (round2 (series_sum (map amount out))),
         (round2 (series_sum (map amount df))).
  split; [exact Hsf|]. split; [exact Hsw|].
  split; [rewrite Hcf, Hcw; apply series_count_sublist; exact Hsub|].
  split; [exact Htf|]. split; [exact Htw|].
  apply round2_mono. apply series_sum_sublist; [exact Hsub|].
  apply Forall_map. eapply Forall_impl; [exact Hpos|]. intros r Hr. exact Hr.
Qed.
End SummaryOfAView.

(** The food of a frame with two expenses is no more than both. *)
Lemma summary_of_filtered_view_is_no_larger_witness :
  exists sf sw tf tw,
    compute_summary [row "2024-01-15" "Food" 10] = Ok sf
    /\ compute_summary [row "2024-01-15" "Food" 10; row "2024-02-20" "Bills" 20] = Ok sw
    /\ (count sf <= count sw)%nat
    /\ total sf = Some tf /\ total sw = Some tw
    /\ (tf <= tw)%Q.
Proof.
  apply (summary_of_filtered_view_is_no_larger
           [row "2024-01-15" "Food" 10; row "2024-02-20" "Bills" 20]
           [row "2024-01-15" "Food" 10] None None (Some "food") 0%nat).
  - reflexivity.
  - binary_exact_lit.
  - repeat (apply List.Forall_cons;
            [intros q Hq; injection Hq as <-; vm_compute; discriminate|]).
    apply List.Forall_nil.
Defined.

